(** * WelcomeSign JavaScript client: the authenticated request / refresh engine

    A shallow embedding of [src/welcomesign.js] (class [WelcomeSignClient]):
    the request dispatcher [_request], the refresh coordinator
    [_refreshAccessToken], the token-writing operations ([register], [login],
    [logout], [setTokens], [clearTokens], [registerDevice], [setDeviceToken])
    and the device-session path [getDeviceInfo].

    JavaScript runs the client on one thread: an [async] function runs without
    interruption up to its next [await], and anything may run between the
    settlement of the awaited promise and the continuation.  The embedding
    keeps exactly these atomic segments: every suspended activation of
    [_request] is a [task] together with the stack of [async] callers waiting
    for it, and a labelled [step] function runs one segment.  The scheduler
    is left free (any ready segment may run next), which covers the order a
    JavaScript engine picks.

    What is taken for granted:
    - a registered callback returns normally and does not call back into the
      client; its call is recorded in the trace;
    - [removeItem] of a storage object deletes the key (the code calls it
      inside [try]/[catch], so a failure would not reach the caller either);
      [console.log] and [console.error] are left out;
    - JSON numbers are integers and a string is a list of bytes;
    - the methods that only return [this._request(endpoint, options)] are
      the operation [Request]; [startDeviceHeartbeat] is the timer calling
      [deviceHeartbeat] and [getDeviceInfo], which are operations here;
    - [createClient], which wraps a client with persistence, is not part of
      the embedding: it adds storage writes and leaves the fields of the
      client to the methods below. *)

From Stdlib Require Import ZArith Lia Ascii String DecimalString.
From stdpp Require Import base list strings gmap.

Set Warnings "-register-all".

(** ** JavaScript values *)

(** The values the client handles are decoded JSON documents, [undefined],
    and strings.  Numbers are kept as integers: the client never computes with
    them.  [VNum n] stands for the number [n] where JavaScript stores and
    prints it exactly, that is for [safe_integer n] below.  An object is the
    list of its own properties in insertion order. *)
Inductive value : Type :=
  | VUndefined
  | VNull
  | VBool (b : bool)
  | VNum (n : Z)
  | VStr (s : string)
  | VArr (elems : list value)
  | VObj (props : list (string * value)).

Definition obj : Type := list (string * value).

(** What a JavaScript [throw] carries here. *)
Inductive error : Type :=
  | ApiError (message : string) (status : Z) (data : value)
      (* [new Error(message)] with [.status] and [.data] set, line 101-103 *)
  | TypeError (reading : string)
      (* the engine's error for reading the property [reading] of [null] or
         [undefined], or for calling it where it is no function *)
  | PlainError (message : string)
      (* [new Error(message)], no further property *)
  | HostError.
      (* what [fetch] or [response.json()] rejects with *)

(** [error.status] *)
Definition error_status (e : error) : option Z :=
  match e with
  | ApiError _ status _ => Some status
  | _ => None
  end.

(** [error.status === 401] *)
Definition status_is_401 (e : error) : bool :=
  match error_status e with
  | Some s => (s =? 401)%Z
  | None => false
  end.

Inductive result (A : Type) : Type :=
  | Ok (a : A)
  | Throw (e : error).
Arguments Ok {A} a.
Arguments Throw {A} e.

Definition bind {A B : Type} (r : result A) (k : A -> result B) : result B :=
  match r with
  | Ok a => k a
  | Throw e => Throw e
  end.

Notation "'let*' x := r 'in' k" := (bind r (fun x => k))
  (at level 10, x name, r at level 100, k at level 200).

(** How a promise settles. *)
Abbreviation outcome := (result value).

(** Truthiness, [a || b], [v === undefined], [v === false]. *)
Definition js_truthy (v : value) : bool :=
  match v with
  | VUndefined | VNull => false
  | VBool b => b
  | VNum n => negb (n =? 0)%Z
  | VStr s => negb (String.eqb s EmptyString)
  | VArr _ | VObj _ => true
  end.

Definition js_or (a b : value) : value := if js_truthy a then a else b.

Definition is_undefined (v : value) : bool :=
  match v with VUndefined => true | _ => false end.

Definition is_false (v : value) : bool :=
  match v with VBool false => true | _ => false end.

(** [v && typeof v === 'object'] for a truthy [v]. *)
Definition is_object (v : value) : bool :=
  match v with VArr _ | VObj _ => true | _ => false end.

(** *** Objects *)

Fixpoint obj_get (k : string) (o : obj) : value :=
  match o with
  | [] => VUndefined
  | (k', v) :: rest => if String.eqb k k' then v else obj_get k rest
  end.

Fixpoint obj_has (k : string) (o : obj) : bool :=
  match o with
  | [] => false
  | (k', _) :: rest => String.eqb k k' || obj_has k rest
  end.

(** [o[k] = v]: an existing property keeps its place. *)
Fixpoint obj_set (k : string) (v : value) (o : obj) : obj :=
  match o with
  | [] => [(k, v)]
  | (k', v') :: rest =>
      if String.eqb k k' then (k, v) :: rest else (k', v') :: obj_set k v rest
  end.

(** [{ ...target, ...source }] *)
Definition obj_assign (target source : obj) : obj :=
  fold_left (fun acc kv => obj_set (fst kv) (snd kv) acc) source target.

Definition index_key (i : nat) : string :=
  NilZero.string_of_uint (Nat.to_uint i).

Fixpoint indexed {A : Type} (f : A -> value) (i : nat) (l : list A) : obj :=
  match l with
  | [] => []
  | x :: rest => (index_key i, f x) :: indexed f (S i) rest
  end.

(** The own enumerable properties that [...v] copies into an object literal:
    nothing for [undefined], [null], booleans and numbers, the indexed
    elements of an array, the indexed characters of a string. *)
Definition own_props (v : value) : obj :=
  match v with
  | VObj o => o
  | VArr l => indexed (fun x => x) 0 l
  | VStr s =>
      indexed (fun c => VStr (String c EmptyString)) 0 (list_ascii_of_string s)
  | _ => []
  end.

(** [v.k].  Only the keys [data], [message], [error], [token],
    [refresh_token], [expires_at] and [device_token] are ever read, none of
    which a string, number, boolean or array has. *)
Definition prop (v : value) (k : string) : result value :=
  match v with
  | VUndefined | VNull => Throw (TypeError k)
  | VObj o => Ok (obj_get k o)
  | _ => Ok VUndefined
  end.

(** [v] is [null] or [undefined]: reading a property of it throws. *)
Definition nullish (v : value) : bool :=
  match v with VUndefined | VNull => true | _ => false end.

(** *** [String(v)], as used by template literals and [new Error(v)] *)

(** A number is printed with all its digits, as [String] prints the safe
    integers, and an object as [Object.prototype.toString] prints it
    ([printable] below). *)
Fixpoint to_string (v : value) : string :=
  match v with
  | VUndefined => "undefined"
  | VNull => "null"
  | VBool true => "true"
  | VBool false => "false"
  | VNum n => NilZero.string_of_int (Z.to_int n)
  | VStr s => s
  | VArr l =>
      (fix join (l : list value) : string :=
         match l with
         | [] => EmptyString
         | x :: rest =>
             let sx := match x with
                       | VUndefined | VNull => EmptyString
                       | _ => to_string x
                       end in
             match rest with
             | [] => sx
             | _ => sx +:+ "," +:+ join rest
             end
         end) l
  | VObj _ => "[object Object]"
  end.

(** *** The numbers that are stored and printed exactly *)

(** [Number.isSafeInteger(n)] *)
Definition safe_integer (n : Z) : bool := (Z.abs n <=? 2 ^ 53 - 1)%Z.

(** [to_string] prints [v] as [String(v)] does: every number that is
    printed is a safe integer (from 2^53 on [String] prints the shortest
    digits that read back as the same double, and from 1e21 on in exponent
    form), and every object that is printed takes its [toString] from
    [Object.prototype] (an own property of that name, which JSON can give
    it, is no function, and [String] then throws). *)
Fixpoint printable (v : value) : bool :=
  match v with
  | VNum n => safe_integer n
  | VArr l =>
      (fix all (l : list value) : bool :=
         match l with
         | [] => true
         | x :: rest => printable x && all rest
         end) l
  | VObj o => negb (obj_has "toString" o)
  | _ => true
  end.

(** *** [JSON.stringify] *)

Definition dquote : string := String (ascii_of_nat 34) EmptyString.

Definition hex_digit (n : nat) : string :=
  match nth_error (list_ascii_of_string "0123456789abcdef") n with
  | Some c => String c EmptyString
  | None => EmptyString
  end.

(** QuoteJSONString on one character. *)
Definition json_escape (c : ascii) : string :=
  let n := nat_of_ascii c in
  if Nat.eqb n 8 then "\b"
  else if Nat.eqb n 9 then "\t"
  else if Nat.eqb n 10 then "\n"
  else if Nat.eqb n 12 then "\f"
  else if Nat.eqb n 13 then "\r"
  else if Nat.eqb n 34 then "\" +:+ dquote
  else if Nat.eqb n 92 then "\\"
  else if Nat.ltb n 32 then
    "\u00" +:+ hex_digit (Nat.div n 16) +:+ hex_digit (Nat.modulo n 16)
  else String c EmptyString.

Definition json_quote (s : string) : string :=
  dquote +:+ String.concat EmptyString (map json_escape (list_ascii_of_string s))
         +:+ dquote.

(** [None] is JavaScript's [undefined]: the property is left out of an
    object and written [null] in an array.  A number is written with all
    its digits, as [JSON.stringify] writes the safe integers. *)
Fixpoint json_text (v : value) : option string :=
  match v with
  | VUndefined => None
  | VNull => Some "null"
  | VBool true => Some "true"
  | VBool false => Some "false"
  | VNum n => Some (NilZero.string_of_int (Z.to_int n))
  | VStr s => Some (json_quote s)
  | VArr l =>
      Some ("[" +:+ String.concat ","
              ((fix elems (l : list value) : list string :=
                  match l with
                  | [] => []
                  | x :: rest =>
                      match json_text x with
                      | Some s => s
                      | None => "null"
                      end :: elems rest
                  end) l) +:+ "]")
  | VObj o =>
      Some ("{" +:+ String.concat ","
              ((fix members (o : list (string * value)) : list string :=
                  match o with
                  | [] => []
                  | (k, x) :: rest =>
                      match json_text x with
                      | Some s => (json_quote k +:+ ":" +:+ s) :: members rest
                      | None => members rest
                      end
                  end) o) +:+ "}")
  end.

Definition JSON_stringify (v : value) : value :=
  match json_text v with
  | Some s => VStr s
  | None => VUndefined
  end.

(** ** The client instance and its host *)

(** The storage objects [clearTokens] may touch.  Their [removeItem] is
    called inside [try]/[catch], so it never interrupts the caller. *)
Inductive storage_ref : Type :=
  | LocalStorage
  | SessionStorage
  | AppStorage.

Record host : Type := Host {
  localStorage : option (gmap string string);
      (* [None]: [typeof localStorage === 'undefined'] *)
  sessionStorage : option (gmap string string);
  appStorage : gmap string string;
      (* a storage object of the application's own *)
  window_location : bool
      (* [typeof window !== 'undefined' && window.location] *)
}.

(** The fields the constructor sets (lines 44-54).  A callback is either
    registered or [null]; calling a registered callback is recorded in the
    trace, and the callback is taken to return normally without calling back
    into the client. *)
Record client : Type := Client {
  baseURL : string;
  token : value;
  refreshToken : value;
  deviceToken : value;
  onTokenRefresh : bool;
  onAuthError : bool;
  onDeviceSessionInvalid : bool;
  storage : option storage_ref;
  storageKey : string;
  isRefreshing : bool;
  refreshPromise : option nat
      (* index of the promise in [refreshes]; [None] is [null] *)
}.

Definition set_tokens (tk rt : value) (c : client) : client :=
  Client (baseURL c) tk rt (deviceToken c) (onTokenRefresh c) (onAuthError c)
         (onDeviceSessionInvalid c) (storage c) (storageKey c)
         (isRefreshing c) (refreshPromise c).

Definition set_deviceToken (d : value) (c : client) : client :=
  Client (baseURL c) (token c) (refreshToken c) d (onTokenRefresh c)
         (onAuthError c) (onDeviceSessionInvalid c) (storage c) (storageKey c)
         (isRefreshing c) (refreshPromise c).

Definition set_refreshing (b : bool) (p : option nat) (c : client) : client :=
  Client (baseURL c) (token c) (refreshToken c) (deviceToken c)
         (onTokenRefresh c) (onAuthError c) (onDeviceSessionInvalid c)
         (storage c) (storageKey c) b p.

(** [getTokens()], lines 293-299. *)
Definition getTokens (c : client) : obj :=
  [("token", token c); ("refreshToken", refreshToken c);
   ("deviceToken", deviceToken c)].

(** *** The constructor, lines 39-55 *)

Record client_options : Type := ClientOptions {
  opt_baseURL : value;
  opt_token : value;
  opt_refreshToken : value;
  opt_deviceToken : value;
  opt_onTokenRefresh : bool;
  opt_onAuthError : bool;
  opt_onDeviceSessionInvalid : bool;
  opt_storage : option storage_ref;
  opt_storageKey : string      (* the empty string when none is given *)
}.

(** [s.replace(/\/$/, '')] *)
Fixpoint strip_trailing_slash (s : string) : string :=
  match s with
  | EmptyString => EmptyString
  | String c EmptyString => if Ascii.eqb c "/" then EmptyString else s
  | String c rest => String c (strip_trailing_slash rest)
  end.

Definition default_storageKey : string := "welcomesign_tokens".

(** [k || 'welcomesign_tokens'] on a string. *)
Definition storageKey_or_default (k : string) : string :=
  if String.eqb k EmptyString then default_storageKey else k.

Definition new_client (options : client_options) : result client :=
  if js_truthy (opt_baseURL options) then
    match opt_baseURL options with
    | VStr url =>
        Ok (Client (strip_trailing_slash url)
                   (js_or (opt_token options) VNull)
                   (js_or (opt_refreshToken options) VNull)
                   (js_or (opt_deviceToken options) VNull)
                   (opt_onTokenRefresh options)
                   (opt_onAuthError options)
                   (opt_onDeviceSessionInvalid options)
                   (opt_storage options)
                   (storageKey_or_default (opt_storageKey options))
                   false None)
    | _ => Throw (TypeError "replace")
    end
  else Throw (PlainError "baseURL is required").

(** ** The request dispatcher: what [_request] does before its first [await] *)

(** Lines 63-73: the headers object. *)
Definition request_headers (c : client) (options : obj) : obj :=
  let headers :=
    obj_assign [("Content-Type", VStr "application/json")]
               (own_props (obj_get "headers" options)) in
  if js_truthy (obj_get "useDeviceToken" options) && js_truthy (deviceToken c)
  then obj_set "Authorization"
               (VStr ("Bearer " +:+ to_string (deviceToken c))) headers
  else if negb (is_false (obj_get "auth" options)) && js_truthy (token c)
  then obj_set "Authorization"
               (VStr ("Bearer " +:+ to_string (token c))) headers
  else headers.

(** Lines 75-83: the object handed to [fetch].  The spread of [options]
    comes after [method] and [headers]. *)
Definition request_config (c : client) (options : obj) : obj :=
  let config :=
    obj_assign [("method", js_or (obj_get "method" options) (VStr "GET"));
                ("headers", VObj (request_headers c options))]
               options in
  let body := obj_get "body" options in
  if js_truthy body && is_object body
  then obj_set "body" (JSON_stringify body) config
  else config.

Definition request_url (c : client) (endpoint : string) : string :=
  baseURL c +:+ endpoint.

(** The [Authorization] header of the request that goes out. *)
Definition sent_authorization (config : obj) : value :=
  match obj_get "headers" config with
  | VObj headers => obj_get "Authorization" headers
  | _ => VUndefined
  end.

(** ** The request dispatcher: what [_request] does with the answer *)

(** [await fetch(url, config)] followed by [await response.json()].  Nothing
    of the client is read or written between the two, so they are one
    suspension here. *)
Inductive response : Type :=
  | NetworkFailure
      (* [fetch] rejects, or the body is not JSON *)
  | Response (status : Z) (data : value).

(** [response.ok] *)
Definition status_ok (status : Z) : bool :=
  (200 <=? status)%Z && (status <=? 299)%Z.

Inductive attempt : Type :=
  | Returned (v : value)
  | Thrown (e : error)
  | MustRefresh.

(** [data.message || data.error || 'API request failed'], line 101. *)
Definition error_message (data : value) : result value :=
  let* m := prop data "message" in
  if js_truthy m then Ok m
  else let* e := prop data "error" in Ok (js_or e (VStr "API request failed")).

(** The body of the [try], lines 86-104. *)
Definition request_try (c : client) (options : obj) (r : response) : attempt :=
  match r with
  | NetworkFailure => Thrown HostError
  | Response status data =>
      if status_ok status then
        match prop data "data" with
        | Throw e => Thrown e
        | Ok d => Returned (if is_undefined d then data else d)
        end
      else if (status =? 401)%Z && js_truthy (refreshToken c)
              && negb (js_truthy (obj_get "skipTokenRefresh" options))
      then MustRefresh
      else
        match error_message data with
        | Throw e => Thrown e
        | Ok m => Thrown (ApiError (to_string m) status data)
        end
  end.

(** ** Events, tasks and the world *)

(** What the outside sees: calls of [fetch], calls of the three callbacks,
    and the page reload.  A callback event records what [getTokens()] would
    return at the moment of the call. *)
Inductive event : Type :=
  | EvFetch (task : nat) (url : string) (config : obj)
  | EvTokenRefresh (payload : obj)
  | EvAuthError (e : error) (held : obj)
  | EvDeviceSessionInvalid (held : obj)
  | EvReload (held : obj).

(** The methods of the client that touch the engine.  [Request] stands for
    [_request] itself and for every method that only returns
    [this._request(endpoint, options)]. *)
Inductive operation : Type :=
  | Request (endpoint : string) (options : obj)
  | Register (userData : value)
  | Login (email password : value)
  | Logout
  | RegisterDevice (registrationData : value)
  | DeviceHeartbeat
  | GetDeviceInfo
  | SetTokens (tk rt : value)
  | ClearTokens
  | SetDeviceToken (d : value).

Inductive origin : Type :=
  | ByCaller (op : operation)
  | ByRefresh (r : nat).
      (* the [_request] issued inside [_refreshAccessToken] for promise [r] *)

(** An [async] caller suspended at [await this._request(...)]. *)
Inductive frame : Type :=
  | FRefresh (r : nat)    (* the async arrow of line 124; [r] is its promise *)
  | FRegister
  | FLogin
  | FLogout
  | FRegisterDevice
  | FGetDeviceInfo.

(** Where an activation of [_request] is suspended. *)
Inductive wait : Type :=
  | WFetch (endpoint : string) (options : obj)
      (* line 86-87, waiting for the network *)
  | WRefresh (p : option nat) (endpoint : string) (options : obj)
      (* line 96, waiting for what [_refreshAccessToken()] returned *)
  | WSettled (out : outcome).
      (* [_request] is over; its callers have yet to run *)

Record task : Type := Task {
  origin_of : origin;
  waiting : wait;
  callers : list frame
}.

Record world : Type := World {
  cl : client;
  env : host;
  tasks : list task;
  refreshes : list (option outcome);
      (* the promises made at line 124; [None] is pending *)
  trace : list event
}.

Definition with_client (f : client -> client) (w : world) : world :=
  World (f (cl w)) (env w) (tasks w) (refreshes w) (trace w).

Definition emit (evs : list event) (w : world) : world :=
  World (cl w) (env w) (tasks w) (refreshes w) (trace w ++ evs).

Definition set_task (t : nat) (tk : task) (w : world) : world :=
  World (cl w) (env w) (<[t := tk]> (tasks w)) (refreshes w) (trace w).

Definition add_task (tk : task) (w : world) : world :=
  World (cl w) (env w) (tasks w ++ [tk]) (refreshes w) (trace w).

Definition init (c : client) (h : host) : world := World c h [] [] [].

(** A fresh activation of [_request]: it runs up to [await fetch(...)]. *)
Definition fetch_event (t : nat) (endpoint : string) (options : obj)
    (w : world) : event :=
  EvFetch t (request_url (cl w) endpoint) (request_config (cl w) options).

Definition start_request (og : origin) (endpoint : string) (options : obj)
    (ks : list frame) (w : world) : world :=
  add_task (Task og (WFetch endpoint options) ks)
           (emit [fetch_event (length (tasks w)) endpoint options w] w).

(** *** [clearTokens], lines 304-346 *)

Definition remove_keys (ks : list string) (s : gmap string string)
    : gmap string string :=
  fold_left (fun acc k => delete k acc) ks s.

Definition storage_removeItem (ref : storage_ref) (k : string) (h : host)
    : host :=
  match ref with
  | LocalStorage =>
      Host (delete k <$> localStorage h) (sessionStorage h) (appStorage h)
           (window_location h)
  | SessionStorage =>
      Host (localStorage h) (delete k <$> sessionStorage h) (appStorage h)
           (window_location h)
  | AppStorage =>
      Host (localStorage h) (sessionStorage h) (delete k (appStorage h))
           (window_location h)
  end.

Definition device_keys : list string :=
  ["welcomesign_device_id"; "welcomesign_device_identifier";
   "welcomesign_device_token"].

Definition clearTokens (w : world) : world :=
  let c := set_deviceToken VNull (set_tokens VNull VNull (cl w)) in
  let h1 := match storage c with
            | Some ref => storage_removeItem ref (storageKey c) (env w)
            | None => env w
            end in
  let ks := storageKey_or_default (storageKey c) :: device_keys in
  let h2 := Host (remove_keys ks <$> localStorage h1)
                 (remove_keys ks <$> sessionStorage h1)
                 (appStorage h1) (window_location h1) in
  World c h2 (tasks w) (refreshes w) (trace w).

(** *** The synchronous part of every method *)

Definition register_options (userData : value) : obj :=
  [("method", VStr "POST"); ("body", userData); ("auth", VBool false)].

Definition login_options (email password : value) : obj :=
  [("method", VStr "POST");
   ("body", VObj [("email", email); ("password", password)]);
   ("auth", VBool false)].

Definition logout_options : obj := [("method", VStr "POST")].

Definition registerDevice_options (registrationData : value) : obj :=
  [("method", VStr "POST"); ("body", registrationData)].

Definition deviceHeartbeat_options : obj :=
  [("method", VStr "POST"); ("useDeviceToken", VBool true)].

Definition getDeviceInfo_options : obj := [("useDeviceToken", VBool true)].

Definition call (op : operation) (w : world) : world :=
  match op with
  | Request endpoint options =>
      start_request (ByCaller op) endpoint options [] w
  | Register userData =>
      start_request (ByCaller op) "/auth/register"
                    (register_options userData) [FRegister] w
  | Login email password =>
      start_request (ByCaller op) "/auth/login"
                    (login_options email password) [FLogin] w
  | Logout =>
      start_request (ByCaller op) "/auth/logout" logout_options [FLogout] w
  | RegisterDevice registrationData =>
      start_request (ByCaller op) "/devices/register"
                    (registerDevice_options registrationData)
                    [FRegisterDevice] w
  | DeviceHeartbeat =>
      start_request (ByCaller op) "/device/heartbeat"
                    deviceHeartbeat_options [] w
  | GetDeviceInfo =>
      start_request (ByCaller op) "/device/info" getDeviceInfo_options
                    [FGetDeviceInfo] w
  | SetTokens tk rt => with_client (set_tokens tk rt) w
  | ClearTokens => clearTokens w
  | SetDeviceToken d => with_client (set_deviceToken d) w
  end.

(** ** The refresh coordinator, lines 117-152 *)

Definition refresh_options (c : client) : obj :=
  [("method", VStr "POST");
   ("body", VObj [("refresh_token", refreshToken c)]);
   ("auth", VBool false);
   ("skipTokenRefresh", VBool true)].

(** The synchronous part of [_refreshAccessToken()]: the promise the caller
    will wait for, and the world after the call.  When no refresh is in
    progress the async arrow starts at once and runs [_request] up to its
    [fetch]. *)
Definition refreshAccessToken (w : world) : option nat * world :=
  if isRefreshing (cl w) then (refreshPromise (cl w), w)
  else
    let r := length (refreshes w) in
    let w1 := with_client (set_refreshing true (refreshPromise (cl w))) w in
    let w2 := start_request (ByRefresh r) "/auth/refresh"
                            (refresh_options (cl w1)) [FRefresh r] w1 in
    (Some r,
     World (set_refreshing true (Some r) (cl w2)) (env w2) (tasks w2)
           (refreshes w2 ++ [None]) (trace w2)).

(** Lines 106-108: the [catch] of [_request]. *)
Definition request_catch (c : client) (e : error) : list event :=
  if status_is_401 e && onAuthError c then [EvAuthError e (getTokens c)]
  else [].

(** The network answers the [fetch] of task [t]. *)
Definition deliver (t : nat) (og : origin) (endpoint : string) (options : obj)
    (ks : list frame) (r : response) (w : world) : world :=
  match request_try (cl w) options r with
  | Returned v => set_task t (Task og (WSettled (Ok v)) ks) w
  | Thrown e =>
      set_task t (Task og (WSettled (Throw e)) ks)
               (emit (request_catch (cl w) e) w)
  | MustRefresh =>
      let '(p, w') := refreshAccessToken w in
      set_task t (Task og (WRefresh p endpoint options) ks) w'
  end.

(** What [await p] yields once [p] is settled; [await null] yields [null]. *)
Definition awaited (p : option nat) (w : world) : option outcome :=
  match p with
  | None => Some (Ok VNull)
  | Some r =>
      match refreshes w !! r with
      | Some (Some out) => Some out
      | _ => None
      end
  end.

(** [{ ...options, skipTokenRefresh: true }], line 97. *)
Definition retry_options (options : obj) : obj :=
  obj_assign options [("skipTokenRefresh", VBool true)].

(** Lines 96-97 after the [await], and the [catch] when it throws.  The
    retry is returned without [await], so its failure does not pass through
    this activation's [catch]. *)
Definition after_refresh (t : nat) (og : origin) (endpoint : string)
    (options : obj) (ks : list frame) (out : outcome) (w : world) : world :=
  match out with
  | Ok _ =>
      set_task t (Task og (WFetch endpoint (retry_options options)) ks)
               (emit [fetch_event t endpoint (retry_options options) w] w)
  | Throw e =>
      set_task t (Task og (WSettled (Throw e)) ks)
               (emit (request_catch (cl w) e) w)
  end.

(** ** The continuations of the async callers *)

(** Lines 133-142, and the same statements at 176-185 and 204-213: both
    tokens are taken from [data], then [onTokenRefresh] is told. *)
Definition adopt_tokens (data : value) (w : world) : result world :=
  let* tk := prop data "token" in
  let* rt := prop data "refresh_token" in
  let* ex := prop data "expires_at" in
  let w1 := with_client (set_tokens tk rt) w in
  Ok (if onTokenRefresh (cl w1)
      then emit [EvTokenRefresh [("token", token (cl w1));
                                 ("refreshToken", refreshToken (cl w1));
                                 ("expiresAt", ex)]] w1
      else w1).

(** Lines 145-148, and the settlement of the arrow's promise. *)
Definition settle_refresh (r : nat) (out : outcome) (w : world) : world :=
  World (set_refreshing false None (cl w)) (env w) (tasks w)
        (<[r := Some out]> (refreshes w)) (trace w).

(** Lines 819-838. *)
Definition device_session_invalid (w : world) : world :=
  let w1 := clearTokens w in
  if onDeviceSessionInvalid (cl w1)
  then emit [EvDeviceSessionInvalid (getTokens (cl w1))] w1
  else if window_location (env w1)
       then emit [EvReload (getTokens (cl w1))] w1
       else w1.

Definition store_tokens (out : outcome) (w : world) : outcome * world :=
  match out with
  | Ok data =>
      match adopt_tokens data w with
      | Ok w1 => (Ok data, w1)
      | Throw e => (Throw e, w)
      end
  | Throw e => (Throw e, w)
  end.

(** The caller [k] resumes with the outcome of the [_request] it awaited. *)
Definition run_frame (k : frame) (out : outcome) (w : world)
    : outcome * world :=
  match k with
  | FRefresh r =>
      let '(out', w') := store_tokens out w in
      (out', settle_refresh r out' w')
  | FRegister | FLogin => store_tokens out w
  | FLogout =>
      match out with
      | Ok res => (Ok res, with_client (set_tokens VNull VNull) w)
      | Throw e => (Throw e, w)
      end
  | FRegisterDevice =>
      match out with
      | Ok data =>
          match prop data "device_token" with
          | Ok d =>
              (Ok data,
               if js_truthy d then with_client (set_deviceToken d) w else w)
          | Throw e => (Throw e, w)
          end
      | Throw e => (Throw e, w)
      end
  | FGetDeviceInfo =>
      match out with
      | Ok v => (Ok v, w)
      | Throw e =>
          (Throw e, if status_is_401 e then device_session_invalid w else w)
      end
  end.

(** ** One atomic segment *)

Inductive label : Type :=
  | Call (op : operation)
      (* the application calls a method *)
  | Deliver (t : nat) (r : response)
      (* the network answers the pending [fetch] of task [t] *)
  | Resume (t : nat).
      (* a continuation of task [t] whose awaited promise is settled runs *)

Definition step (l : label) (w : world) : option world :=
  match l with
  | Call op => Some (call op w)
  | Deliver t r =>
      match tasks w !! t with
      | Some (Task og (WFetch endpoint options) ks) =>
          Some (deliver t og endpoint options ks r w)
      | _ => None
      end
  | Resume t =>
      match tasks w !! t with
      | Some (Task og (WRefresh p endpoint options) ks) =>
          match awaited p w with
          | Some out => Some (after_refresh t og endpoint options ks out w)
          | None => None
          end
      | Some (Task og (WSettled out) (k :: ks)) =>
          let '(out', w') := run_frame k out w in
          Some (set_task t (Task og (WSettled out') ks) w')
      | _ => None
      end
  end.

Fixpoint run (ls : list label) (w : world) : option world :=
  match ls with
  | [] => Some w
  | l :: rest =>
      match step l w with
      | Some w' => run rest w'
      | None => None
      end
  end.

Inductive reachable (w0 : world) : world -> Prop :=
  | reach_init : reachable w0 w0
  | reach_step l w w' :
      reachable w0 w -> step l w = Some w' -> reachable w0 w'.

(** What the promise returned to the application settled with, if it has. *)
Definition settled_with (t : nat) (w : world) : option outcome :=
  match tasks w !! t with
  | Some (Task _ (WSettled out) []) => Some out
  | _ => None
  end.

(** ** Reading a trace *)

Definition is_auth_error (ev : event) : bool :=
  match ev with EvAuthError _ _ => true | _ => false end.


Definition is_refresh_task (tk : task) : bool :=
  match origin_of tk with ByRefresh _ => true | ByCaller _ => false end.

Definition is_in_flight (tk : task) : bool :=
  match waiting tk with WFetch _ _ => true | _ => false end.

(** The network calls [_refreshAccessToken] has issued so far, and those of
    them still unanswered. *)
Definition refresh_calls (w : world) : nat :=
  length (filter (fun tk => is_refresh_task tk = true) (tasks w)).

Definition refresh_calls_in_flight (w : world) : nat :=
  length (filter (fun tk => is_refresh_task tk && is_in_flight tk = true)
                 (tasks w)).

Definition auth_errors (w : world) : nat :=
  length (filter (fun ev => is_auth_error ev = true) (trace w)).

(** The [fetch] calls made for task [t], oldest first. *)
Fixpoint fetches_of (t : nat) (tr : list event) : list (string * obj) :=
  match tr with
  | [] => []
  | EvFetch t' url config :: rest =>
      if Nat.eqb t t' then (url, config) :: fetches_of t rest
      else fetches_of t rest
  | _ :: rest => fetches_of t rest
  end.

(** *** A small client to run scenarios on *)

Definition no_host : host := Host None None ∅ false.
Definition browser : host := Host (Some ∅) (Some ∅) ∅ true.

Definition client_with (tk rt dev : value) (authError sessionInvalid : bool)
    : client :=
  Client "https://api.welcomesign.com" tk rt dev false authError
         sessionInvalid None default_storageKey false None.

(** ** The coordinator's invariant *)

Definition plain (k : frame) : Prop := forall r, k <> FRefresh r.

(** The task that carries the refresh request of promise [r]: it was started
    by [_refreshAccessToken], the arrow of line 124 is its only caller, and
    its request is exempt from refreshing. *)
Definition refresher (r : nat) (tk : task) : Prop :=
  origin_of tk = ByRefresh r
  /\ callers tk = [FRefresh r]
  /\ match waiting tk with
     | WFetch _ o => js_truthy (obj_get "skipTokenRefresh" o) = true
     | WRefresh _ _ _ => False
     | WSettled _ => True
     end.

(** Every other task: no refresh arrow waits for it, and if it once carried
    a refresh request, that request is over. *)
Definition bystander (tk : task) : Prop :=
  Forall plain (callers tk)
  /\ (is_refresh_task tk = true -> exists out, waiting tk = WSettled out).

Record coordinated (w : world) : Prop := Coordinated {
  co_tasks : forall i tk, tasks w !! i = Some tk ->
      bystander tk
      \/ exists r, refresher r tk /\ isRefreshing (cl w) = true
                   /\ refreshPromise (cl w) = Some r;
  co_unique : forall i j tki tkj ri rj,
      tasks w !! i = Some tki -> tasks w !! j = Some tkj ->
      refresher ri tki -> refresher rj tkj -> i = j;
  co_busy : isRefreshing (cl w) = true ->
      exists r i tk, refreshPromise (cl w) = Some r
                     /\ refreshes w !! r = Some None
                     /\ tasks w !! i = Some tk /\ refresher r tk;
  co_idle : isRefreshing (cl w) = false -> refreshPromise (cl w) = None;
  co_pending : forall r, refreshes w !! r = Some None ->
      isRefreshing (cl w) = true /\ refreshPromise (cl w) = Some r;
  co_count : refresh_calls w = length (refreshes w)
}.

(** The task [_refreshAccessToken] starts in world [w]. *)
Definition refresh_task (w : world) : task :=
  Task (ByRefresh (length (refreshes w)))
       (WFetch "/auth/refresh" (refresh_options (cl w)))
       [FRefresh (length (refreshes w))].

(** ** Single-flight refresh *)

(** A caller that meets a 401 while a refresh is in progress is handed the
    pending promise; nothing else in the world changes: no [fetch], no new
    promise. *)
Definition joins_pending_refresh (w : world) : Prop :=
  forall t og e o ks data,
    tasks w !! t = Some (Task og (WFetch e o) ks) ->
    js_truthy (refreshToken (cl w)) = true ->
    js_truthy (obj_get "skipTokenRefresh" o) = false ->
    isRefreshing (cl w) = true ->
    exists r,
      refreshPromise (cl w) = Some r
      /\ refreshes w !! r = Some None
      /\ step (Deliver t (Response 401 data)) w
         = Some (set_task t (Task og (WRefresh (Some r) e o) ks) w).

(** A caller that meets a 401 while no refresh is in progress starts one:
    one more refresh call, now the only one in flight. *)
Definition starts_one_refresh (w : world) : Prop :=
  forall t og e o ks data,
    tasks w !! t = Some (Task og (WFetch e o) ks) ->
    js_truthy (refreshToken (cl w)) = true ->
    js_truthy (obj_get "skipTokenRefresh" o) = false ->
    isRefreshing (cl w) = false ->
    exists w',
      step (Deliver t (Response 401 data)) w = Some w'
      /\ refresh_calls w' = S (refresh_calls w)
      /\ refresh_calls_in_flight w' = 1%nat
      /\ isRefreshing (cl w') = true
      /\ refreshPromise (cl w') = Some (length (refreshes w))
      /\ refreshes w' !! length (refreshes w) = Some None
      /\ tasks w' !! t
         = Some (Task og (WRefresh (Some (length (refreshes w))) e o) ks)
      /\ tasks w' !! length (tasks w) = Some (refresh_task w)
      /\ trace w'
         = trace w ++ [fetch_event (length (tasks w)) "/auth/refresh"
                                   (refresh_options (cl w)) w].

(** A waiter stays suspended while the promise is pending and resumes with
    the promise's outcome: the retry when it is fulfilled, the same error
    when it is rejected. *)
Definition waiters_share_outcome (w : world) : Prop :=
  forall t og r e o ks,
    tasks w !! t = Some (Task og (WRefresh (Some r) e o) ks) ->
    (refreshes w !! r = Some None -> step (Resume t) w = None)
    /\ (forall data, refreshes w !! r = Some (Some (Ok data)) ->
          exists w', step (Resume t) w = Some w'
            /\ tasks w' !! t = Some (Task og (WFetch e (retry_options o)) ks))
    /\ (forall err, refreshes w !! r = Some (Some (Throw err)) ->
          exists w', step (Resume t) w = Some w'
            /\ tasks w' !! t = Some (Task og (WSettled (Throw err)) ks)).

Definition outcome_is_final (w : world) : Prop :=
  forall ls w' r out,
    run ls w = Some w' ->
    refreshes w !! r = Some (Some out) ->
    refreshes w' !! r = Some (Some out).

(** When the refresh arrow finishes, with a value or with an error, the
    flags are reset and the promise that was pending is settled. *)
Definition completion_resets (w : world) : Prop :=
  forall t og out r ks,
    tasks w !! t = Some (Task og (WSettled out) (FRefresh r :: ks)) ->
    exists w' out',
      step (Resume t) w = Some w'
      /\ isRefreshing (cl w) = true
      /\ refreshes w !! r = Some None
      /\ isRefreshing (cl w') = false
      /\ refreshPromise (cl w') = None
      /\ refreshes w' !! r = Some (Some out')
      /\ (forall err, out = Throw err -> out' = Throw err).

(** As long as a refresh promise stays pending no further refresh call is
    issued, whatever else happens. *)
Definition one_call_while_pending (w : world) : Prop :=
  forall ls w' r,
    run ls w = Some w' ->
    refreshes w !! r = Some None ->
    refreshes w' !! r = Some None ->
    refresh_calls w' = refresh_calls w.

(** What the promise is settled with, and what the client holds then.  When
    the refresh request has returned a [data] that is not null, the arrow
    stores [data.token] and [data.refresh_token] and fulfils the promise with
    [data], in one segment; when it has returned null, reading [data.token]
    throws and the promise is rejected with that [TypeError]; when it has
    thrown, the promise is rejected with the same error.  A rejected promise
    leaves the three credentials as they were. *)
Definition completion_settles_with_credentials (w : world) : Prop :=
  forall t og out r ks,
    tasks w !! t = Some (Task og (WSettled out) (FRefresh r :: ks)) ->
    exists w',
      step (Resume t) w = Some w'
      /\ match out with
         | Ok data =>
             if nullish data
             then refreshes w' !! r = Some (Some (Throw (TypeError "token")))
                  /\ token (cl w') = token (cl w)
                  /\ refreshToken (cl w') = refreshToken (cl w)
                  /\ deviceToken (cl w') = deviceToken (cl w)
             else refreshes w' !! r = Some (Some (Ok data))
                  /\ prop data "token" = Ok (token (cl w'))
                  /\ prop data "refresh_token" = Ok (refreshToken (cl w'))
                  /\ deviceToken (cl w') = deviceToken (cl w)
         | Throw err =>
             refreshes w' !! r = Some (Some (Throw err))
             /\ token (cl w') = token (cl w)
             /\ refreshToken (cl w') = refreshToken (cl w)
             /\ deviceToken (cl w') = deviceToken (cl w)
         end.

(** What a caller that waits for the promise observes.  The arrow finishes
    and the caller resumes: after a refresh that returned [data] the client
    holds [data.token] and [data.refresh_token], and the caller sends its
    retry, built from these; after a refresh that threw, the caller throws
    that same error on, and the client holds what it held. *)
Definition waiters_observe_outcome (w : world) : Prop :=
  forall t rt og og' e o ks ks' r out,
    tasks w !! t = Some (Task og (WRefresh (Some r) e o) ks) ->
    tasks w !! rt = Some (Task og' (WSettled out) (FRefresh r :: ks')) ->
    exists w1 w2,
      step (Resume rt) w = Some w1
      /\ step (Resume t) w1 = Some w2
      /\ cl w2 = cl w1
      /\ match out with
         | Ok data =>
             nullish data = false ->
             prop data "token" = Ok (token (cl w2))
             /\ prop data "refresh_token" = Ok (refreshToken (cl w2))
             /\ tasks w2 !! t = Some (Task og (WFetch e (retry_options o)) ks)
             /\ trace w2
                = trace w1
                  ++ [EvFetch t (request_url (cl w2) e)
                              (request_config (cl w2) (retry_options o))]
         | Throw err =>
             tasks w2 !! t = Some (Task og (WSettled (Throw err)) ks)
             /\ token (cl w2) = token (cl w)
             /\ refreshToken (cl w2) = refreshToken (cl w)
             /\ deviceToken (cl w2) = deviceToken (cl w)
         end.

Record single_flight (w : world) : Prop := SingleFlight {
  sf_in_flight : (refresh_calls_in_flight w <= 1)%nat;
  sf_join : joins_pending_refresh w;
  sf_start : starts_one_refresh w;
  sf_share : waiters_share_outcome w;
  sf_final : outcome_is_final w;
  sf_reset : completion_resets w;
  sf_window : one_call_while_pending w;
  sf_credentials : completion_settles_with_credentials w;
  sf_observe : waiters_observe_outcome w
}.

(** *** The scenario of two concurrent calls *)

Definition demo_options : client_options :=
  ClientOptions (VStr "https://api.welcomesign.com/") (VStr "T1") (VStr "R1")
                VUndefined false true false None EmptyString.

Definition demo_client : client :=
  client_with (VStr "T1") (VStr "R1") VNull true false.

Definition unauthorized : response :=
  Response 401 (VObj [("message", VStr "Token expired")]).

Definition new_pair : response :=
  Response 200 (VObj [("token", VStr "T2"); ("refresh_token", VStr "R2");
                      ("expires_at", VNum 1767225600)]).

(** Calls A and B are issued together and both are answered 401. *)
Definition two_calls_unauthorized : list label :=
  [Call (Request "/users/me" []); Call (Request "/properties" []);
   Deliver 0 unauthorized; Deliver 1 unauthorized].

(** Only A has been answered: B is in flight while the refresh runs. *)
Definition one_of_two_unauthorized : list label :=
  [Call (Request "/users/me" []); Call (Request "/properties" []);
   Deliver 0 unauthorized].

(** The refresh (task 2) succeeds, then A and B resume. *)
Definition refresh_then_retry : list label :=
  [Deliver 2 new_pair; Resume 2; Resume 0; Resume 1].

Definition world_or (w0 : world) (o : option world) : world :=
  match o with Some w => w | None => w0 end.

(** A and B are both suspended at their [fetch]. *)
Definition two_in_flight : world :=
  Eval vm_compute in
    call (Request "/properties" [])
         (call (Request "/users/me" []) (init demo_client browser)).

(** A is answered 401 and its refresh (task 2) runs to its end before the
    401 of B arrives. *)
Definition refresh_done_then_late_401 : list label :=
  [Deliver 0 unauthorized; Deliver 2 new_pair; Resume 2; Deliver 1 unauthorized].

Definition late_401 : world :=
  Eval vm_compute in
    world_or two_in_flight (run refresh_done_then_late_401 two_in_flight).

Definition two_waiting : world :=
  Eval vm_compute in
    world_or (init demo_client browser)
             (run two_calls_unauthorized (init demo_client browser)).

Definition one_waiting : world :=
  Eval vm_compute in
    world_or (init demo_client browser)
             (run one_of_two_unauthorized (init demo_client browser)).

Definition two_retried : world :=
  Eval vm_compute in
    world_or (init demo_client browser)
             (run (two_calls_unauthorized ++ refresh_then_retry)
                  (init demo_client browser)).

(** ** Reading the dispatcher *)

(** Lines 69-73 on their own: the credential the dispatcher selects. *)
Definition credential_rule (c : client) (options : obj) : value :=
  if js_truthy (obj_get "useDeviceToken" options) && js_truthy (deviceToken c)
  then VStr ("Bearer " +:+ to_string (deviceToken c))
  else if negb (is_false (obj_get "auth" options)) && js_truthy (token c)
  then VStr ("Bearer " +:+ to_string (token c))
  else VUndefined.

(** What the promise of task [t] settled with after the segments [ls]. *)
Definition outcome_after (ls : list label) (w0 : world) (t : nat)
    : option outcome :=
  match run ls w0 with
  | Some w => settled_with t w
  | None => None
  end.

(** The callers that store a token pair: lines 133-134, 176-177, 204-205. *)
Definition stores_tokens (k : frame) : bool :=
  match k with
  | FRefresh _ | FRegister | FLogin => true
  | _ => false
  end.

(** *** The scenario of a login and of a logout *)

Definition login_answered : world :=
  Eval vm_compute in
    world_or (init demo_client browser)
             (run [Call (Login (VStr "owner@example.com") (VStr "secret-1"));
                   Deliver 0 new_pair]
                  (init demo_client browser)).

Definition logout_answered : world :=
  Eval vm_compute in
    world_or (init demo_client browser)
             (run [Call Logout;
                   Deliver 0 (Response 200 (VObj [("message",
                                                   VStr "Logged out")]))]
                  (init demo_client browser)).

(** *** The scenarios of a device *)

(** What [getTokens()] returns once everything is cleared. *)
Definition no_credentials : obj :=
  [("token", VNull); ("refreshToken", VNull); ("deviceToken", VNull)].

(** A paired device: a device token and nothing else, both callbacks set. *)
Definition device_client : client :=
  client_with VNull VNull (VStr "D1") true true.

(** The same device without any callback. *)
Definition silent_device_client : client :=
  client_with VNull VNull (VStr "D1") false false.

(** A client that holds a user session and a device token. *)
Definition paired_user_client : client :=
  client_with (VStr "T1") (VStr "R1") (VStr "D1") false true.

Definition device_info_call : list label :=
  [Call GetDeviceInfo; Deliver 0 unauthorized].

Definition device_info_failed : world :=
  Eval vm_compute in
    world_or (init device_client browser)
             (run device_info_call (init device_client browser)).

Definition device_info_cleared : world :=
  Eval vm_compute in
    world_or (init device_client browser)
             (run (device_info_call ++ [Resume 0])
                  (init device_client browser)).




(** *** The scenario of a logout whose 401 is refreshed and whose retry fails *)

Definition server_error : response :=
  Response 500 (VObj [("message", VStr "Internal Server Error")]).

Definition logout_refreshed_then_failed : list label :=
  [Call Logout; Deliver 0 unauthorized; Deliver 1 new_pair; Resume 1;
   Resume 0; Deliver 0 server_error; Resume 0].

Definition logout_failed : world :=
  Eval vm_compute in
    world_or (init demo_client browser)
             (run logout_refreshed_then_failed (init demo_client browser)).

Definition is_fetch (ev : event) : bool :=
  match ev with EvFetch _ _ _ => true | _ => false end.

(** The [fetch] calls in a trace. *)
Definition fetch_count (tr : list event) : nat :=
  length (filter (fun ev => is_fetch ev = true) tr).

(** *** The scenarios of a refresh that fails *)

Definition one_call_unauthorized : list label :=
  [Call (Request "/users/me" []); Deliver 0 unauthorized].

(** The refresh (task 1) is answered 500, its arrow finishes, the caller
    resumes. *)
Definition refresh_fails_500 : world :=
  Eval vm_compute in
    world_or (init demo_client browser)
             (run (one_call_unauthorized
                   ++ [Deliver 1 server_error; Resume 1; Resume 0])
                  (init demo_client browser)).

(** The refresh is answered 401. *)
Definition refresh_fails_401 : world :=
  Eval vm_compute in
    world_or (init demo_client browser)
             (run (one_call_unauthorized
                   ++ [Deliver 1 unauthorized; Resume 1; Resume 0])
                  (init demo_client browser)).

(** The refresh succeeds and the retry is answered 401 again. *)
Definition retry_fails_401 : world :=
  Eval vm_compute in
    world_or (init demo_client browser)
             (run (one_call_unauthorized
                   ++ [Deliver 1 new_pair; Resume 1; Resume 0;
                       Deliver 0 unauthorized])
                  (init demo_client browser)).

(** The refresh succeeds and the retry succeeds. *)
Definition retry_succeeds : world :=
  Eval vm_compute in
    world_or (init demo_client browser)
             (run (one_call_unauthorized
                   ++ [Deliver 1 new_pair; Resume 1; Resume 0;
                       Deliver 0 (Response 200 (VObj [("id", VStr "u1")]))])
                  (init demo_client browser)).

(** No refresh token is held. *)
Definition no_refresh_token_401 : world :=
  Eval vm_compute in
    world_or (init demo_client browser)
             (run one_call_unauthorized
                  (init (client_with (VStr "T1") VNull VNull true false)
                        browser)).

(** Two callers wait for one refresh, which is answered 500. *)
Definition two_callers_refresh_fails : world :=
  Eval vm_compute in
    world_or (init demo_client browser)
             (run (two_calls_unauthorized
                   ++ [Deliver 2 server_error; Resume 2; Resume 1; Resume 0])
                  (init demo_client browser)).

Definition credentials_of (c : client) : value * value * value :=
  (token c, refreshToken c, deviceToken c).

(** ** A refresh that fails *)

(** Handing a 401 to the coordinator, whether a refresh is started or
    joined, writes no credential, and the caller then waits for the one
    pending promise [r], the promise of the refresh request in flight. *)
Definition refresh_start_keeps_tokens (w : world) : Prop :=
  forall t og e o ks data,
    tasks w !! t = Some (Task og (WFetch e o) ks) ->
    js_truthy (refreshToken (cl w)) = true ->
    js_truthy (obj_get "skipTokenRefresh" o) = false ->
    exists w' r rt tk,
      step (Deliver t (Response 401 data)) w = Some w'
      /\ tasks w' !! t = Some (Task og (WRefresh (Some r) e o) ks)
      /\ refreshPromise (cl w') = Some r
      /\ refreshes w' !! r = Some None
      /\ tasks w' !! rt = Some tk /\ refresher r tk
      /\ credentials_of (cl w') = credentials_of (cl w).

(** The answer to a request writes no credential; when the request throws,
    its callers will resume with that error. *)
Definition answer_keeps_tokens (w : world) : Prop :=
  forall t og e o ks rsp,
    tasks w !! t = Some (Task og (WFetch e o) ks) ->
    exists w',
      step (Deliver t rsp) w = Some w'
      /\ credentials_of (cl w') = credentials_of (cl w)
      /\ (forall err, request_try (cl w) o rsp = Thrown err ->
            tasks w' !! t = Some (Task og (WSettled (Throw err)) ks)).

(** The refresh arrow resumes: its promise was pending and is now settled;
    when the refresh request threw, the promise is rejected with that
    error; whenever the promise is rejected, the credentials and the host
    are as before. *)
Definition failed_refresh_keeps_tokens (w : world) : Prop :=
  forall rt og out r ks,
    tasks w !! rt = Some (Task og (WSettled out) (FRefresh r :: ks)) ->
    exists w' out',
      step (Resume rt) w = Some w'
      /\ refreshes w !! r = Some None
      /\ refreshes w' !! r = Some (Some out')
      /\ (forall err, out = Throw err -> out' = Throw err)
      /\ (forall err, out' = Throw err ->
            credentials_of (cl w') = credentials_of (cl w)
            /\ env w' = env w).

(** Every caller that waits for a rejected refresh promise resumes with the
    same error: it throws it on, writes nothing and sends nothing. *)
Definition failure_reaches_waiters (w : world) : Prop :=
  forall t og r e o ks err,
    tasks w !! t = Some (Task og (WRefresh (Some r) e o) ks) ->
    refreshes w !! r = Some (Some (Throw err)) ->
    exists w',
      step (Resume t) w = Some w'
      /\ tasks w' !! t = Some (Task og (WSettled (Throw err)) ks)
      /\ credentials_of (cl w') = credentials_of (cl w)
      /\ fetch_count (trace w') = fetch_count (trace w).

Definition failure_is_final (w : world) : Prop :=
  forall ls w' r err,
    run ls w = Some w' ->
    refreshes w !! r = Some (Some (Throw err)) ->
    refreshes w' !! r = Some (Some (Throw err)).

(** The refresh request has thrown [err]: the arrow finishes and a caller
    that waits for its promise resumes; the caller throws [err] on, and the
    credentials are those held before, nothing having been sent. *)
Definition failure_propagates (w : world) : Prop :=
  forall t rt og og' e o ks ks' r err,
    tasks w !! t = Some (Task og (WRefresh (Some r) e o) ks) ->
    tasks w !! rt = Some (Task og' (WSettled (Throw err)) (FRefresh r :: ks')) ->
    exists w1 w2,
      step (Resume rt) w = Some w1
      /\ step (Resume t) w1 = Some w2
      /\ refreshes w2 !! r = Some (Some (Throw err))
      /\ tasks w2 !! t = Some (Task og (WSettled (Throw err)) ks)
      /\ credentials_of (cl w2) = credentials_of (cl w)
      /\ fetch_count (trace w2) = fetch_count (trace w).

(** The whole path of the caller that triggers the refresh: its 401 starts
    the refresh, the refresh request is answered and throws [err], the arrow
    finishes, the caller resumes.  The caller's promise is rejected with
    [err], the refresh state is reset, and the credentials are those held
    before the attempt. *)
Definition failure_reaches_trigger (w : world) : Prop :=
  forall t og e o ks data rsp err,
    tasks w !! t = Some (Task og (WFetch e o) ks) ->
    js_truthy (refreshToken (cl w)) = true ->
    js_truthy (obj_get "skipTokenRefresh" o) = false ->
    isRefreshing (cl w) = false ->
    request_try (cl w) (refresh_options (cl w)) rsp = Thrown err ->
    exists w4,
      run [Deliver t (Response 401 data); Deliver (length (tasks w)) rsp;
           Resume (length (tasks w)); Resume t] w = Some w4
      /\ tasks w4 !! t = Some (Task og (WSettled (Throw err)) ks)
      /\ refreshes w4 !! length (refreshes w) = Some (Some (Throw err))
      /\ isRefreshing (cl w4) = false
      /\ credentials_of (cl w4) = credentials_of (cl w).

Record failed_refresh_atomic (w : world) : Prop := FailedRefreshAtomic {
  fr_start : refresh_start_keeps_tokens w;
  fr_answer : answer_keeps_tokens w;
  fr_finish : failed_refresh_keeps_tokens w;
  fr_waiters : failure_reaches_waiters w;
  fr_final : failure_is_final w;
  fr_propagates : failure_propagates w;
  fr_trigger : failure_reaches_trigger w
}.

(** One call is suspended at its [fetch]. *)
Definition one_in_flight : world :=
  Eval vm_compute in call (Request "/users/me" []) (init demo_client browser).

(** Two callers wait for the refresh; its request has been answered 500. *)
Definition refresh_answered_500 : world :=
  Eval vm_compute in
    world_or (init demo_client browser)
             (run (two_calls_unauthorized ++ [Deliver 2 server_error])
                  (init demo_client browser)).

(** ** The retry after a refresh *)

(** The request is sent with the access token: lines 69-72 do not take the
    device-token branch, [auth] is not [false], and the descriptor has no
    [headers] field of its own. *)
Definition sent_with_access_token (c : client) (o : obj) : bool :=
  negb (obj_has "headers" o)
  && negb (js_truthy (obj_get "useDeviceToken" o) && js_truthy (deviceToken c))
  && negb (is_false (obj_get "auth" o)).

(** On a 401, with a refresh token held and the descriptor not marked, the
    call waits for the coordinator; nothing is re-issued yet. *)
Definition awaits_coordinator_first (w : world) : Prop :=
  forall t og e o ks data,
    tasks w !! t = Some (Task og (WFetch e o) ks) ->
    js_truthy (refreshToken (cl w)) = true ->
    js_truthy (obj_get "skipTokenRefresh" o) = false ->
    exists w' p,
      step (Deliver t (Response 401 data)) w = Some w'
      /\ tasks w' !! t = Some (Task og (WRefresh p e o) ks)
      /\ isRefreshing (cl w') = true
      /\ refreshPromise (cl w') = p
      /\ fetches_of t (trace w') = fetches_of t (trace w).

(** Once the refresh has succeeded the call sends the same request once
    more, marked [skipTokenRefresh], with the credential lines 69-73 select
    from the tokens held at that moment. *)
Definition retries_once_marked (w : world) : Prop :=
  forall t og r e o ks v,
    tasks w !! t = Some (Task og (WRefresh (Some r) e o) ks) ->
    refreshes w !! r = Some (Some (Ok v)) ->
    exists w',
      step (Resume t) w = Some w'
      /\ tasks w' !! t = Some (Task og (WFetch e (retry_options o)) ks)
      /\ js_truthy (obj_get "skipTokenRefresh" (retry_options o)) = true
      /\ (forall k, k <> "skipTokenRefresh" ->
            obj_get k (retry_options o) = obj_get k o)
      /\ trace w'
         = trace w ++ [EvFetch t (request_url (cl w) e)
                               (request_config (cl w) (retry_options o))]
      /\ (obj_has "headers" o = false ->
          sent_authorization (request_config (cl w) (retry_options o))
          = credential_rule (cl w) o)
      /\ cl w' = cl w.

(** When the refresh has failed nothing is sent again. *)
Definition no_retry_after_failed_refresh (w : world) : Prop :=
  forall t og r e o ks err,
    tasks w !! t = Some (Task og (WRefresh (Some r) e o) ks) ->
    refreshes w !! r = Some (Some (Throw err)) ->
    exists w',
      step (Resume t) w = Some w'
      /\ tasks w' !! t = Some (Task og (WSettled (Throw err)) ks)
      /\ fetch_count (trace w') = fetch_count (trace w).

(** A marked request never reaches the coordinator, whatever the answer:
    it is over, no refresh call is made, nothing is sent. *)
Definition marked_never_refreshes (w : world) : Prop :=
  forall t og e o ks rsp,
    tasks w !! t = Some (Task og (WFetch e o) ks) ->
    js_truthy (obj_get "skipTokenRefresh" o) = true ->
    exists w' out,
      step (Deliver t rsp) w = Some w'
      /\ tasks w' !! t = Some (Task og (WSettled out) ks)
      /\ refresh_calls w' = refresh_calls w
      /\ refreshes w' = refreshes w
      /\ length (tasks w') = length (tasks w)
      /\ fetch_count (trace w') = fetch_count (trace w).

(** The refresh arrow stores the new token and the waiting call resumes
    next: the retry is built from the new token. *)
Definition retry_carries_new_token (w : world) : Prop :=
  forall t rt og og' e o ks ks' r data,
    tasks w !! t = Some (Task og (WRefresh (Some r) e o) ks) ->
    tasks w !! rt = Some (Task og' (WSettled (Ok data)) (FRefresh r :: ks')) ->
    nullish data = false ->
    exists w2 tk,
      prop data "token" = Ok tk
      /\ run [Resume rt; Resume t] w = Some w2
      /\ token (cl w2) = tk
      /\ fetches_of t (trace w2)
         = fetches_of t (trace w)
           ++ [(request_url (cl w) e,
                request_config (cl w2) (retry_options o))]
      /\ (obj_has "headers" o = false ->
          sent_authorization (request_config (cl w2) (retry_options o))
          = credential_rule (cl w2) o)
      /\ (sent_with_access_token (cl w) o = true ->
          js_truthy tk = true ->
          sent_authorization (request_config (cl w2) (retry_options o))
          = VStr ("Bearer " +:+ to_string tk)).

Record refresh_retry (w : world) : Prop := RefreshRetry {
  rr_await : awaits_coordinator_first w;
  rr_retry : retries_once_marked w;
  rr_failed : no_retry_after_failed_refresh w;
  rr_marked : marked_never_refreshes w;
  rr_token : retry_carries_new_token w
}.

(** *** The scenario of a heartbeat of a client that also holds a user
    session *)

Definition heartbeat_refreshed : list label :=
  [Call DeviceHeartbeat; Deliver 0 unauthorized; Deliver 1 new_pair;
   Resume 1; Resume 0].

Definition heartbeat_retried : world :=
  Eval vm_compute in
    world_or (init paired_user_client browser)
             (run heartbeat_refreshed (init paired_user_client browser)).

(** One caller waits; the refresh request has returned the new pair. *)
Definition refresh_answered_ok : world :=
  Eval vm_compute in
    world_or (init demo_client browser)
             (run (one_call_unauthorized ++ [Deliver 1 new_pair])
                  (init demo_client browser)).

(** ** Further reading aids *)

(** The last character of [s] is a slash. *)
Fixpoint ends_with_slash (s : string) : bool :=
  match s with
  | EmptyString => false
  | String c EmptyString => Ascii.eqb c "/"
  | String _ rest => ends_with_slash rest
  end.

(** A credential field as the constructor leaves it: [null] or truthy. *)
Definition null_or_truthy (v : value) : Prop :=
  v = VNull \/ js_truthy v = true.

(** The message line 101 picks from a decoded body that is not [null]. *)
Definition picked_message (data : value) : value :=
  match data with
  | VObj props =>
      js_or (obj_get "message" props)
            (js_or (obj_get "error" props) (VStr "API request failed"))
  | _ => VStr "API request failed"
  end.

Definition is_token_refresh (ev : event) : bool :=
  match ev with EvTokenRefresh _ => true | _ => false end.

(** The calls of [onTokenRefresh] in a trace, oldest first. *)
Definition token_refresh_events (tr : list event) : list event :=
  filter (fun ev => is_token_refresh ev = true) tr.

(** The calls of [onAuthError] in a trace. *)
Definition auth_error_count (tr : list event) : nat :=
  length (filter (fun ev => is_auth_error ev = true) tr).

(** ** What a segment may emit *)

(** The fields of the client no method assigns. *)
Definition configuration (c : client)
    : string * bool * bool * bool * option storage_ref * string :=
  (baseURL c, onTokenRefresh c, onAuthError c, onDeviceSessionInvalid c,
   storage c, storageKey c).

(** The one event a segment from [w] to [w'] may add to the trace. *)
Definition emitted (l : label) (w w' : world) (ev : event) : Prop :=
  match ev with
  | EvFetch t url config =>
      exists e o, url = baseURL (cl w) +:+ e
                  /\ config = request_config (cl w) o
  | EvAuthError err held =>
      status_is_401 err = true /\ onAuthError (cl w) = true
      /\ held = getTokens (cl w) /\ cl w' = cl w
  | EvTokenRefresh payload =>
      exists t og k ks data ex,
        l = Resume t
        /\ tasks w !! t = Some (Task og (WSettled (Ok data)) (k :: ks))
        /\ stores_tokens k = true
        /\ onTokenRefresh (cl w) = true
        /\ prop data "token" = Ok (token (cl w'))
        /\ prop data "refresh_token" = Ok (refreshToken (cl w'))
        /\ prop data "expires_at" = Ok ex
        /\ payload = [("token", token (cl w'));
                      ("refreshToken", refreshToken (cl w'));
                      ("expiresAt", ex)]
  | EvDeviceSessionInvalid held =>
      onDeviceSessionInvalid (cl w) = true
      /\ held = no_credentials /\ getTokens (cl w') = no_credentials
  | EvReload held =>
      onDeviceSessionInvalid (cl w) = false
      /\ window_location (env w) = true
      /\ held = no_credentials /\ getTokens (cl w') = no_credentials
  end.

(** What every event of a trace of the client [c0] on the host [h0]
    satisfies. *)
Definition event_sound (c0 : client) (h0 : host) (ev : event) : Prop :=
  match ev with
  | EvFetch _ url _ => exists e, url = baseURL c0 +:+ e
  | EvAuthError err _ => status_is_401 err = true /\ onAuthError c0 = true
  | EvTokenRefresh payload =>
      onTokenRefresh c0 = true
      /\ map fst payload = ["token"; "refreshToken"; "expiresAt"]
  | EvDeviceSessionInvalid held =>
      onDeviceSessionInvalid c0 = true /\ held = no_credentials
  | EvReload held =>
      onDeviceSessionInvalid c0 = false /\ window_location h0 = true
      /\ held = no_credentials
  end.

(** What a callback is called for; a [fetch] is no callback. *)
Definition callback_sound (c0 : client) (h0 : host) (ev : event) : Prop :=
  match ev with
  | EvFetch _ _ _ => True
  | _ => event_sound c0 h0 ev
  end.

(** *** Scenarios of the notifications *)

(** A user session with [onTokenRefresh] and [onAuthError] registered. *)
Definition notified_client : client :=
  Client "https://api.welcomesign.com" (VStr "T1") (VStr "R1") VNull
         true true false None default_storageKey false None.

Definition login_notified : world :=
  Eval vm_compute in
    world_or (init notified_client browser)
             (run [Call (Login (VStr "owner@example.com") (VStr "secret-1"));
                   Deliver 0 new_pair]
                  (init notified_client browser)).

Definition login_stored : world :=
  Eval vm_compute in
    world_or login_notified (step (Resume 0) login_notified).

(** A client without refresh token whose one request was answered 401. *)
Definition rejected_once : world :=
  Eval vm_compute in
    world_or (init (client_with (VStr "T1") VNull VNull true false) browser)
             (run [Call (Request "/users/me" []); Deliver 0 unauthorized]
                  (init (client_with (VStr "T1") VNull VNull true false)
                        browser)).

(** ** Reading the storages *)

(** The items of the storage [ref], if the host has it. *)
Definition storage_of (ref : storage_ref) (h : host)
    : option (gmap string string) :=
  match ref with
  | LocalStorage => localStorage h
  | SessionStorage => sessionStorage h
  | AppStorage => Some (appStorage h)
  end.

(** [ref.getItem(k)]; [None] is [null]. *)
Definition getItem (ref : storage_ref) (k : string) (h : host)
    : option string :=
  match storage_of ref h with
  | Some items => items !! k
  | None => None
  end.

(** The keys lines 319-341 remove from [localStorage] and
    [sessionStorage]. *)
Definition cleared_keys (c : client) : list string :=
  storageKey_or_default (storageKey c) :: device_keys.

(** What [clearTokens] removes from the storage [ref]. *)
Definition is_cleared (c : client) (ref : storage_ref) (k : string) : Prop :=
  (storage c = Some ref /\ k = storageKey c)
  \/ (ref <> AppStorage /\ k ∈ cleared_keys c).

(** *** A device that holds a stored session *)

Definition stored_session : string :=
  "{" +:+ String (ascii_of_nat 34) "token" +:+ String (ascii_of_nat 34) ":null}".

Definition stored_host : host :=
  Host (Some (<["welcomesign_tokens" := stored_session]>
              (<["welcomesign_device_id" := "42"]>
               (<["theme" := "dark"]> ∅))))
       (Some ∅) ∅ true.

Definition stored_device_client : client :=
  Client "https://api.welcomesign.com" VNull VNull (VStr "D1") false true true
         (Some LocalStorage) default_storageKey false None.

(** ** Limits, lines 1293-1373 *)

(** A limit of the API is a count, [-1] for unlimited, or [null] for not
    applicable; [None] is [null].  Usage and limit are safe integers. *)
Definition isUnlimited (value : option Z) : bool :=
  match value with
  | Some n => (n =? -1)%Z
  | None => false
  end.

Definition isLimitNotApplicable (value : option Z) : bool :=
  match value with
  | None => true
  | Some _ => false
  end.

Definition isWithinLimit (usage : Z) (limit : option Z) : bool :=
  match limit with
  | None => false
  | Some l => if (l =? -1)%Z then true else (usage <? l)%Z
  end.

(** The double an integer result [n] is stored as: [n] itself up to 2^53 in
    absolute value; beyond, the nearest multiple of the spacing [2 ^ e] of
    the doubles around [n], a tie going to the even significand.  (No
    overflow: the results here are differences of safe integers.) *)
Definition to_double (n : Z) : Z :=
  if (Z.abs n <=? 2 ^ 53)%Z then n
  else
    let e := (Z.log2 (Z.abs n) - 52)%Z in
    let m := (Z.abs n / 2 ^ e)%Z in
    let r := (Z.abs n mod 2 ^ e)%Z in
    let half := (2 ^ (e - 1))%Z in
    let m' := if (r <? half)%Z then m
              else if (half <? r)%Z then (m + 1)%Z
              else if Z.even m then m else (m + 1)%Z in
    (Z.sgn n * (m' * 2 ^ e))%Z.

(** Line 1372: [Math.max(0, limit - usage)]; the subtraction is the
    floating-point one. *)
Definition getRemainingCapacity (usage : Z) (limit : option Z) : option Z :=
  match limit with
  | None => None
  | Some l =>
      if (l =? -1)%Z then Some (-1)%Z
      else Some (Z.max 0 (to_double (l - usage)))
  end.

(** ** How many requests a call sends *)

(** How many requests a task may have sent, by where it stands: the second
    one is the retry of line 97. *)
Definition sent_by (tk : task) (n : nat) : Prop :=
  match waiting tk with
  | WFetch _ o =>
      n = 1%nat
      \/ (n = 2%nat /\ js_truthy (obj_get "skipTokenRefresh" o) = true)
  | WRefresh _ _ _ => n = 1%nat
  | WSettled _ => n = 1%nat \/ n = 2%nat
  end.

Definition bounded (ts : list task) (tr : list event) : Prop :=
  forall t,
    match ts !! t with
    | Some tk => sent_by tk (length (fetches_of t tr))
    | None => fetches_of t tr = []
    end.

(** *** A refresh in flight when the application clears the tokens *)

Definition refresh_in_flight : world :=
  Eval vm_compute in
    world_or (init notified_client browser)
             (run [Call (Request "/users/me" []); Deliver 0 unauthorized]
                  (init notified_client browser)).

(** ** The heartbeat timer, lines 873-899 *)

      (* the arrow has returned *)




(** ** [createClient], lines 1384-1473 *)

(** [ref.setItem(k, v)] *)
Definition storage_setItem (ref : storage_ref) (k v : string) (h : host)
    : host :=
  match ref with
  | LocalStorage =>
      Host (<[k := v]> <$> localStorage h) (sessionStorage h) (appStorage h)
           (window_location h)
  | SessionStorage =>
      Host (localStorage h) (<[k := v]> <$> sessionStorage h) (appStorage h)
           (window_location h)
  | AppStorage =>
      Host (localStorage h) (sessionStorage h) (<[k := v]> (appStorage h))
           (window_location h)
  end.

(** Line 1385: [options.storage || (typeof localStorage !== 'undefined' ?
    localStorage : null)]. *)
Definition chosen_storage (options : client_options) (h : host)
    : option storage_ref :=
  match opt_storage options with
  | Some ref => Some ref
  | None =>
      match localStorage h with
      | Some _ => Some LocalStorage
      | None => None
      end
  end.

(** Lines 1389-1399: the saved tokens, [{}] when there is no storage, no
    item, an empty item, or an item [JSON.parse] rejects.  [JSON.parse] is
    the host's; it is a parameter here. *)
Definition saved_tokens (JSON_parse : string -> result value)
    (options : client_options) (h : host) : value :=
  match chosen_storage options h with
  | Some ref =>
      match getItem ref (storageKey_or_default (opt_storageKey options)) h with
      | Some saved =>
          if String.eqb saved EmptyString then VObj []
          else match JSON_parse saved with
               | Ok v => v
               | Throw _ => VObj []
               end
      | None => VObj []
      end
  | None => VObj []
  end.

(** Lines 1402-1426: the instance.  Its [onTokenRefresh] is the function of
    lines 1408-1422, so it is always registered; what that function and the
    methods replaced at lines 1435-1470 do is [created_onTokenRefresh] and
    the definitions after it. *)
Definition createClient (JSON_parse : string -> result value)
    (options : client_options) (h : host) : result client :=
  let saved := saved_tokens JSON_parse options h in
  let* tk := prop saved "token" in
  let* rt := prop saved "refreshToken" in
  let* dt := prop saved "deviceToken" in
  new_client (ClientOptions (opt_baseURL options) tk rt dt true
                            (opt_onAuthError options)
                            (opt_onDeviceSessionInvalid options)
                            (chosen_storage options h)
                            (storageKey_or_default (opt_storageKey options))).

(** The same options with other tokens. *)
Definition with_opt_tokens (tk rt dt : value) (options : client_options)
    : client_options :=
  ClientOptions (opt_baseURL options) tk rt dt (opt_onTokenRefresh options)
                (opt_onAuthError options) (opt_onDeviceSessionInvalid options)
                (opt_storage options) (opt_storageKey options).

(** There is nothing [createClient] can load. *)
Definition nothing_saved (JSON_parse : string -> result value)
    (options : client_options) (h : host) : Prop :=
  match chosen_storage options h with
  | Some ref =>
      match getItem ref (storageKey_or_default (opt_storageKey options)) h with
      | Some saved =>
          saved = EmptyString \/ exists e, JSON_parse saved = Throw e
      | None => True
      end
  | None => True
  end.

(** [if (storage) storage.setItem(storageKey, JSON.stringify(tokens))]; the
    [storage] and [storageKey] of [createClient] are those of the instance. *)
Definition save_tokens (tokens : obj) (w : world) : world :=
  match storage (cl w), json_text (VObj tokens) with
  | Some ref, Some text =>
      World (cl w) (storage_setItem ref (storageKey (cl w)) text (env w))
            (tasks w) (refreshes w) (trace w)
  | _, _ => w
  end.

(** Lines 1408-1422, up to the call of the application's own callback. *)
Definition created_onTokenRefresh (tokens : obj) (w : world) : world :=
  save_tokens tokens w.

(** Lines 1435-1449: what follows [await originalLogin(...)] and
    [await originalRegister(...)]. *)
Definition created_after_login (out : outcome) (w : world) : world :=
  match out with
  | Ok _ => save_tokens (getTokens (cl w)) w
  | Throw _ => w
  end.

(** Lines 1451-1456. *)
Definition created_setTokens (tk rt : value) (w : world) : world :=
  let w1 := call (SetTokens tk rt) w in
  save_tokens (getTokens (cl w1)) w1.

(** Lines 1458-1463. *)
Definition created_setDeviceToken (d : value) (w : world) : world :=
  let w1 := call (SetDeviceToken d) w in
  save_tokens (getTokens (cl w1)) w1.

(** [clearTokens], lines 304-346, on storages whose [removeItem] may throw:
    [broken ref] says that [removeItem] of the storage [ref] throws, and it
    then removes nothing.  Each group of calls is inside its own
    [try]/[catch] (lines 310-317, 320-330, 333-343), so a throw ends that
    group only. *)
Definition clearTokens_on (broken : storage_ref -> bool) (w : world) : world :=
  let c := set_deviceToken VNull (set_tokens VNull VNull (cl w)) in
  let h1 := match storage c with
            | Some ref =>
                if broken ref then env w
                else storage_removeItem ref (storageKey c) (env w)
            | None => env w
            end in
  let ks := storageKey_or_default (storageKey c) :: device_keys in
  let h2 := Host (if broken LocalStorage then localStorage h1
                  else remove_keys ks <$> localStorage h1)
                 (if broken SessionStorage then sessionStorage h1
                  else remove_keys ks <$> sessionStorage h1)
                 (appStorage h1) (window_location h1) in
  World c h2 (tasks w) (refreshes w) (trace w).

(** Lines 1465-1470: [originalClearTokens()], then
    [storage.removeItem(storageKey)] outside any [try].  The first component
    is what the function throws, [e] being what that [removeItem] throws;
    [None] when it returns. *)
Definition created_clearTokens (broken : storage_ref -> bool) (e : error)
    (w : world) : option error * world :=
  let w1 := clearTokens_on broken w in
  match storage (cl w1) with
  | Some ref =>
      if broken ref then (Some e, w1)
      else (None,
            World (cl w1)
                  (storage_removeItem ref (storageKey (cl w1)) (env w1))
                  (tasks w1) (refreshes w1) (trace w1))
  | None => (None, w1)
  end.

(** The host has the storage [ref]. *)
Definition has_storage (ref : storage_ref) (h : host) : Prop :=
  storage_of ref h <> None.

(** *** A client made by [createClient] on a paired device *)

Definition created_client : client :=
  Client "https://api.welcomesign.com" (VStr "T1") (VStr "R1") (VStr "D1")
         true false false (Some LocalStorage) default_storageKey false None.

(** Its refresh has been answered; the arrow of line 124 is about to go
    on. *)
Definition created_refresh_answered : world :=
  Eval vm_compute in
    world_or (init created_client browser)
             (run [Call (Request "/users/me" []); Deliver 0 unauthorized;
                   Deliver 1 new_pair]
                  (init created_client browser)).

(** * Properties *)

(** ** Projections of the segments *)

Section Projections.
Implicit Types (w : world) (c : client) (tk : task).

Lemma set_task_cl t tk w : cl (set_task t tk w) = cl w.
Proof. reflexivity. Qed.

Lemma start_request_cl og e o ks w : cl (start_request og e o ks w) = cl w.
Proof. reflexivity. Qed.

Lemma start_request_tasks og e o ks w :
  tasks (start_request og e o ks w) = tasks w ++ [Task og (WFetch e o) ks].
Proof. reflexivity. Qed.

Lemma call_refreshing op w :
  isRefreshing (cl (call op w)) = isRefreshing (cl w)
  /\ refreshPromise (cl (call op w)) = refreshPromise (cl w)
  /\ refreshes (call op w) = refreshes w.
Proof. destruct op; repeat split; reflexivity. Qed.

Lemma call_tasks op w :
  tasks (call op w) = tasks w
  \/ exists e o ks,
       tasks (call op w) = tasks w ++ [Task (ByCaller op) (WFetch e o) ks]
       /\ Forall (fun k => forall r, k <> FRefresh r) ks.
Proof.
  destruct op; simpl; try (left; reflexivity);
    right; do 3 eexists; (split; [reflexivity|]);
    repeat constructor; intros r; discriminate.
Qed.

Lemma store_tokens_refreshing out w out' w' :
  store_tokens out w = (out', w') ->
  isRefreshing (cl w') = isRefreshing (cl w)
  /\ refreshPromise (cl w') = refreshPromise (cl w)
  /\ tasks w' = tasks w /\ refreshes w' = refreshes w.
Proof.
  unfold store_tokens, adopt_tokens. intros H.
  destruct out as [data|e]; [|inversion H; subst; auto].
  destruct (prop data "token") as [tk|e]; simpl in H;
    [|inversion H; subst; auto].
  destruct (prop data "refresh_token") as [rt|e]; simpl in H;
    [|inversion H; subst; auto].
  destruct (prop data "expires_at") as [ex|e]; simpl in H;
    [|inversion H; subst; auto].
  destruct (onTokenRefresh (cl w)); inversion H; subst; auto.
Qed.

Lemma device_session_invalid_refreshing w :
  isRefreshing (cl (device_session_invalid w)) = isRefreshing (cl w)
  /\ refreshPromise (cl (device_session_invalid w)) = refreshPromise (cl w)
  /\ tasks (device_session_invalid w) = tasks w
  /\ refreshes (device_session_invalid w) = refreshes w.
Proof.
  unfold device_session_invalid. simpl.
  destruct (onDeviceSessionInvalid (cl w)); simpl; auto.
  destruct (window_location _); simpl; auto.
Qed.

(** A caller other than the refresh arrow leaves the coordinator alone. *)
Lemma run_frame_plain k out w out' w' :
  (forall r, k <> FRefresh r) ->
  run_frame k out w = (out', w') ->
  isRefreshing (cl w') = isRefreshing (cl w)
  /\ refreshPromise (cl w') = refreshPromise (cl w)
  /\ tasks w' = tasks w /\ refreshes w' = refreshes w.
Proof.
  intros Hk H. destruct k; simpl in H.
  - exfalso. eapply Hk. reflexivity.
  - eapply store_tokens_refreshing; eauto.
  - eapply store_tokens_refreshing; eauto.
  - destruct out; inversion H; subst; auto.
  - destruct out as [data|e]; [|inversion H; subst; auto].
    destruct (prop data "device_token") as [d|e];
      [|inversion H; subst; auto].
    inversion H; subst. destruct (js_truthy d); auto.
  - destruct out as [v|e]; inversion H; subst; auto.
    destruct (status_is_401 e); auto.
    apply device_session_invalid_refreshing.
Qed.

Lemma run_frame_refresh r out w out' w' :
  run_frame (FRefresh r) out w = (out', w') ->
  isRefreshing (cl w') = false
  /\ refreshPromise (cl w') = None
  /\ tasks w' = tasks w
  /\ refreshes w' = <[r := Some out']> (refreshes w).
Proof.
  simpl. destruct (store_tokens out w) as [o1 w1] eqn:E. intros H.
  inversion H; subst; clear H. simpl.
  apply store_tokens_refreshing in E as (_ & _ & -> & ->). auto.
Qed.
End Projections.

Section ListFacts.
Context {A : Type} (P : A -> Prop) `{forall x, Decision (P x)}.

Lemma filter_length_insert (l : list A) i x y :
  l !! i = Some x -> (P x <-> P y) ->
  length (filter P (<[i := y]> l)) = length (filter P l).
Proof.
  revert i. induction l as [|a l IH]; intros i Hi Hxy; [done|].
  destruct i as [|i]; simpl in *.
  - inversion Hi; subst. rewrite !filter_cons.
    destruct (decide (P y)), (decide (P x)); simpl; tauto.
  - rewrite !filter_cons. destruct (decide (P a)); simpl; rewrite IH; auto.
Qed.

Lemma filter_length_snoc (l : list A) x :
  length (filter P (l ++ [x]))
  = (length (filter P l) + (if decide (P x) then 1 else 0))%nat.
Proof.
  rewrite filter_app, length_app, filter_cons, filter_nil.
  destruct (decide (P x)); reflexivity.
Qed.

Lemma filter_length_unique (l : list A) :
  (forall i j x y, l !! i = Some x -> l !! j = Some y -> P x -> P y -> i = j) ->
  (length (filter P l) <= 1)%nat.
Proof.
  induction l as [|a l IH]; intros Hu; simpl; [lia|].
  rewrite filter_cons. destruct (decide (P a)) as [Ha|Ha]; simpl.
  - destruct (filter P l) as [|y rest] eqn:E; [simpl; lia|].
    assert (y ∈ filter P l) as Hy by (rewrite E; left).
    apply list_elem_of_filter in Hy as [Py Hy].
    apply list_elem_of_lookup in Hy as [j Hj].
    specialize (Hu 0%nat (S j) a y eq_refl Hj Ha Py). discriminate.
  - apply IH. intros i j x y Hi Hj Px Py.
    specialize (Hu (S i) (S j) x y Hi Hj Px Py). lia.
Qed.
End ListFacts.

Section Coordination.
Implicit Types (w : world) (tk : task).

Lemma bystander_not_refresher tk r : bystander tk -> refresher r tk -> False.
Proof.
  intros [Hp _] (_ & Hc & _). rewrite Hc in Hp.
  inversion Hp as [|? ? Hk _]; subst. exact (Hk r eq_refl).
Qed.

Lemma coordinated_init c h :
  isRefreshing c = false -> refreshPromise c = None ->
  coordinated (init c h).
Proof.
  intros Hi Hp. split; simpl.
  - intros i tk Hl. rewrite lookup_nil in Hl. discriminate.
  - intros i j tki tkj ri rj Hl. rewrite lookup_nil in Hl. discriminate.
  - rewrite Hi. discriminate.
  - auto.
  - intros r Hl. rewrite lookup_nil in Hl. discriminate.
  - reflexivity.
Qed.

(** One task changes in place and keeps its role. *)
Lemma coordinated_update w w' t tk tk' :
  coordinated w ->
  tasks w !! t = Some tk ->
  tasks w' = <[t := tk']> (tasks w) ->
  isRefreshing (cl w') = isRefreshing (cl w) ->
  refreshPromise (cl w') = refreshPromise (cl w) ->
  refreshes w' = refreshes w ->
  origin_of tk' = origin_of tk ->
  (bystander tk -> bystander tk') ->
  (forall r, refresher r tk -> refresher r tk') ->
  (forall r, callers tk' = [FRefresh r] -> callers tk = [FRefresh r]) ->
  coordinated w'.
Proof.
  intros Hco Ht Hts Hi Hp Hr Ho Hb Hrf Hcs.
  assert (Hlt : (t < length (tasks w))%nat) by (eapply lookup_lt_Some; eauto).
  assert (Hold : forall r, refresher r tk' -> exists r0, refresher r0 tk).
  { intros r (_ & Hc & _). apply Hcs in Hc.
    destruct (co_tasks w Hco t tk Ht) as [[Hpl _]|(r0 & H0 & _)]; eauto.
    rewrite Hc in Hpl. inversion Hpl as [|? ? Hk _]; subst.
    destruct (Hk r eq_refl). }
  split.
  - intros i tk0. rewrite Hts, Hi, Hp.
    intros [(<- & <- & _)|(Hne & Hl)]%list_lookup_insert_Some.
    + destruct (co_tasks w Hco t tk Ht) as [?|(r & ? & ?)]; eauto.
    + eapply co_tasks; eauto.
  - intros i j tki tkj ri rj. rewrite Hts.
    intros [(Hi' & <- & _)|(Hni & Hli)]%list_lookup_insert_Some
           [(Hj' & <- & _)|(Hnj & Hlj)]%list_lookup_insert_Some Ri Rj;
      subst; auto.
    + destruct (Hold _ Ri) as [r0 R0]. eapply co_unique; eauto.
    + destruct (Hold _ Rj) as [r0 R0]. eapply co_unique; eauto.
    + eapply co_unique; eauto.
  - rewrite Hi, Hp, Hr, Hts. intros Hb'.
    destruct (co_busy w Hco Hb') as (r & i & tk0 & Hp0 & Hr0 & Hl0 & R0).
    destruct (decide (i = t)) as [->|Hne].
    + rewrite Ht in Hl0. inversion Hl0; subst.
      exists r, t, tk'. rewrite list_lookup_insert_eq by done. auto.
    + exists r, i, tk0. rewrite list_lookup_insert_ne by done. auto.
  - rewrite Hi, Hp. apply co_idle; auto.
  - rewrite Hi, Hp, Hr. apply co_pending; auto.
  - unfold refresh_calls. rewrite Hts, Hr.
    rewrite (filter_length_insert _ _ t tk tk'); [apply co_count; auto|auto|].
    unfold is_refresh_task. rewrite Ho. tauto.
Qed.

(** A call of the application adds a task no refresh arrow waits for. *)
Lemma coordinated_call op w : coordinated w -> coordinated (call op w).
Proof.
  intros Hco.
  destruct (call_refreshing op w) as (Hi & Hp & Hr).
  destruct (call_tasks op w) as [Hts|(e & o & ks & Hts & Hks)].
  - split; rewrite ?Hi, ?Hp, ?Hr; unfold refresh_calls; rewrite ?Hts;
      apply Hco.
  - assert (Hnew : bystander (Task (ByCaller op) (WFetch e o) ks)).
    { split; simpl; [exact Hks|discriminate]. }
    split; rewrite ?Hi, ?Hp, ?Hr.
    + intros i tk. rewrite Hts.
      intros [[_ Hl]|[_ <-]]%lookup_snoc_Some; [eapply co_tasks; eauto|auto].
    + intros i j tki tkj ri rj. rewrite Hts.
      intros [[_ Hli]|[-> <-]]%lookup_snoc_Some
             [[_ Hlj]|[-> <-]]%lookup_snoc_Some Ri Rj; auto.
      * eapply co_unique; eauto.
      * destruct (bystander_not_refresher _ _ Hnew Rj).
      * destruct (bystander_not_refresher _ _ Hnew Ri).
    + intros Hb. destruct (co_busy w Hco Hb) as (r & i & tk & ? & ? & Hl & ?).
      exists r, i, tk. rewrite Hts. split_and!; auto.
      apply lookup_app_l_Some; auto.
    + apply co_idle; auto.
    + apply co_pending; auto.
    + unfold refresh_calls. rewrite Hts, filter_length_snoc. simpl.
      rewrite <- (co_count w Hco). unfold refresh_calls.
      lia.
Qed.
End Coordination.

Section RefreshSteps.
Implicit Types (w : world) (tk : task).

Lemma refreshAccessToken_busy w :
  isRefreshing (cl w) = true ->
  refreshAccessToken w = (refreshPromise (cl w), w).
Proof. unfold refreshAccessToken. intros ->. reflexivity. Qed.

Lemma refreshAccessToken_idle w :
  isRefreshing (cl w) = false ->
  exists w1,
    refreshAccessToken w = (Some (length (refreshes w)), w1)
    /\ tasks w1 = tasks w ++ [refresh_task w]
    /\ refreshes w1 = refreshes w ++ [None]
    /\ isRefreshing (cl w1) = true
    /\ refreshPromise (cl w1) = Some (length (refreshes w))
    /\ token (cl w1) = token (cl w)
    /\ refreshToken (cl w1) = refreshToken (cl w)
    /\ deviceToken (cl w1) = deviceToken (cl w)
    /\ env w1 = env w
    /\ trace w1
       = trace w ++ [fetch_event (length (tasks w)) "/auth/refresh"
                                 (refresh_options (cl w)) w].
Proof.
  unfold refreshAccessToken. intros ->. eexists. split; [reflexivity|].
  simpl. split_and!; reflexivity.
Qed.

Lemma refresh_task_refresher w :
  refresher (length (refreshes w)) (refresh_task w).
Proof. split_and!; reflexivity. Qed.

(** Starting a refresh from the idle state. *)
Lemma coordinated_start w w1 :
  coordinated w ->
  isRefreshing (cl w) = false ->
  tasks w1 = tasks w ++ [refresh_task w] ->
  refreshes w1 = refreshes w ++ [None] ->
  isRefreshing (cl w1) = true ->
  refreshPromise (cl w1) = Some (length (refreshes w)) ->
  coordinated w1.
Proof.
  intros Hco Hidle Hts Hrs Hi Hp.
  assert (Hold : forall i tk, tasks w !! i = Some tk -> bystander tk).
  { intros i tk Hl. destruct (co_tasks w Hco i tk Hl) as [?|(r & _ & Hb & _)];
      [done|congruence]. }
  pose proof (refresh_task_refresher w) as Hnew.
  split.
  - intros i tk. rewrite Hts.
    intros [[_ Hl]|[_ <-]]%lookup_snoc_Some; [left; eauto|].
    right. eauto.
  - intros i j tki tkj ri rj. rewrite Hts.
    intros [[_ Hli]|[-> <-]]%lookup_snoc_Some
           [[_ Hlj]|[-> <-]]%lookup_snoc_Some Ri Rj; auto.
    + destruct (bystander_not_refresher _ _ (Hold _ _ Hli) Ri).
    + destruct (bystander_not_refresher _ _ (Hold _ _ Hli) Ri).
    + destruct (bystander_not_refresher _ _ (Hold _ _ Hlj) Rj).
  - intros _. exists (length (refreshes w)), (length (tasks w)), (refresh_task w).
    rewrite Hts, Hrs. split_and!; auto.
    + rewrite lookup_app_r, Nat.sub_diag by lia. reflexivity.
    + rewrite lookup_app_r, Nat.sub_diag by lia. reflexivity.
  - rewrite Hi. discriminate.
  - intros r. rewrite Hrs.
    intros [[_ Hl]|[-> _]]%lookup_snoc_Some; [|auto].
    apply (co_pending w Hco) in Hl as [Hb _]. congruence.
  - unfold refresh_calls. rewrite Hts, Hrs, filter_length_snoc, length_app.
    simpl. rewrite <- (co_count w Hco). reflexivity.
Qed.

(** The refresh arrow finishes: flags reset, its promise settled. *)
Lemma coordinated_finish w w' t og out out' r ks :
  coordinated w ->
  tasks w !! t = Some (Task og (WSettled out) (FRefresh r :: ks)) ->
  tasks w' = <[t := Task og (WSettled out') ks]> (tasks w) ->
  refreshes w' = <[r := Some out']> (refreshes w) ->
  isRefreshing (cl w') = false ->
  refreshPromise (cl w') = None ->
  coordinated w'
  /\ ks = []
  /\ refreshPromise (cl w) = Some r
  /\ refreshes w !! r = Some None.
Proof.
  intros Hco Ht Hts Hrs Hi Hp.
  destruct (co_tasks w Hco t _ Ht) as [[Hpl _]|(r0 & R0 & Hb & Hp0)].
  { simpl in Hpl. inversion Hpl as [|? ? Hk _]; subst.
    destruct (Hk r eq_refl). }
  pose proof R0 as (Ho & Hc & _). simpl in Ho, Hc.
  inversion Hc; subst r0 ks; clear Hc.
  destruct (co_busy w Hco Hb) as (r1 & i1 & tk1 & Hp1 & Hr1 & _).
  assert (r1 = r) as -> by congruence.
  assert (Hothers : forall i tk, i <> t -> tasks w !! i = Some tk ->
                                 bystander tk).
  { intros i tk Hne Hl.
    destruct (co_tasks w Hco i tk Hl) as [?|(r2 & R2 & _)]; [done|].
    destruct Hne. eapply co_unique; eauto. }
  assert (Hdone : bystander (Task og (WSettled out') [])).
  { split; simpl; [constructor|eauto]. }
  split_and!; auto. split.
  - intros i tk. rewrite Hts.
    intros [(<- & <- & _)|(Hne & Hl)]%list_lookup_insert_Some; eauto.
  - intros i j tki tkj ri rj. rewrite Hts. intros Hli Hlj Ri Rj. exfalso.
    apply list_lookup_insert_Some in Hli as [(_ & <- & _)|(Hne & Hl)].
    + exact (bystander_not_refresher _ _ Hdone Ri).
    + assert (i <> t) as Hne' by congruence.
      exact (bystander_not_refresher _ _ (Hothers _ _ Hne' Hl) Ri).
  - rewrite Hi. discriminate.
  - auto.
  - intros r'. rewrite Hrs.
    intros [(_ & [=] & _)|(Hne & Hl)]%list_lookup_insert_Some.
    apply (co_pending w Hco) in Hl as [_ Hp']. congruence.
  - unfold refresh_calls. rewrite Hts, Hrs, length_insert.
    rewrite (filter_length_insert _ _ t _ _ Ht); [apply co_count; auto|].
    unfold is_refresh_task. simpl. tauto.
Qed.
End RefreshSteps.

Section Preservation.
Implicit Types (w : world) (tk : task).

Lemma request_try_MustRefresh c o r :
  request_try c o r = MustRefresh ->
  (exists data, r = Response 401 data)
  /\ js_truthy (refreshToken c) = true
  /\ js_truthy (obj_get "skipTokenRefresh" o) = false.
Proof.
  unfold request_try. destruct r as [|status data]; [discriminate|].
  destruct (status_ok status).
  { destruct (prop data "data"); discriminate. }
  destruct (Z.eqb_spec status 401) as [->|]; simpl.
  2:{ destruct (error_message data); discriminate. }
  destruct (js_truthy (refreshToken c)); simpl.
  2:{ destruct (error_message data); discriminate. }
  destruct (js_truthy (obj_get "skipTokenRefresh" o)); simpl.
  { destruct (error_message data); discriminate. }
  eauto.
Qed.

Lemma plain_dec k : plain k \/ exists r, k = FRefresh r.
Proof. destruct k; eauto; left; intros r; discriminate. Qed.

Lemma step_coordinated l w w' :
  coordinated w -> step l w = Some w' -> coordinated w'.
Proof.
  intros Hco Hs. destruct l as [op|t r|t]; simpl in Hs.
  - inversion Hs; subst. apply coordinated_call; auto.
  - destruct (tasks w !! t) as [[og [e o|p e o|out] ks]|] eqn:Ht;
      try discriminate.
    inversion Hs; subst w'; clear Hs. unfold deliver.
    destruct (request_try (cl w) o r) eqn:Htry.
    + eapply (coordinated_update w _ t); eauto; simpl; auto.
      * intros [Hpl _]. split; simpl; eauto.
      * intros r0 (? & ? & _). split_and!; simpl; auto.
    + eapply (coordinated_update w _ t); eauto; simpl; auto.
      * intros [Hpl _]. split; simpl; eauto.
      * intros r0 (? & ? & _). split_and!; simpl; auto.
    + apply request_try_MustRefresh in Htry as (_ & _ & Hskip).
      assert (Hb : bystander (Task og (WFetch e o) ks) ->
                   forall q, bystander (Task og (WRefresh q e o) ks)).
      { intros [Hpl Hw] q. split; simpl; auto. intros Ho.
        destruct (Hw Ho) as [? [=]]. }
      assert (Hr : forall r0 q, refresher r0 (Task og (WFetch e o) ks) ->
                                refresher r0 (Task og (WRefresh q e o) ks)).
      { intros r0 q (_ & _ & Hsk). simpl in Hsk. congruence. }
      destruct (isRefreshing (cl w)) eqn:Hbusy.
      * rewrite refreshAccessToken_busy by done.
        eapply (coordinated_update w _ t); eauto; simpl; auto.
      * destruct (refreshAccessToken_idle w Hbusy)
          as (w1 & -> & Hts & Hrs & Hi & Hp & _).
        assert (coordinated w1) as Hco1 by (eapply coordinated_start; eauto).
        eapply (coordinated_update w1 _ t (Task og (WFetch e o) ks));
          eauto; simpl; auto.
        rewrite Hts. apply lookup_app_l_Some. eauto.
  - destruct (tasks w !! t) as [[og [e o|p e o|out] ks]|] eqn:Ht;
      try discriminate.
    + destruct (awaited p w) as [out|]; [|discriminate].
      inversion Hs; subst w'; clear Hs. unfold after_refresh.
      assert (Hb : forall wt, bystander (Task og (WRefresh p e o) ks) ->
                              bystander (Task og wt ks)).
      { intros wt [Hpl Hw]. split; simpl; auto. intros Ho.
        destruct (Hw Ho) as [? [=]]. }
      destruct out as [v|err];
        (eapply (coordinated_update w _ t); eauto; simpl; auto;
         intros r0 (_ & _ & []); fail).
    + destruct ks as [|k ks]; [discriminate|].
      destruct (run_frame k out w) as [out' w1] eqn:Hrun.
      inversion Hs; subst w'; clear Hs.
      destruct (plain_dec k) as [Hk|[r ->]].
      * pose proof (run_frame_plain _ _ _ _ _ Hk Hrun) as (Hi & Hp & Hts & Hrs).
        destruct (co_tasks w Hco t _ Ht) as [[Hpl Hw]|(r0 & (_ & Hc & _) & _)].
        2:{ simpl in Hc. inversion Hc; subst. destruct (Hk r0 eq_refl). }
        simpl in Hpl. inversion Hpl as [|? ? _ Hks]; subst.
        eapply (coordinated_update w _ t (Task og (WSettled out) (k :: ks))
                                   (Task og (WSettled out') ks));
          eauto; simpl; auto.
        -- rewrite Hts. reflexivity.
        -- intros _. split; simpl; eauto.
        -- intros r0 (_ & Hc & _). simpl in Hc. inversion Hc; subst.
           destruct (Hk r0 eq_refl).
        -- intros r0 ->. inversion Hks as [|? ? Hk0 _]; subst.
           destruct (Hk0 r0 eq_refl).
      * pose proof (run_frame_refresh _ _ _ _ _ Hrun) as (Hi & Hp & Hts & Hrs).
        eapply (coordinated_finish w _ t); eauto; simpl; auto.
        rewrite Hts. reflexivity.
Qed.

Lemma reachable_coordinated w0 w :
  coordinated w0 -> reachable w0 w -> coordinated w.
Proof.
  intros H0 Hr. induction Hr; eauto using step_coordinated.
Qed.

Lemma run_reachable ls w0 w w' :
  reachable w0 w -> run ls w = Some w' -> reachable w0 w'.
Proof.
  revert w. induction ls as [|l ls IH]; intros w Hr Hrun; simpl in Hrun.
  - inversion Hrun; subst; auto.
  - destruct (step l w) as [w1|] eqn:Hs; [|discriminate].
    eapply IH; [|eauto]. econstructor; eauto.
Qed.
End Preservation.

(** ** Objects *)

Section Objects.
Implicit Types (o : obj) (k : string) (v : value).

Lemma obj_get_set_eq k v o : obj_get k (obj_set k v o) = v.
Proof.
  induction o as [|[k' v'] o IH]; simpl.
  - rewrite String.eqb_refl. reflexivity.
  - destruct (String.eqb k k') eqn:E; simpl.
    + rewrite String.eqb_refl. reflexivity.
    + rewrite E. exact IH.
Qed.

Lemma obj_get_set_ne k k' v o :
  k <> k' -> obj_get k' (obj_set k v o) = obj_get k' o.
Proof.
  intros Hne. induction o as [|[k0 v0] o IH]; simpl.
  - destruct (String.eqb_spec k' k); [congruence|reflexivity].
  - destruct (String.eqb_spec k k0) as [->|Hk]; simpl.
    + destruct (String.eqb_spec k' k0); [congruence|reflexivity].
    + destruct (String.eqb_spec k' k0); [reflexivity|exact IH].
Qed.

Lemma obj_has_get k o : obj_has k o = false -> obj_get k o = VUndefined.
Proof.
  induction o as [|[k' v'] o IH]; simpl; [reflexivity|].
  destruct (String.eqb k k'); simpl; [discriminate|exact IH].
Qed.

Lemma obj_has_set k k' v o :
  obj_has k' (obj_set k v o) = String.eqb k' k || obj_has k' o.
Proof.
  induction o as [|[k0 v0] o IH]; simpl.
  - reflexivity.
  - destruct (String.eqb_spec k k0) as [->|Hk]; simpl.
    + destruct (String.eqb k' k0); reflexivity.
    + rewrite IH. destruct (String.eqb k' k0), (String.eqb k' k); reflexivity.
Qed.

(** A spread keeps what the target has under a key the source lacks. *)
Lemma obj_get_assign_absent k target source :
  obj_has k source = false ->
  obj_get k (obj_assign target source) = obj_get k target.
Proof.
  unfold obj_assign. revert target.
  induction source as [|[k' v'] source IH]; intros target Hk; simpl in *.
  - reflexivity.
  - apply orb_false_iff in Hk as [Hk Hs]. rewrite IH by exact Hs.
    apply obj_get_set_ne. intros ->. rewrite String.eqb_refl in Hk.
    discriminate.
Qed.

Lemma obj_has_assign k target source :
  obj_has k (obj_assign target source) = obj_has k target || obj_has k source.
Proof.
  unfold obj_assign. revert target.
  induction source as [|[k' v'] source IH]; intros target; simpl.
  - rewrite orb_false_r. reflexivity.
  - rewrite IH, obj_has_set.
    destruct (String.eqb k k'), (obj_has k target); reflexivity.
Qed.

(** A spread takes from the source what the source has. *)
Lemma obj_get_assign_present k target source :
  NoDup (map fst source) ->
  obj_has k source = true ->
  obj_get k (obj_assign target source) = obj_get k source.
Proof.
  unfold obj_assign. revert target.
  induction source as [|[k' v'] source IH]; intros target Hnd Hk;
    simpl in *; [discriminate|].
  inversion Hnd as [|? ? Hnotin Hnd']; subst.
  destruct (String.eqb_spec k k') as [->|Hne]; simpl in *.
  - assert (obj_has k' source = false) as Hno.
    { destruct (obj_has k' source) eqn:E; [|reflexivity]. exfalso.
      apply Hnotin. clear -E. induction source as [|[k0 v0] s IHs];
        simpl in *; [discriminate|].
      destruct (String.eqb_spec k' k0) as [->|]; [left|right; auto]. }
    fold (obj_assign (obj_set k' v' target) source).
    rewrite obj_get_assign_absent by exact Hno. apply obj_get_set_eq.
  - apply IH; auto.
Qed.
End Objects.

(** ** The dispatcher on a 401 *)

Section On401.
Implicit Types (w : world) (c : client) (o : obj).

Lemma request_try_401_refresh c o data :
  js_truthy (refreshToken c) = true ->
  js_truthy (obj_get "skipTokenRefresh" o) = false ->
  request_try c o (Response 401 data) = MustRefresh.
Proof. unfold request_try. simpl. intros -> ->. reflexivity. Qed.


Lemma request_try_never_refresh_when_skipping c o r :
  js_truthy (obj_get "skipTokenRefresh" o) = true ->
  request_try c o r <> MustRefresh.
Proof.
  intros Hs Hm. apply request_try_MustRefresh in Hm as (_ & _ & Hm).
  congruence.
Qed.

(** The options of the retry are marked. *)
Lemma retry_options_skip o :
  js_truthy (obj_get "skipTokenRefresh" (retry_options o)) = true.
Proof.
  unfold retry_options, obj_assign. cbn [fold_left fst snd].
  rewrite obj_get_set_eq. reflexivity.
Qed.

(** ... and are the caller's options otherwise. *)
Lemma retry_options_other k o :
  k <> "skipTokenRefresh" ->
  obj_get k (retry_options o) = obj_get k o
  /\ obj_has k (retry_options o) = obj_has k o.
Proof.
  intros Hne. unfold retry_options, obj_assign. cbn [fold_left fst snd].
  split.
  - apply obj_get_set_ne. congruence.
  - rewrite obj_has_set. destruct (String.eqb_spec k "skipTokenRefresh");
      [congruence|reflexivity].
Qed.

Lemma step_deliver w t og e o ks r :
  tasks w !! t = Some (Task og (WFetch e o) ks) ->
  step (Deliver t r) w = Some (deliver t og e o ks r w).
Proof. simpl. intros ->. reflexivity. Qed.

Lemma step_resume_frame w t og out k ks :
  tasks w !! t = Some (Task og (WSettled out) (k :: ks)) ->
  step (Resume t) w
  = Some (set_task t (Task og (WSettled (fst (run_frame k out w))) ks)
                   (snd (run_frame k out w))).
Proof.
  simpl. intros ->. destruct (run_frame k out w). reflexivity.
Qed.

Lemma step_resume_waiter w t og p e o ks :
  tasks w !! t = Some (Task og (WRefresh p e o) ks) ->
  step (Resume t) w
  = match awaited p w with
    | Some out => Some (after_refresh t og e o ks out w)
    | None => None
    end.
Proof. simpl. intros ->. reflexivity. Qed.
End On401.

(** ** Refresh promises settle once *)

Section Promises.
Implicit Types (w : world).

Lemma step_refreshes l w w' r x :
  coordinated w -> step l w = Some w' ->
  refreshes w !! r = Some x ->
  refreshes w' !! r = Some x
  \/ (x = None /\ exists out, refreshes w' !! r = Some (Some out)).
Proof.
  intros Hco Hs Hr. destruct l as [op|t rs|t]; simpl in Hs.
  - inversion Hs; subst.
    destruct (call_refreshing op w) as (_ & _ & ->). auto.
  - destruct (tasks w !! t) as [[og [e o|p e o|out] ks]|] eqn:Ht;
      try discriminate.
    inversion Hs; subst w'; clear Hs. unfold deliver.
    destruct (request_try (cl w) o rs); simpl; auto.
    destruct (isRefreshing (cl w)) eqn:Hb.
    + rewrite refreshAccessToken_busy by done. simpl. auto.
    + destruct (refreshAccessToken_idle w Hb) as (w1 & -> & _ & Hrs & _).
      simpl. rewrite Hrs. left. apply lookup_app_l_Some. auto.
  - destruct (tasks w !! t) as [[og [e o|p e o|out] ks]|] eqn:Ht;
      try discriminate.
    + destruct (awaited p w) as [out|]; [|discriminate].
      inversion Hs; subst w'. destruct out; simpl; auto.
    + destruct ks as [|k ks]; [discriminate|].
      destruct (run_frame k out w) as [out' w1] eqn:Hrun.
      inversion Hs; subst w'; clear Hs. simpl.
      destruct (plain_dec k) as [Hk|[r0 ->]].
      * apply run_frame_plain in Hrun as (_ & _ & _ & ->); auto.
      * pose proof (run_frame_refresh _ _ _ _ _ Hrun) as (Hi & Hp & Hts & Hrs).
        destruct (coordinated_finish w (set_task t (Task og (WSettled out') ks) w1)
                    t og out out' r0 ks Hco Ht)
          as (_ & _ & _ & Hpend); simpl; auto.
        { rewrite Hts. reflexivity. }
        rewrite Hrs. destruct (decide (r0 = r)) as [->|Hne].
        -- right. rewrite Hr in Hpend. inversion Hpend; subst. split; auto.
           exists out'. apply list_lookup_insert_eq.
           eapply lookup_lt_Some; eauto.
        -- left. rewrite list_lookup_insert_ne by done. auto.
Qed.

Lemma step_outcome_final l w w' r out :
  coordinated w -> step l w = Some w' ->
  refreshes w !! r = Some (Some out) ->
  refreshes w' !! r = Some (Some out).
Proof.
  intros Hco Hs Hr.
  destruct (step_refreshes _ _ _ _ _ Hco Hs Hr) as [?|[[=] _]]; auto.
Qed.

Lemma run_outcome_final ls w w' r out :
  coordinated w -> run ls w = Some w' ->
  refreshes w !! r = Some (Some out) ->
  refreshes w' !! r = Some (Some out).
Proof.
  revert w. induction ls as [|l ls IH]; intros w Hco Hrun Hr; simpl in Hrun.
  - inversion Hrun; subst; auto.
  - destruct (step l w) as [w1|] eqn:Hs; [|discriminate].
    apply (IH w1); [eapply step_coordinated; eauto|exact Hrun|].
    eapply step_outcome_final; eauto.
Qed.

(** While a refresh is in progress no segment adds a refresh promise. *)
Lemma step_busy_refreshes l w w' :
  isRefreshing (cl w) = true -> step l w = Some w' ->
  length (refreshes w') = length (refreshes w).
Proof.
  intros Hb Hs. destruct l as [op|t rs|t]; simpl in Hs.
  - inversion Hs; subst.
    destruct (call_refreshing op w) as (_ & _ & ->). auto.
  - destruct (tasks w !! t) as [[og [e o|p e o|out] ks]|] eqn:Ht;
      try discriminate.
    inversion Hs; subst w'; clear Hs. unfold deliver.
    destruct (request_try (cl w) o rs); simpl; auto.
    rewrite refreshAccessToken_busy by done. reflexivity.
  - destruct (tasks w !! t) as [[og [e o|p e o|out] ks]|] eqn:Ht;
      try discriminate.
    + destruct (awaited p w) as [out|]; [|discriminate].
      inversion Hs; subst w'. destruct out; simpl; auto.
    + destruct ks as [|k ks]; [discriminate|].
      destruct (run_frame k out w) as [out' w1] eqn:Hrun.
      inversion Hs; subst w'; clear Hs. simpl.
      destruct (plain_dec k) as [Hk|[r0 ->]].
      * apply run_frame_plain in Hrun as (_ & _ & _ & ->); auto.
      * apply run_frame_refresh in Hrun as (_ & _ & _ & ->).
        apply length_insert.
Qed.

(** From the start of a refresh until its promise settles, no further
    refresh call goes out. *)
Lemma run_pending_calls ls w w' r :
  coordinated w -> run ls w = Some w' ->
  refreshes w !! r = Some None -> refreshes w' !! r = Some None ->
  refresh_calls w' = refresh_calls w.
Proof.
  revert w. induction ls as [|l ls IH]; intros w Hco Hrun Hr Hr';
    simpl in Hrun.
  - inversion Hrun; subst; auto.
  - destruct (step l w) as [w1|] eqn:Hs; [|discriminate].
    pose proof (step_coordinated _ _ _ Hco Hs) as Hco1.
    destruct (step_refreshes _ _ _ _ _ Hco Hs Hr) as [H1|(_ & out & H1)].
    + rewrite (IH w1 Hco1 Hrun H1 Hr').
      rewrite (co_count _ Hco1), (co_count _ Hco).
      apply (co_pending _ Hco) in Hr as [Hb _].
      eapply step_busy_refreshes; eauto.
    + pose proof (run_outcome_final _ _ _ _ _ Hco1 Hrun H1). congruence.
Qed.
End Promises.

Section SingleFlight.
Implicit Types (w : world).

Lemma in_flight_is_refresher w i tk :
  coordinated w -> tasks w !! i = Some tk ->
  is_refresh_task tk && is_in_flight tk = true ->
  exists r, refresher r tk.
Proof.
  intros Hco Hl [Ho Hf]%andb_prop.
  destruct (co_tasks w Hco i tk Hl) as [[_ Hw]|(r & ? & _)]; eauto.
  destruct (Hw Ho) as [out Hout]. unfold is_in_flight in Hf.
  rewrite Hout in Hf. discriminate.
Qed.

Lemma at_most_one_in_flight w :
  coordinated w -> (refresh_calls_in_flight w <= 1)%nat.
Proof.
  intros Hco. unfold refresh_calls_in_flight.
  apply filter_length_unique. intros i j x y Hi Hj Px Py.
  destruct (in_flight_is_refresher w i x Hco Hi Px) as [ri Ri].
  destruct (in_flight_is_refresher w j y Hco Hj Py) as [rj Rj].
  eapply co_unique; eauto.
Qed.

Lemma idle_none_in_flight w :
  coordinated w -> isRefreshing (cl w) = false ->
  refresh_calls_in_flight w = 0%nat.
Proof.
  intros Hco Hidle. unfold refresh_calls_in_flight.
  destruct (filter _ (tasks w)) as [|x rest] eqn:E; [reflexivity|].
  assert (x ∈ filter (fun tk => is_refresh_task tk && is_in_flight tk = true)
                     (tasks w)) as Hx by (rewrite E; left).
  apply list_elem_of_filter in Hx as [Px Hx].
  apply list_elem_of_lookup in Hx as [i Hi].
  destruct (in_flight_is_refresher w i x Hco Hi Px) as [r R].
  destruct (co_tasks w Hco i x Hi) as [Hb|(r' & _ & Hbusy & _)].
  - destruct (bystander_not_refresher _ _ Hb R).
  - congruence.
Qed.

Lemma coordinated_joins w : coordinated w -> joins_pending_refresh w.
Proof.
  intros Hco t og e o ks data Ht Hrt Hskip Hb.
  destruct (co_busy w Hco Hb) as (r & _ & _ & Hp & Hr & _).
  exists r. split_and!; auto.
  rewrite (step_deliver _ _ _ _ _ _ _ Ht). unfold deliver.
  rewrite request_try_401_refresh by done.
  rewrite refreshAccessToken_busy by done. rewrite Hp. reflexivity.
Qed.

Lemma coordinated_starts w : coordinated w -> starts_one_refresh w.
Proof.
  intros Hco t og e o ks data Ht Hrt Hskip Hidle.
  destruct (refreshAccessToken_idle w Hidle)
    as (w1 & Hra & Hts & Hrs & Hi & Hp & _ & _ & _ & _ & Htr).
  assert (Hlt : (t < length (tasks w))%nat) by (eapply lookup_lt_Some; eauto).
  assert (Ht1 : tasks w1 !! t = Some (Task og (WFetch e o) ks)).
  { rewrite Hts. apply lookup_app_l_Some. auto. }
  eexists. split.
  { rewrite (step_deliver _ _ _ _ _ _ _ Ht). unfold deliver.
    rewrite request_try_401_refresh by done. rewrite Hra. reflexivity. }
  simpl. split_and!; auto.
  - unfold refresh_calls. simpl.
    rewrite (filter_length_insert _ _ t _ _ Ht1) by (simpl; tauto).
    rewrite Hts, filter_length_snoc. simpl. lia.
  - unfold refresh_calls_in_flight. simpl.
    rewrite (filter_length_insert _ _ t _ _ Ht1).
    + rewrite Hts, filter_length_snoc. simpl.
      pose proof (idle_none_in_flight w Hco Hidle) as H0.
      unfold refresh_calls_in_flight in H0. rewrite H0. reflexivity.
    + unfold is_refresh_task, is_in_flight. simpl.
      destruct (co_tasks w Hco t _ Ht) as [[_ Hw]|(r & _ & Hbusy & _)];
        [|congruence].
      unfold is_refresh_task in Hw. simpl in Hw.
      destruct og; simpl; [split; intros [=]|].
      destruct (Hw eq_refl) as [? [=]].
  - rewrite Hrs, lookup_app_r, Nat.sub_diag by lia. reflexivity.
  - apply list_lookup_insert_eq. rewrite Hts, length_app. simpl. lia.
  - rewrite list_lookup_insert_ne by lia.
    rewrite Hts, lookup_app_r, Nat.sub_diag by lia. reflexivity.
Qed.

Lemma coordinated_shares w : coordinated w -> waiters_share_outcome w.
Proof.
  intros Hco t og r e o ks Ht.
  assert (Hlt : (t < length (tasks w))%nat) by (eapply lookup_lt_Some; eauto).
  rewrite (step_resume_waiter _ _ _ _ _ _ _ Ht). unfold awaited.
  split_and!.
  - intros ->. reflexivity.
  - intros data ->. eexists. split; [reflexivity|]. simpl.
    apply list_lookup_insert_eq. auto.
  - intros err ->. eexists. split; [reflexivity|]. simpl.
    apply list_lookup_insert_eq. auto.
Qed.

Lemma coordinated_resets w : coordinated w -> completion_resets w.
Proof.
  intros Hco t og out r ks Ht.
  destruct (run_frame (FRefresh r) out w) as [out' w1] eqn:Hrun.
  pose proof (run_frame_refresh _ _ _ _ _ Hrun) as (Hi & Hp & Hts & Hrs).
  destruct (coordinated_finish w (set_task t (Task og (WSettled out') ks) w1)
              t og out out' r ks Hco Ht)
    as (_ & _ & Hpr & Hpend);
    [simpl; rewrite Hts; reflexivity|exact Hrs|exact Hi|exact Hp|].
  exists (set_task t (Task og (WSettled out') ks) w1), out'.
  split; [rewrite (step_resume_frame _ _ _ _ _ _ Ht), Hrun; reflexivity|].
  split_and!; simpl; auto.
  - apply (co_pending w Hco r Hpend).
  - rewrite Hrs. apply list_lookup_insert_eq. eapply lookup_lt_Some; eauto.
  - intros err ->. simpl in Hrun. inversion Hrun; subst. reflexivity.
Qed.

Lemma new_client_idle options c :
  new_client options = Ok c ->
  isRefreshing c = false /\ refreshPromise c = None.
Proof.
  unfold new_client. destruct (js_truthy _); [|discriminate].
  destruct (opt_baseURL options); try discriminate.
  intros [= <-]. auto.
Qed.
End SingleFlight.

(** ** The scenario of two concurrent calls answered 401 *)

(** Two calls answered 401 together: one [POST /auth/refresh] carrying
    [R1], and both calls are retried with the new token. *)
Example two_concurrent_401s_one_refresh :
  refresh_calls two_waiting = 1%nat
  /\ refresh_calls two_retried = 1%nat
  /\ fetches_of 2 (trace two_retried)
     = [("https://api.welcomesign.com/auth/refresh",
         request_config demo_client (refresh_options demo_client))]
  /\ obj_get "body" (request_config demo_client (refresh_options demo_client))
     = JSON_stringify (VObj [("refresh_token", VStr "R1")])
  /\ map (fun f => sent_authorization (snd f)) (fetches_of 0 (trace two_retried))
     = [VStr "Bearer T1"; VStr "Bearer T2"]
  /\ map (fun f => sent_authorization (snd f)) (fetches_of 1 (trace two_retried))
     = [VStr "Bearer T1"; VStr "Bearer T2"].
Proof. vm_compute. repeat split. Qed.

(** ** C6: the credential on the outgoing request *)

Section Credential.
Implicit Types (c : client) (o : obj).

Lemma request_config_headers c o :
  obj_has "headers" o = false ->
  obj_get "headers" (request_config c o) = VObj (request_headers c o).
Proof.
  intros Hh. unfold request_config.
  assert (obj_get "headers"
            (obj_assign [("method", js_or (obj_get "method" o) (VStr "GET"));
                         ("headers", VObj (request_headers c o))] o)
          = VObj (request_headers c o)) as Hc.
  { rewrite obj_get_assign_absent by exact Hh. reflexivity. }
  destruct (js_truthy (obj_get "body" o) && is_object (obj_get "body" o)).
  - rewrite obj_get_set_ne by discriminate. exact Hc.
  - exact Hc.
Qed.

Lemma request_headers_authorization c o :
  obj_has "headers" o = false ->
  obj_get "Authorization" (request_headers c o) = credential_rule c o.
Proof.
  intros Hh. unfold request_headers, credential_rule.
  rewrite (obj_has_get _ _ Hh). cbn [own_props obj_assign fold_left].
  destruct (js_truthy (obj_get "useDeviceToken" o) && js_truthy (deviceToken c)).
  - apply obj_get_set_eq.
  - destruct (negb (is_false (obj_get "auth" o)) && js_truthy (token c)).
    + apply obj_get_set_eq.
    + reflexivity.
Qed.

(** A descriptor without a [headers] field of its own is sent with the
    credential lines 69-73 select. *)
Lemma request_config_authorization c o :
  obj_has "headers" o = false ->
  sent_authorization (request_config c o) = credential_rule c o.
Proof.
  intros Hh. unfold sent_authorization.
  rewrite request_config_headers by exact Hh.
  apply request_headers_authorization. exact Hh.
Qed.

(** A descriptor with a [headers] field of its own: the spread of line 78
    puts that field, as it is, in the place of the headers built before. *)
Lemma request_config_own_headers c o :
  NoDup (map fst o) -> obj_has "headers" o = true ->
  obj_get "headers" (request_config c o) = obj_get "headers" o.
Proof.
  intros Hnd Hh. unfold request_config.
  assert (obj_get "headers"
            (obj_assign [("method", js_or (obj_get "method" o) (VStr "GET"));
                         ("headers", VObj (request_headers c o))] o)
          = obj_get "headers" o) as Hc.
  { apply obj_get_assign_present; assumption. }
  destruct (js_truthy (obj_get "body" o) && is_object (obj_get "body" o)).
  - rewrite obj_get_set_ne by discriminate. exact Hc.
  - exact Hc.
Qed.
End Credential.

(** C6.  The code at a descriptor that supplies its own [headers]: the
    client holds the access token [T1] and the descriptor does not set
    [auth] to false, so lines 69-73 select [Bearer T1] and put it in the
    headers they build; the object handed to [fetch] nevertheless carries
    the descriptor's headers alone, without [Authorization] and without
    [Content-Type].  The same descriptor without the [headers] field is sent
    with [Bearer T1]. *)
Theorem own_headers_lose_authorization :
  let c := client_with (VStr "T1") VNull VNull false false in
  let own := [("headers", VObj [("X-Request-Id", VStr "42")])] in
  credential_rule c own = VStr "Bearer T1"
  /\ obj_get "Authorization" (request_headers c own) = VStr "Bearer T1"
  /\ obj_get "headers" (request_config c own)
     = VObj [("X-Request-Id", VStr "42")]
  /\ sent_authorization (request_config c own) = VUndefined
  /\ sent_authorization (request_config c []) = VStr "Bearer T1".
Proof. vm_compute. repeat split. Qed.

(** ** C8: what a 2xx response returns *)

(** C8, amended.  For every 2xx response whose decoded body is not [null],
    the call returns the body's [data] field when that field is defined and
    the whole body otherwise; the task waiting for the response settles with
    that value and nothing else in the world changes. *)
Theorem success_returns_data_or_body c o status body :
  status_ok status = true ->
  nullish body = false ->
  let v := match body with
           | VObj props =>
               if is_undefined (obj_get "data" props) then body
               else obj_get "data" props
           | _ => body
           end in
  request_try c o (Response status body) = Returned v
  /\ forall w t og e ks,
       cl w = c ->
       tasks w !! t = Some (Task og (WFetch e o) ks) ->
       step (Deliver t (Response status body)) w
       = Some (set_task t (Task og (WSettled (Ok v)) ks) w).
Proof.
  intros Hok Hnn v.
  assert (Htry : request_try c o (Response status body) = Returned v).
  { unfold request_try. rewrite Hok. subst v.
    destruct body; try discriminate; reflexivity. }
  split; [exact Htry|].
  intros w t og e ks Hc Ht. rewrite (step_deliver _ _ _ _ _ _ _ Ht).
  unfold deliver. rewrite Hc, Htry. reflexivity.
Qed.

Lemma success_returns_data_or_body_witness :
  status_ok 200 = true
  /\ nullish (VObj [("data", VObj [("id", VStr "p1")])]) = false
  /\ request_try demo_client []
                 (Response 200 (VObj [("data", VObj [("id", VStr "p1")])]))
     = Returned (VObj [("id", VStr "p1")]).
Proof.
  split; [reflexivity|split; [reflexivity|]].
  exact (proj1 (success_returns_data_or_body demo_client [] 200
                  (VObj [("data", VObj [("id", VStr "p1")])])
                  eq_refl eq_refl)).
Defined.

(** A 2xx response whose body is the JSON value [null]: line 91 reads
    [data.data] of [null]; the call fails with a [TypeError] and does not
    return the body. *)
Lemma null_body_is_not_returned :
  request_try demo_client [] (Response 200 VNull) = Thrown (TypeError "data")
  /\ outcome_after [Call (Request "/properties/p1" []);
                    Deliver 0 (Response 200 VNull)]
                   (init demo_client browser) 0
     = Some (Throw (TypeError "data")).
Proof. vm_compute. split; reflexivity. Qed.

(** The scenario of the specification. *)
Example unwrap_scenario :
  request_try demo_client []
              (Response 200 (VObj [("data", VObj [("id", VStr "p1")])]))
  = Returned (VObj [("id", VStr "p1")])
  /\ request_try demo_client [] (Response 200 (VObj [("id", VStr "p1")]))
     = Returned (VObj [("id", VStr "p1")])
  /\ request_try demo_client [] (Response 200 (VObj [("data", VNull)]))
     = Returned VNull.
Proof. vm_compute. repeat split. Qed.

(** ** What writes the token pair *)

Section TokenPair.
Implicit Types (w : world).

Lemma fetches_of_app t tr evs :
  fetches_of t (tr ++ evs) = fetches_of t tr ++ fetches_of t evs.
Proof.
  induction tr as [|ev tr IH]; simpl; [reflexivity|].
  destruct ev; auto. destruct (Nat.eqb t task0); simpl; rewrite IH; reflexivity.
Qed.

Lemma adopt_tokens_spec data w :
  match adopt_tokens data w with
  | Ok w' =>
      nullish data = false
      /\ prop data "token" = Ok (token (cl w'))
      /\ prop data "refresh_token" = Ok (refreshToken (cl w'))
      /\ cl w' = set_tokens (token (cl w')) (refreshToken (cl w')) (cl w)
      /\ env w' = env w /\ tasks w' = tasks w /\ refreshes w' = refreshes w
      /\ (forall t, fetches_of t (trace w') = fetches_of t (trace w))
  | Throw e => nullish data = true
  end.
Proof.
  unfold adopt_tokens.
  destruct data; simpl; try reflexivity;
    destruct (onTokenRefresh (cl w)); simpl; split_and!; try reflexivity;
    intros t; rewrite fetches_of_app; simpl; apply app_nil_r.
Qed.

Lemma store_tokens_spec out w :
  (exists data,
      out = Ok data /\ nullish data = false
      /\ fst (store_tokens out w) = Ok data
      /\ prop data "token" = Ok (token (cl (snd (store_tokens out w))))
      /\ prop data "refresh_token"
         = Ok (refreshToken (cl (snd (store_tokens out w))))
      /\ deviceToken (cl (snd (store_tokens out w))) = deviceToken (cl w)
      /\ env (snd (store_tokens out w)) = env w
      /\ (forall t, fetches_of t (trace (snd (store_tokens out w)))
                    = fetches_of t (trace w)))
  \/ (exists e,
        fst (store_tokens out w) = Throw e
        /\ snd (store_tokens out w) = w
        /\ (out = Throw e \/ exists data, out = Ok data /\ nullish data = true)).
Proof.
  unfold store_tokens. destruct out as [data|e].
  - pose proof (adopt_tokens_spec data w) as H.
    destruct (adopt_tokens data w) as [w'|e]; simpl.
    + destruct H as (Hn & Ht & Hr & Hc & He & _ & _ & Hf). left. exists data.
      split_and!; auto. rewrite Hc. reflexivity.
    + right. exists e. split_and!; eauto.
  - right. exists e. simpl. auto.
Qed.

Lemma deliver_credentials t og e o ks r w :
  token (cl (deliver t og e o ks r w)) = token (cl w)
  /\ refreshToken (cl (deliver t og e o ks r w)) = refreshToken (cl w)
  /\ deviceToken (cl (deliver t og e o ks r w)) = deviceToken (cl w)
  /\ env (deliver t og e o ks r w) = env w.
Proof.
  unfold deliver. destruct (request_try (cl w) o r); simpl; auto.
  unfold refreshAccessToken. destruct (isRefreshing (cl w)); simpl; auto.
Qed.

Lemma after_refresh_client t og e o ks out w :
  cl (after_refresh t og e o ks out w) = cl w
  /\ env (after_refresh t og e o ks out w) = env w.
Proof. unfold after_refresh. destruct out; simpl; auto. Qed.

Lemma device_session_invalid_credentials w :
  token (cl (device_session_invalid w)) = VNull
  /\ refreshToken (cl (device_session_invalid w)) = VNull
  /\ deviceToken (cl (device_session_invalid w)) = VNull.
Proof.
  unfold device_session_invalid. simpl.
  destruct (onDeviceSessionInvalid (cl w)); simpl; auto.
  destruct (window_location _); simpl; auto.
Qed.
Lemma run_frame_stores k out w :
  stores_tokens k = true ->
  fst (run_frame k out w) = fst (store_tokens out w)
  /\ token (cl (snd (run_frame k out w)))
     = token (cl (snd (store_tokens out w)))
  /\ refreshToken (cl (snd (run_frame k out w)))
     = refreshToken (cl (snd (store_tokens out w)))
  /\ deviceToken (cl (snd (run_frame k out w)))
     = deviceToken (cl (snd (store_tokens out w)))
  /\ env (snd (run_frame k out w)) = env (snd (store_tokens out w))
  /\ tasks (snd (run_frame k out w)) = tasks w.
Proof.
  intros Hk. destruct k; try discriminate; unfold run_frame;
    destruct (store_tokens out w) as [o1 w1] eqn:E;
    apply store_tokens_refreshing in E as (_ & _ & Hts & _);
    simpl; rewrite Hts; split_and!; reflexivity.
Qed.
End TokenPair.

(** ** C10: logout *)

(** C10, amended.  [logout] itself writes the tokens only after its request
    has succeeded: the call writes nothing; when the awaited request
    returns, [token] and [refreshToken] become [null] and every other field
    of the client (device token, base URL, callbacks, storage, storage key,
    refresh flags) and the host are as before; when the awaited request
    throws, the client and the host are exactly as the dispatcher left them
    and the error is passed on. *)
Theorem logout_writes_after_success w t og out ks :
  tasks w !! t = Some (Task og (WSettled out) (FLogout :: ks)) ->
  cl (call Logout w) = cl w
  /\ env (call Logout w) = env w
  /\ exists w',
       step (Resume t) w = Some w'
       /\ tasks w' !! t = Some (Task og (WSettled out) ks)
       /\ env w' = env w
       /\ match out with
          | Ok _ => cl w' = set_tokens VNull VNull (cl w)
          | Throw _ => cl w' = cl w
          end
       /\ deviceToken (cl w') = deviceToken (cl w)
       /\ baseURL (cl w') = baseURL (cl w)
       /\ onTokenRefresh (cl w') = onTokenRefresh (cl w)
       /\ onAuthError (cl w') = onAuthError (cl w)
       /\ onDeviceSessionInvalid (cl w') = onDeviceSessionInvalid (cl w)
       /\ storage (cl w') = storage (cl w)
       /\ storageKey (cl w') = storageKey (cl w).
Proof.
  intros Ht.
  assert (Hlt : (t < length (tasks w))%nat) by (eapply lookup_lt_Some; eauto).
  split; [reflexivity|split; [reflexivity|]].
  rewrite (step_resume_frame _ _ _ _ _ _ Ht).
  destruct out as [res|e]; simpl; eexists; (split; [reflexivity|]); simpl;
    split_and!; auto using list_lookup_insert_eq.
Qed.

Lemma logout_writes_after_success_witness :
  tasks logout_answered !! 0%nat
  = Some (Task (ByCaller Logout)
               (WSettled (Ok (VObj [("message", VStr "Logged out")])))
               [FLogout])
  /\ exists w',
       step (Resume 0) logout_answered = Some w'
       /\ token (cl w') = VNull /\ refreshToken (cl w') = VNull
       /\ deviceToken (cl w') = deviceToken demo_client.
Proof.
  assert (Ht : tasks logout_answered !! 0%nat
               = Some (Task (ByCaller Logout)
                            (WSettled (Ok (VObj [("message", VStr "Logged out")])))
                            [FLogout])) by reflexivity.
  split; [exact Ht|].
  destruct (logout_writes_after_success _ _ _ _ _ Ht)
    as (_ & _ & w' & Hs & _ & _ & Hc & Hd & _).
  exists w'. rewrite Hc. split; [exact Hs|]. split_and!; reflexivity.
Defined.

(** A logout answered 401 while a refresh token is held: the dispatcher
    refreshes (the pair becomes T2/R2), the retry is answered 500 and
    [logout] throws; the tokens are not the ones held when [logout] was
    called. *)
Lemma failed_logout_keeps_refreshed_pair :
  run logout_refreshed_then_failed (init demo_client browser)
  = Some logout_failed
  /\ settled_with 0 logout_failed
     = Some (Throw (ApiError "Internal Server Error" 500
                             (VObj [("message",
                                     VStr "Internal Server Error")])))
  /\ token demo_client = VStr "T1"
  /\ refreshToken demo_client = VStr "R1"
  /\ token (cl logout_failed) = VStr "T2"
  /\ refreshToken (cl logout_failed) = VStr "R2".
Proof. vm_compute. repeat split. Qed.

(** ** C4: getDeviceInfo on a 401-classified error *)

(** Lines 817-839 for an error whose status is 401. *)
Lemma getDeviceInfo_catch_401 w t og e ks :
  tasks w !! t = Some (Task og (WSettled (Throw e)) (FGetDeviceInfo :: ks)) ->
  status_is_401 e = true ->
  exists w',
    step (Resume t) w = Some w'
    /\ token (cl w') = VNull
    /\ refreshToken (cl w') = VNull
    /\ deviceToken (cl w') = VNull
    /\ trace w'
       = trace w ++ (if onDeviceSessionInvalid (cl w)
                     then [EvDeviceSessionInvalid no_credentials]
                     else if window_location (env w)
                          then [EvReload no_credentials]
                          else [])
    /\ tasks w' !! t = Some (Task og (WSettled (Throw e)) ks).
Proof.
  intros Ht He.
  assert (Hlt : (t < length (tasks w))%nat) by (eapply lookup_lt_Some; eauto).
  rewrite (step_resume_frame _ _ _ _ _ _ Ht). simpl. rewrite He.
  eexists. split; [reflexivity|].
  unfold device_session_invalid. simpl.
  destruct (onDeviceSessionInvalid (cl w)); simpl.
  - split_and!; auto using list_lookup_insert_eq.
  - assert (Hwl : window_location
                    match storage (cl w) with
                    | Some ref => storage_removeItem ref (storageKey (cl w)) (env w)
                    | None => env w
                    end = window_location (env w)).
    { destruct (storage (cl w)) as [[]|]; reflexivity. }
    rewrite Hwl. destruct (window_location (env w)); simpl;
      split_and!; auto using list_lookup_insert_eq, app_nil_r.
Qed.

(** C4, amended.  When [getDeviceInfo] resumes with a 401-classified
    error, it first sets the three credential fields to [null]; then it
    calls [onDeviceSessionInvalid] once if that callback is registered,
    otherwise reloads the page if the host has [window.location], otherwise
    does nothing; the callback or the reload sees no credential; the error
    is thrown again to the caller. *)
Theorem device_session_invalid_clears_then_notifies w t og e ks :
  tasks w !! t = Some (Task og (WSettled (Throw e)) (FGetDeviceInfo :: ks)) ->
  status_is_401 e = true ->
  exists w',
    step (Resume t) w = Some w'
    /\ token (cl w') = VNull
    /\ refreshToken (cl w') = VNull
    /\ deviceToken (cl w') = VNull
    /\ trace w'
       = trace w ++ (if onDeviceSessionInvalid (cl w)
                     then [EvDeviceSessionInvalid no_credentials]
                     else if window_location (env w)
                          then [EvReload no_credentials]
                          else [])
    /\ tasks w' !! t = Some (Task og (WSettled (Throw e)) ks).
Proof. apply getDeviceInfo_catch_401. Qed.

Lemma device_session_invalid_clears_then_notifies_witness :
  tasks device_info_failed !! 0%nat
  = Some (Task (ByCaller GetDeviceInfo)
               (WSettled (Throw (ApiError "Token expired" 401
                                   (VObj [("message", VStr "Token expired")]))))
               [FGetDeviceInfo])
  /\ status_is_401 (ApiError "Token expired" 401
                             (VObj [("message", VStr "Token expired")])) = true
  /\ exists w',
       step (Resume 0) device_info_failed = Some w'
       /\ getTokens (cl w') = no_credentials
       /\ trace w' = trace device_info_failed
                     ++ [EvDeviceSessionInvalid no_credentials].
Proof.
  assert (Ht : tasks device_info_failed !! 0%nat
               = Some (Task (ByCaller GetDeviceInfo)
                            (WSettled (Throw (ApiError "Token expired" 401
                                   (VObj [("message", VStr "Token expired")]))))
                            [FGetDeviceInfo])) by reflexivity.
  split; [exact Ht|split; [reflexivity|]].
  destruct (device_session_invalid_clears_then_notifies _ _ _ _ _ Ht eq_refl)
    as (w' & Hs & Htk & Hrt & Hd & Htr & _).
  exists w'. split; [exact Hs|]. unfold getTokens.
  rewrite Htk, Hrt, Hd, Htr. split; reflexivity.
Defined.

(** With [onAuthError] registered, the dispatcher's notification fires
    first, while the device token is still held, and the credentials are
    cleared after it; and on a host without [window] a client without
    [onDeviceSessionInvalid] takes no recovery action at all. *)
Lemma auth_error_fires_before_clearing :
  run (device_info_call ++ [Resume 0]) (init device_client browser)
  = Some device_info_cleared
  /\ filter (fun ev => is_fetch ev = false) (trace device_info_cleared)
     = [EvAuthError (ApiError "Token expired" 401
                              (VObj [("message", VStr "Token expired")]))
                    [("token", VNull); ("refreshToken", VNull);
                     ("deviceToken", VStr "D1")];
        EvDeviceSessionInvalid no_credentials]
  /\ (exists w,
         run (device_info_call ++ [Resume 0]) (init silent_device_client no_host)
         = Some w
         /\ getTokens (cl w) = no_credentials
         /\ filter (fun ev => is_fetch ev = false) (trace w) = []).
Proof.
  split; [vm_compute; reflexivity|split; [vm_compute; reflexivity|]].
  eexists. split; [vm_compute; reflexivity|]. split; reflexivity.
Qed.

(** ** C3: getDeviceInfo and the refresh coordinator *)

Section DeviceInfo.
Implicit Types (w : world).


End DeviceInfo.




(** ** C7: the auth-error notification *)

(** C7.  The code on one call answered 401 while a refresh token is held
    and [onAuthError] is registered.  When the refresh is answered 500 the
    caller receives the error of the refresh and [onAuthError] is never
    called, although the 401 went unresolved.  When the refresh is answered
    401, [onAuthError] is called twice for the one call: in the [catch] of
    the refresh request and again in the [catch] of the caller.  The other
    paths notify as the claim says: once without a refresh token, once when
    the retry is answered 401 again, never when the retry succeeds. *)
Theorem auth_error_on_failed_refresh :
  settled_with 0 refresh_fails_500
  = Some (Throw (ApiError "Internal Server Error" 500
                          (VObj [("message", VStr "Internal Server Error")])))
  /\ auth_errors refresh_fails_500 = 0%nat
  /\ settled_with 0 refresh_fails_401
     = Some (Throw (ApiError "Token expired" 401
                             (VObj [("message", VStr "Token expired")])))
  /\ auth_errors refresh_fails_401 = 2%nat
  /\ auth_errors no_refresh_token_401 = 1%nat
  /\ auth_errors retry_fails_401 = 1%nat
  /\ auth_errors retry_succeeds = 0%nat.
Proof. vm_compute. repeat split. Qed.

(** ** What a failed refresh leaves behind *)

(** What a failed refresh leaves behind, in a world [w]. *)
Section FailedRefresh.
Implicit Types (w : world).

Lemma fetch_count_app tr evs :
  fetch_count (tr ++ evs) = (fetch_count tr + fetch_count evs)%nat.
Proof. unfold fetch_count. rewrite filter_app, length_app. reflexivity. Qed.

Lemma request_catch_no_fetch c e : fetch_count (request_catch c e) = 0%nat.
Proof.
  unfold request_catch. destruct (status_is_401 e && onAuthError c);
    reflexivity.
Qed.

Lemma run_frame_refresh_eq r out w :
  run_frame (FRefresh r) out w
  = (fst (store_tokens out w),
     settle_refresh r (fst (store_tokens out w)) (snd (store_tokens out w))).
Proof. simpl. destruct (store_tokens out w). reflexivity. Qed.

Lemma resume_refresh_frame w rt og out r ks :
  coordinated w ->
  tasks w !! rt = Some (Task og (WSettled out) (FRefresh r :: ks)) ->
  exists w' out',
    step (Resume rt) w = Some w'
    /\ refreshes w !! r = Some None
    /\ refreshes w' !! r = Some (Some out')
    /\ tasks w' !! rt = Some (Task og (WSettled out') ks)
    /\ (forall err, out = Throw err -> out' = Throw err)
    /\ (forall err, out' = Throw err ->
          credentials_of (cl w') = credentials_of (cl w) /\ env w' = env w)
    /\ (forall v, out' = Ok v ->
          out = Ok v
          /\ prop v "token" = Ok (token (cl w'))
          /\ prop v "refresh_token" = Ok (refreshToken (cl w'))
          /\ deviceToken (cl w') = deviceToken (cl w))
    /\ (forall d, out = Ok d -> nullish d = false -> out' = Ok d)
    /\ (forall t, t <> rt -> tasks w' !! t = tasks w !! t)
    /\ (forall t, fetches_of t (trace w') = fetches_of t (trace w))
    /\ baseURL (cl w') = baseURL (cl w).
Proof.
  intros Hco Ht.
  assert (Hlt : (rt < length (tasks w))%nat) by (eapply lookup_lt_Some; eauto).
  destruct (coordinated_resets w Hco rt og out r ks Ht)
    as (_ & _ & _ & _ & Hpend & _).
  assert (Hrl : (r < length (refreshes w))%nat) by (eapply lookup_lt_Some; eauto).
  rewrite (step_resume_frame _ _ _ _ _ _ Ht), run_frame_refresh_eq.
  cbn [fst snd].
  pose proof (store_tokens_refreshing out w _ _ (surjective_pairing _))
    as (_ & _ & Hts & Hrs).
  eexists _, (fst (store_tokens out w)). split; [reflexivity|].
  cbn [set_task settle_refresh cl env tasks refreshes]. rewrite Hts, Hrs.
  split_and!; auto using list_lookup_insert_eq.
  - intros err ->. reflexivity.
  - intros err Herr.
    destruct (store_tokens_spec out w)
      as [(d & _ & _ & Ho & _)|(e & _ & -> & _)]; [congruence|].
    split; reflexivity.
  - intros v Hv.
    destruct (store_tokens_spec out w)
      as [(d & -> & _ & Ho & Htk & Hrt & Hdv & _)|(e & Ho & _ & _)];
      [|congruence].
    assert (v = d) as -> by congruence.
    split_and!; auto.
  - intros d -> Hd.
    destruct (store_tokens_spec (Ok d) w)
      as [(d' & [= <-] & _ & Ho & _)|(e & _ & _ & [[=]|(d' & [= <-] & Hd')])];
      [exact Ho|congruence].
  - intros t Hne. apply list_lookup_insert_ne. congruence.
  - intros t.
    destruct (store_tokens_spec out w)
      as [(d & _ & _ & _ & _ & _ & _ & _ & Hf)|(e & _ & -> & _)]; auto.
  - unfold store_tokens, adopt_tokens. destruct out as [d|e]; [|reflexivity].
    destruct d; simpl; try reflexivity;
      destruct (onTokenRefresh (cl w)); reflexivity.
Qed.

Lemma resume_waiter_rejected w t og r e o ks err :
  tasks w !! t = Some (Task og (WRefresh (Some r) e o) ks) ->
  refreshes w !! r = Some (Some (Throw err)) ->
  exists w',
    step (Resume t) w = Some w'
    /\ tasks w' !! t = Some (Task og (WSettled (Throw err)) ks)
    /\ cl w' = cl w /\ env w' = env w
    /\ refreshes w' = refreshes w
    /\ length (tasks w') = length (tasks w)
    /\ trace w' = trace w ++ request_catch (cl w) err.
Proof.
  intros Ht Hr.
  assert (Hlt : (t < length (tasks w))%nat) by (eapply lookup_lt_Some; eauto).
  rewrite (step_resume_waiter _ _ _ _ _ _ _ Ht). unfold awaited. rewrite Hr.
  eexists. split; [reflexivity|]. simpl.
  split_and!; auto using list_lookup_insert_eq, length_insert.
Qed.
End FailedRefresh.

Section FailedRefreshAtomic.
Implicit Types (w : world).

Lemma credentials_of_eq c c' :
  token c' = token c -> refreshToken c' = refreshToken c ->
  deviceToken c' = deviceToken c ->
  credentials_of c' = credentials_of c.
Proof. unfold credentials_of. intros -> -> ->. reflexivity. Qed.

Lemma deliver_task t og e o ks rsp w :
  (t < length (tasks w))%nat ->
  tasks (deliver t og e o ks rsp w) !! t
  = Some (match request_try (cl w) o rsp with
          | Returned v => Task og (WSettled (Ok v)) ks
          | Thrown err => Task og (WSettled (Throw err)) ks
          | MustRefresh =>
              Task og (WRefresh (fst (refreshAccessToken w)) e o) ks
          end).
Proof.
  intros Hlt. unfold deliver.
  destruct (request_try (cl w) o rsp); simpl;
    try (apply list_lookup_insert_eq; exact Hlt).
  destruct (isRefreshing (cl w)) eqn:Hb.
  - rewrite refreshAccessToken_busy by exact Hb. simpl.
    apply list_lookup_insert_eq; exact Hlt.
  - destruct (refreshAccessToken_idle w Hb) as (w1 & -> & Hts & _). simpl.
    apply list_lookup_insert_eq. rewrite Hts, length_app. lia.
Qed.

End FailedRefreshAtomic.

(** The scenario of the specification: the refresh is answered 500; both
    waiting callers receive that error and the pair is still T1/R1. *)
Example refresh_500_scenario :
  credentials_of (cl two_callers_refresh_fails) = (VStr "T1", VStr "R1", VNull)
  /\ refresh_calls two_callers_refresh_fails = 1%nat
  /\ settled_with 0 two_callers_refresh_fails
     = Some (Throw (ApiError "Internal Server Error" 500
                             (VObj [("message",
                                     VStr "Internal Server Error")])))
  /\ settled_with 1 two_callers_refresh_fails
     = settled_with 0 two_callers_refresh_fails
  /\ isRefreshing (cl two_callers_refresh_fails) = false
  /\ refreshPromise (cl two_callers_refresh_fails) = None.
Proof. vm_compute. repeat split. Qed.

(** ** C2: one retry after the refresh *)

Section Retry.
Implicit Types (w : world).

Lemma credential_rule_retry c o :
  credential_rule c (retry_options o) = credential_rule c o.
Proof.
  unfold credential_rule.
  destruct (retry_options_other "useDeviceToken" o) as [-> _]; [discriminate|].
  destruct (retry_options_other "auth" o) as [-> _]; [discriminate|].
  reflexivity.
Qed.

Lemma retry_authorization c o :
  obj_has "headers" o = false ->
  sent_authorization (request_config c (retry_options o)) = credential_rule c o.
Proof.
  intros Hh. rewrite request_config_authorization.
  - apply credential_rule_retry.
  - destruct (retry_options_other "headers" o) as [_ ->]; [discriminate|].
    exact Hh.
Qed.

Lemma resume_waiter_fulfilled w t og r e o ks v :
  tasks w !! t = Some (Task og (WRefresh (Some r) e o) ks) ->
  refreshes w !! r = Some (Some (Ok v)) ->
  step (Resume t) w
  = Some (set_task t (Task og (WFetch e (retry_options o)) ks)
                   (emit [fetch_event t e (retry_options o) w] w)).
Proof.
  intros Ht Hr. rewrite (step_resume_waiter _ _ _ _ _ _ _ Ht).
  unfold awaited. rewrite Hr. reflexivity.
Qed.

Lemma coordinated_awaits_first w : coordinated w -> awaits_coordinator_first w.
Proof.
  intros Hco t og e o ks data Ht Hrt Hskip.
  assert (Hlt : (t < length (tasks w))%nat) by (eapply lookup_lt_Some; eauto).
  destruct (isRefreshing (cl w)) eqn:Hb.
  - destruct (coordinated_joins w Hco t og e o ks data Ht Hrt Hskip Hb)
      as (r & Hp & _ & Hs).
    eexists _, (Some r). split; [exact Hs|]. simpl.
    split_and!; auto using list_lookup_insert_eq.
  - destruct (coordinated_starts w Hco t og e o ks data Ht Hrt Hskip Hb)
      as (w' & Hs & _ & _ & Hi & Hp & _ & Ht' & _ & Htr).
    exists w', (Some (length (refreshes w))). split_and!; auto.
    rewrite Htr, fetches_of_app. simpl.
    destruct (Nat.eqb_spec t (length (tasks w))); [lia|]. apply app_nil_r.
Qed.

Lemma coordinated_retries_once w : retries_once_marked w.
Proof.
  intros t og r e o ks v Ht Hr.
  assert (Hlt : (t < length (tasks w))%nat) by (eapply lookup_lt_Some; eauto).
  eexists. split; [apply (resume_waiter_fulfilled w t og r e o ks v Ht Hr)|].
  simpl. split_and!; auto using list_lookup_insert_eq, retry_options_skip.
  - intros k Hk. apply retry_options_other. exact Hk.
  - apply retry_authorization.
Qed.

Lemma coordinated_no_retry w : no_retry_after_failed_refresh w.
Proof.
  intros t og r e o ks err Ht Hr.
  destruct (resume_waiter_rejected w t og r e o ks err Ht Hr)
    as (w' & Hs & Ht' & _ & _ & _ & _ & Htr).
  exists w'. split_and!; auto.
  rewrite Htr, fetch_count_app, request_catch_no_fetch. lia.
Qed.

Lemma coordinated_marked w : marked_never_refreshes w.
Proof.
  intros t og e o ks rsp Ht Hskip.
  assert (Hlt : (t < length (tasks w))%nat) by (eapply lookup_lt_Some; eauto).
  rewrite (step_deliver _ _ _ _ _ _ _ Ht). unfold deliver.
  pose proof (request_try_never_refresh_when_skipping (cl w) o rsp Hskip) as Hn.
  destruct (request_try (cl w) o rsp) as [v|err|]; [| |congruence];
    eexists _, _; (split; [reflexivity|]); simpl;
    (split; [apply list_lookup_insert_eq; exact Hlt|]);
    unfold refresh_calls; simpl;
    rewrite (filter_length_insert _ _ t _ _ Ht) by (simpl; tauto);
    rewrite length_insert; split_and!; auto.
  rewrite fetch_count_app, request_catch_no_fetch. lia.
Qed.

Lemma coordinated_retry_token w : coordinated w -> retry_carries_new_token w.
Proof.
  intros Hco t rt og og' e o ks ks' r data Ht Hrt Hn.
  assert (Hne : t <> rt).
  { intros ->. rewrite Ht in Hrt. discriminate. }
  destruct (resume_refresh_frame w rt og' (Ok data) r ks' Hco Hrt)
    as (w1 & out' & Hs1 & _ & Hr1 & _ & _ & _ & Hok & Hsucc & Hts & Hf & Hb).
  specialize (Hsucc data eq_refl Hn). subst out'.
  destruct (Hok data eq_refl) as (_ & Htk & _ & Hdv).
  assert (Ht1 : tasks w1 !! t = Some (Task og (WRefresh (Some r) e o) ks)).
  { rewrite Hts by exact Hne. exact Ht. }
  pose proof (resume_waiter_fulfilled w1 t og r e o ks data Ht1 Hr1) as Hs2.
  eexists _, (token (cl w1)). split; [exact Htk|].
  split; [cbn [run]; rewrite Hs1, Hs2; reflexivity|]. simpl.
  split_and!; auto.
  - rewrite fetches_of_app, Hf. simpl. rewrite Nat.eqb_refl.
    unfold request_url. rewrite Hb. reflexivity.
  - apply retry_authorization.
  - intros Hacc Htruthy. unfold sent_with_access_token in Hacc.
    apply andb_prop in Hacc as [[Hh Hd]%andb_prop Ha].
    apply negb_true_iff in Hh, Hd.
    rewrite retry_authorization by exact Hh. unfold credential_rule.
    rewrite Hdv, Hd, Ha, Htruthy. reflexivity.
Qed.

Lemma coordinated_refresh_retry w : coordinated w -> refresh_retry w.
Proof.
  intros Hco. split.
  - apply coordinated_awaits_first; exact Hco.
  - apply coordinated_retries_once.
  - apply coordinated_no_retry.
  - apply coordinated_marked.
  - apply coordinated_retry_token; exact Hco.
Qed.
End Retry.

(** C2, amended.  For every client and every world it can reach: a request
    answered 401 while a refresh token is held and the descriptor is not
    marked [skipTokenRefresh] first waits for the refresh coordinator; if
    the refresh succeeds, the same request is sent exactly once more, marked
    [skipTokenRefresh], with the credential chosen anew from the tokens then
    held -- so a request that is sent with the access token carries the
    newly issued one; if the refresh fails, nothing is sent again; and a
    request marked [skipTokenRefresh] never reaches the coordinator, so a
    call is retried at most once. *)
Theorem retry_once_after_refresh options c h w :
  new_client options = Ok c ->
  reachable (init c h) w ->
  refresh_retry w.
Proof.
  intros Hnew Hreach. apply coordinated_refresh_retry.
  apply new_client_idle in Hnew as [Hi Hp].
  eapply reachable_coordinated; [|exact Hreach].
  apply coordinated_init; assumption.
Qed.

Lemma retry_once_after_refresh_witness :
  new_client demo_options = Ok demo_client
  /\ reachable (init demo_client browser) refresh_answered_ok
  /\ refresh_retry refresh_answered_ok
  /\ exists w2,
       run [Resume 1; Resume 0] refresh_answered_ok = Some w2
       /\ sent_authorization (request_config (cl w2) (retry_options []))
          = VStr "Bearer T2".
Proof.
  assert (H1 : new_client demo_options = Ok demo_client) by reflexivity.
  assert (H2 : reachable (init demo_client browser) refresh_answered_ok).
  { apply (run_reachable (one_call_unauthorized ++ [Deliver 1 new_pair])
                         _ (init demo_client browser));
      [apply reach_init|vm_compute; reflexivity]. }
  pose proof (retry_once_after_refresh demo_options demo_client browser
                                       refresh_answered_ok H1 H2) as RR.
  split; [exact H1|split; [exact H2|split; [exact RR|]]].
  destruct (rr_token _ RR 0%nat 1%nat (ByCaller (Request "/users/me" []))
                     (ByRefresh 0) "/users/me" [] [] [] 0%nat
                     (VObj [("token", VStr "T2"); ("refresh_token", VStr "R2");
                            ("expires_at", VNum 1767225600)])
                     eq_refl eq_refl eq_refl)
    as (w2 & tk & Htk & Hrun & _ & _ & _ & Hauth).
  exists w2. split; [exact Hrun|].
  assert (tk = VStr "T2") as -> by (vm_compute in Htk; congruence).
  exact (Hauth eq_refl eq_refl).
Defined.

(** A heartbeat of a client that holds a device token and a user session:
    the 401 is refreshed (the access token becomes T2) and the heartbeat is
    sent again with the device token it was sent with before, not with the
    newly issued access token.  And when the refresh fails the request is
    not sent again at all. *)
Lemma retried_device_request_keeps_device_token :
  run heartbeat_refreshed (init paired_user_client browser)
  = Some heartbeat_retried
  /\ token (cl heartbeat_retried) = VStr "T2"
  /\ map (fun f => sent_authorization (snd f))
         (fetches_of 0 (trace heartbeat_retried))
     = [VStr "Bearer D1"; VStr "Bearer D1"]
  /\ map (fun f => obj_get "skipTokenRefresh" (snd f))
         (fetches_of 0 (trace heartbeat_retried))
     = [VUndefined; VBool true]
  /\ length (fetches_of 0 (trace refresh_fails_500)) = 1%nat.
Proof. vm_compute. repeat split. Qed.

(** The scenario of the specification: one 401, the retry carries T2. *)
Example retry_uses_new_token_scenario :
  map (fun f => sent_authorization (snd f))
      (fetches_of 0 (trace retry_succeeds))
  = [VStr "Bearer T1"; VStr "Bearer T2"]
  /\ settled_with 0 retry_succeeds = Some (Ok (VObj [("id", VStr "u1")]))
  /\ refresh_calls retry_fails_401 = 1%nat
  /\ length (fetches_of 0 (trace retry_fails_401)) = 2%nat.
Proof. vm_compute. repeat split. Qed.

(** * Further properties of the code *)

(** ** The constructor *)

Section Constructor.

Lemma strip_trailing_slash_cons c s :
  s <> EmptyString ->
  strip_trailing_slash (String c s) = String c (strip_trailing_slash s).
Proof. destruct s; [contradiction|reflexivity]. Qed.

Lemma strip_trailing_slash_app s : strip_trailing_slash (s +:+ "/") = s.
Proof.
  induction s as [|c s IH]; [reflexivity|].
  change (String c s +:+ "/") with (String c (s +:+ "/")).
  rewrite strip_trailing_slash_cons, IH; [reflexivity|].
  destruct s; discriminate.
Qed.

Lemma strip_trailing_slash_id s :
  ends_with_slash s = false -> strip_trailing_slash s = s.
Proof.
  induction s as [|c s IH]; [reflexivity|].
  destruct s as [|c' rest].
  - simpl. intros ->. reflexivity.
  - intros H. rewrite strip_trailing_slash_cons by discriminate.
    rewrite IH; [reflexivity|exact H].
Qed.

Lemma js_or_null v : null_or_truthy (js_or v VNull).
Proof.
  unfold js_or, null_or_truthy. destruct (js_truthy v) eqn:E; auto.
Qed.
End Constructor.

(** X1.  The constructor (lines 39-55) throws [Error('baseURL is required')]
    exactly when [baseURL] is falsy, and a [TypeError] when it is truthy but
    no string; otherwise the client starts idle (no refresh in progress, no
    promise), with one trailing slash taken off the base URL; each of the
    three credentials is the option's value when that is truthy and [null]
    when it is missing, empty or otherwise falsy, so each is [null] or
    truthy; the three callbacks and the storage are the options'; and the
    storage key is the option's, or ['welcomesign_tokens'] when that is
    empty, so it is never empty. *)
Theorem constructor_validates_and_normalises options :
  match new_client options with
  | Ok c =>
      exists url,
        opt_baseURL options = VStr url /\ url <> EmptyString
        /\ baseURL c = strip_trailing_slash url
        /\ token c = (if js_truthy (opt_token options)
                      then opt_token options else VNull)
        /\ refreshToken c = (if js_truthy (opt_refreshToken options)
                             then opt_refreshToken options else VNull)
        /\ deviceToken c = (if js_truthy (opt_deviceToken options)
                            then opt_deviceToken options else VNull)
        /\ null_or_truthy (token c) /\ null_or_truthy (refreshToken c)
        /\ null_or_truthy (deviceToken c)
        /\ onTokenRefresh c = opt_onTokenRefresh options
        /\ onAuthError c = opt_onAuthError options
        /\ onDeviceSessionInvalid c = opt_onDeviceSessionInvalid options
        /\ storage c = opt_storage options
        /\ storageKey c = (if String.eqb (opt_storageKey options) EmptyString
                           then "welcomesign_tokens"
                           else opt_storageKey options)
        /\ storageKey c <> EmptyString
        /\ isRefreshing c = false /\ refreshPromise c = None
  | Throw e =>
      (js_truthy (opt_baseURL options) = false
       /\ e = PlainError "baseURL is required")
      \/ (js_truthy (opt_baseURL options) = true
          /\ (forall url, opt_baseURL options <> VStr url)
          /\ e = TypeError "replace")
  end.
Proof.
  unfold new_client. destruct (js_truthy (opt_baseURL options)) eqn:Ht.
  2:{ left. auto. }
  destruct (opt_baseURL options) as [| |b|n|url|l|o] eqn:Hb;
    try (right; split_and!; [reflexivity|intros u; discriminate|reflexivity]).
  exists url. cbn [baseURL token refreshToken deviceToken isRefreshing
                   refreshPromise storageKey onTokenRefresh onAuthError
                   onDeviceSessionInvalid storage].
  split_and!; auto using js_or_null.
  - intros ->. discriminate.
  - unfold storageKey_or_default.
    destruct (String.eqb_spec (opt_storageKey options) EmptyString);
      [discriminate|assumption].
Qed.

(** X2.  A base URL given with a trailing slash and an endpoint that starts
    with one are joined without a doubled slash: the client keeps the base
    URL without its last slash, and every request URL is that base followed
    by the endpoint; a base URL without a trailing slash is kept as it is. *)
Theorem request_url_has_no_doubled_slash options c endpoint base :
  new_client options = Ok c ->
  (opt_baseURL options = VStr (base +:+ "/") ->
   request_url c endpoint = base +:+ endpoint)
  /\ (opt_baseURL options = VStr base -> ends_with_slash base = false ->
      request_url c endpoint = base +:+ endpoint).
Proof.
  unfold new_client. intros Hnew.
  destruct (js_truthy (opt_baseURL options)); [|discriminate].
  split; intros Hb; rewrite Hb in Hnew; inversion Hnew; subst c;
    unfold request_url; cbn [baseURL].
  - rewrite strip_trailing_slash_app. reflexivity.
  - intros He. rewrite strip_trailing_slash_id by exact He. reflexivity.
Qed.

Lemma request_url_has_no_doubled_slash_witness :
  new_client demo_options = Ok demo_client
  /\ opt_baseURL demo_options = VStr ("https://api.welcomesign.com" +:+ "/")
  /\ request_url demo_client "/users/me"
     = "https://api.welcomesign.com" +:+ "/users/me".
Proof.
  split; [reflexivity|split; [reflexivity|]].
  exact (proj1 (request_url_has_no_doubled_slash demo_options demo_client
                  "/users/me" "https://api.welcomesign.com" eq_refl) eq_refl).
Defined.

(** ** The dispatcher on a response it cannot recover from *)

Section DispatcherFailures.
Implicit Types (w : world).

Lemma error_message_picked data :
  nullish data = false ->
  error_message data = Ok (picked_message data)
  /\ js_truthy (picked_message data) = true.
Proof.
  unfold error_message, picked_message, js_or.
  destruct data as [| |b|n|s|l|props]; try discriminate; intros _;
    try (split; reflexivity).
  cbn [prop bind].
  destruct (js_truthy (obj_get "message" props)) eqn:Em; [auto|].
  cbn [bind]. destruct (js_truthy (obj_get "error" props)) eqn:Ee; auto.
Qed.


(** The [catch] of [_request] for an error thrown in its [try]. *)
Lemma deliver_thrown w t og e o ks rsp err :
  tasks w !! t = Some (Task og (WFetch e o) ks) ->
  request_try (cl w) o rsp = Thrown err ->
  exists w',
    step (Deliver t rsp) w = Some w'
    /\ cl w' = cl w /\ env w' = env w /\ refreshes w' = refreshes w
    /\ tasks w' = <[t := Task og (WSettled (Throw err)) ks]> (tasks w)
    /\ trace w' = trace w ++ request_catch (cl w) err.
Proof.
  intros Ht Htry. rewrite (step_deliver _ _ _ _ _ _ _ Ht). unfold deliver.
  rewrite Htry. eexists. split; [reflexivity|]. simpl. auto.
Qed.

Lemma refresh_calls_insert w w' t tk tk' :
  tasks w !! t = Some tk -> origin_of tk' = origin_of tk ->
  tasks w' = <[t := tk']> (tasks w) ->
  refresh_calls w' = refresh_calls w.
Proof.
  intros Ht Ho Hts. unfold refresh_calls. rewrite Hts.
  apply (filter_length_insert _ _ t tk tk' Ht).
  unfold is_refresh_task. rewrite Ho. tauto.
Qed.
End DispatcherFailures.

(** X3.  An application-level error: a response that is neither 2xx nor
    401, with a body that is not [null], settles the call with an error that
    carries the response status, the decoded body, and as message the string
    form of the value picked by [data.message || data.error || 'API request
    failed'].  The value picked is always truthy; when it is a string, the
    message is that string and is not empty (the string form of a picked
    array can be empty).  The picked value is one [String] prints as
    modelled: its numbers are safe integers and it is no object with a
    [toString] of its own.  Nothing else happens: no callback, no refresh,
    no credential or host change, no further request. *)
Theorem application_error_is_classified w t og e o ks status data :
  tasks w !! t = Some (Task og (WFetch e o) ks) ->
  status_ok status = false ->
  status <> 401%Z ->
  nullish data = false ->
  printable (picked_message data) = true ->
  js_truthy (picked_message data) = true
  /\ (forall s, picked_message data = VStr s ->
        s <> EmptyString /\ to_string (picked_message data) = s)
  /\ exists w',
       step (Deliver t (Response status data)) w = Some w'
       /\ tasks w' !! t
          = Some (Task og (WSettled (Throw (ApiError
                                              (to_string (picked_message data))
                                              status data))) ks)
       /\ cl w' = cl w /\ env w' = env w
       /\ trace w' = trace w
       /\ refreshes w' = refreshes w
       /\ refresh_calls w' = refresh_calls w
       /\ length (tasks w') = length (tasks w).
Proof.
  intros Ht Hok Hne Hn _.
  destruct (error_message_picked data Hn) as [Hm Htruthy].
  split; [exact Htruthy|]. split.
  { intros s Hs. rewrite Hs in Htruthy |- *. split; [|reflexivity].
    intros ->. discriminate. }
  assert (Hlt : (t < length (tasks w))%nat) by (eapply lookup_lt_Some; eauto).
  assert (Htry : request_try (cl w) o (Response status data)
                 = Thrown (ApiError (to_string (picked_message data))
                                    status data)).
  { unfold request_try. rewrite Hok.
    destruct (Z.eqb_spec status 401) as [|_]; [contradiction|].
    cbn [andb]. rewrite Hm. reflexivity. }
  destruct (deliver_thrown w t og e o ks _ _ Ht Htry)
    as (w' & Hs & Hc & He & Hr & Hts & Htr).
  exists w'. split; [exact Hs|]. split_and!; auto.
  - rewrite Hts. apply list_lookup_insert_eq. exact Hlt.
  - rewrite Htr. unfold request_catch, status_is_401. cbn [error_status].
    destruct (Z.eqb_spec status 401) as [|_]; [contradiction|].
    apply app_nil_r.
  - eapply (refresh_calls_insert w w' t); [exact Ht| |exact Hts]. reflexivity.
  - rewrite Hts. apply length_insert.
Qed.

Lemma application_error_is_classified_witness :
  tasks (call (Request "/properties" []) (init demo_client browser)) !! 0%nat
  = Some (Task (ByCaller (Request "/properties" []))
               (WFetch "/properties" []) [])
  /\ status_ok 422 = false
  /\ 422%Z <> 401%Z
  /\ nullish (VObj [("error", VStr "Validation error")]) = false
  /\ printable (picked_message (VObj [("error", VStr "Validation error")]))
     = true
  /\ exists w',
       step (Deliver 0 (Response 422 (VObj [("error",
                                             VStr "Validation error")])))
            (call (Request "/properties" []) (init demo_client browser))
       = Some w'
       /\ settled_with 0 w'
          = Some (Throw (ApiError "Validation error" 422
                                  (VObj [("error", VStr "Validation error")]))).
Proof.
  assert (Hne : 422%Z <> 401%Z) by discriminate.
  split; [reflexivity|split; [reflexivity|split; [exact Hne|]]].
  split; [reflexivity|]. split; [reflexivity|].
  destruct (application_error_is_classified
              (call (Request "/properties" []) (init demo_client browser))
              0%nat (ByCaller (Request "/properties" [])) "/properties" [] []
              422 (VObj [("error", VStr "Validation error")])
              eq_refl eq_refl Hne eq_refl eq_refl)
    as (_ & _ & w' & Hs & Ht & _).
  exists w'. split; [exact Hs|]. unfold settled_with. rewrite Ht. reflexivity.
Defined.



(** X5.  A failure without a status is passed on as it is and never
    reported: when [fetch] rejects or the body is not JSON, and when a
    response that is not 2xx has the body [null] (line 101 then reads a
    property of [null]) and is not handed to the refresh coordinator, the
    call settles with that error, [onAuthError] is not called even if it is
    registered and even if the status was 401, and nothing else changes. *)
Theorem failure_without_status_is_silent w t og e o ks rsp :
  tasks w !! t = Some (Task og (WFetch e o) ks) ->
  rsp = NetworkFailure
  \/ (exists status,
         rsp = Response status VNull /\ status_ok status = false
         /\ (status = 401%Z ->
             js_truthy (refreshToken (cl w)) = false
             \/ js_truthy (obj_get "skipTokenRefresh" o) = true)) ->
  exists w' err,
    step (Deliver t rsp) w = Some w'
    /\ err = match rsp with
             | NetworkFailure => HostError
             | Response _ _ => TypeError "message"
             end
    /\ error_status err = None
    /\ tasks w' !! t = Some (Task og (WSettled (Throw err)) ks)
    /\ trace w' = trace w
    /\ cl w' = cl w /\ env w' = env w /\ refreshes w' = refreshes w.
Proof.
  intros Ht Hrsp.
  assert (Hlt : (t < length (tasks w))%nat) by (eapply lookup_lt_Some; eauto).
  assert (Htry : exists err,
             request_try (cl w) o rsp = Thrown err
             /\ err = match rsp with
                      | NetworkFailure => HostError
                      | Response _ _ => TypeError "message"
                      end
             /\ error_status err = None).
  { destruct Hrsp as [->|(status & -> & Hok & Hgate)].
    - exists HostError. auto.
    - exists (TypeError "message"). split_and!; auto.
      unfold request_try. rewrite Hok.
      destruct (Z.eqb_spec status 401) as [H401|_]; [|reflexivity].
      destruct (Hgate H401) as [-> | ->]; cbn [andb negb];
        rewrite ?andb_false_r; reflexivity. }
  destruct Htry as (err & Htry & Herr & Hst).
  destruct (deliver_thrown w t og e o ks _ _ Ht Htry)
    as (w' & Hs & Hc & He & Hr & Hts & Htr).
  exists w', err. split_and!; auto.
  - rewrite Hts. apply list_lookup_insert_eq. exact Hlt.
  - rewrite Htr. unfold request_catch, status_is_401. rewrite Hst.
    apply app_nil_r.
Qed.

Lemma failure_without_status_is_silent_witness :
  tasks (call (Request "/users/me" [])
              (init (client_with (VStr "T1") VNull VNull true false) browser))
        !! 0%nat
  = Some (Task (ByCaller (Request "/users/me" [])) (WFetch "/users/me" []) [])
  /\ exists w',
       step (Deliver 0 (Response 401 VNull))
            (call (Request "/users/me" [])
                  (init (client_with (VStr "T1") VNull VNull true false)
                        browser)) = Some w'
       /\ settled_with 0 w' = Some (Throw (TypeError "message"))
       /\ auth_error_count (trace w') = 0%nat.
Proof.
  split; [reflexivity|].
  destruct (failure_without_status_is_silent
              (call (Request "/users/me" [])
                    (init (client_with (VStr "T1") VNull VNull true false)
                          browser))
              0%nat (ByCaller (Request "/users/me" [])) "/users/me" [] []
              (Response 401 VNull) eq_refl
              (or_intror (ex_intro _ 401%Z
                            (conj eq_refl
                                  (conj eq_refl
                                        (fun _ => or_introl eq_refl))))))
    as (w' & err & Hs & -> & _ & Ht & Htr & _).
  exists w'. split; [exact Hs|]. unfold settled_with. rewrite Ht, Htr.
  split; reflexivity.
Defined.

(** ** What is handed to [fetch] *)

Section FetchConfig.
Implicit Types (c : client) (o : obj).

Lemma JSON_stringify_object v :
  is_object v = true -> exists s, JSON_stringify v = VStr s.
Proof.
  unfold JSON_stringify. destruct v; try discriminate; intros _;
    cbn [json_text]; eauto.
Qed.

Lemma request_config_get c o k :
  obj_get k (request_config c o)
  = if String.eqb k "body" && js_truthy (obj_get "body" o)
       && is_object (obj_get "body" o)
    then JSON_stringify (obj_get "body" o)
    else obj_get k
           (obj_assign
              [("method", js_or (obj_get "method" o) (VStr "GET"));
               ("headers", VObj (request_headers c o))] o).
Proof.
  unfold request_config.
  destruct (js_truthy (obj_get "body" o) && is_object (obj_get "body" o))
    eqn:Eb.
  - destruct (String.eqb_spec k "body") as [->|Hne].
    + rewrite obj_get_set_eq. rewrite <- andb_assoc, Eb. reflexivity.
    + rewrite obj_get_set_ne by congruence. reflexivity.
  - rewrite <- andb_assoc, Eb, andb_false_r. reflexivity.
Qed.
End FetchConfig.

(** X6.  Line 75-79 spread the descriptor last: every property the
    descriptor has of its own -- [method], [headers], [auth],
    [useDeviceToken], [skipTokenRefresh] or any other -- is handed to
    [fetch] with the descriptor's value, whatever lines 63-76 had prepared
    for that key; only a [body] that is an object or an array is replaced,
    by its JSON text (lines 81-83).  A key the descriptor lacks is ['GET']
    for [method], the prepared headers for [headers], and absent
    otherwise, so a request without a body is sent without one. *)
Theorem descriptor_properties_reach_fetch c o k :
  NoDup (map fst o) ->
  (obj_has k o = true ->
   obj_get k (request_config c o)
   = if String.eqb k "body" && js_truthy (obj_get "body" o)
        && is_object (obj_get "body" o)
     then JSON_stringify (obj_get "body" o)
     else obj_get k o)
  /\ (obj_has k o = false ->
      obj_get k (request_config c o)
      = if String.eqb k "method" then VStr "GET"
        else if String.eqb k "headers" then VObj (request_headers c o)
        else VUndefined)
  /\ (is_object (obj_get "body" o) = true ->
      exists text, obj_get "body" (request_config c o) = VStr text).
Proof.
  intros Hnd. split_and!.
  - intros Hk. rewrite request_config_get.
    rewrite obj_get_assign_present by assumption. reflexivity.
  - intros Hk. rewrite request_config_get.
    rewrite obj_get_assign_absent by exact Hk.
    destruct (String.eqb_spec k "body") as [->|Hne].
    + rewrite (obj_has_get _ _ Hk). reflexivity.
    + cbn [andb obj_get].
      destruct (String.eqb_spec k "method") as [->|_].
      * rewrite (obj_has_get _ _ Hk). reflexivity.
      * destruct (String.eqb k "headers"); reflexivity.
  - intros Hb. rewrite request_config_get. cbn [String.eqb Ascii.eqb Bool.eqb].
    assert (js_truthy (obj_get "body" o) = true) as ->
      by (destruct (obj_get "body" o); try discriminate; reflexivity).
    rewrite Hb. cbn [andb]. apply JSON_stringify_object. exact Hb.
Qed.

Lemma descriptor_properties_reach_fetch_witness :
  NoDup (map fst [("method", VStr "PUT");
                  ("body", VObj [("name", VStr "Sea View")])])
  /\ obj_get "method"
       (request_config demo_client
          [("method", VStr "PUT"); ("body", VObj [("name", VStr "Sea View")])])
     = VStr "PUT"
  /\ obj_get "body"
       (request_config demo_client
          [("method", VStr "PUT"); ("body", VObj [("name", VStr "Sea View")])])
     = JSON_stringify (VObj [("name", VStr "Sea View")]).
Proof.
  assert (Hnd : NoDup (map fst [("method", VStr "PUT");
                                ("body", VObj [("name", VStr "Sea View")])])).
  { repeat constructor; cbn; intros H;
      repeat (apply elem_of_cons in H as [H|H]; [discriminate H|]);
      inversion H. }
  split; [exact Hnd|].
  pose proof (descriptor_properties_reach_fetch demo_client
                [("method", VStr "PUT");
                 ("body", VObj [("name", VStr "Sea View")])]) as P.
  split.
  - exact (proj1 (P "method" Hnd) eq_refl).
  - exact (proj1 (P "body" Hnd) eq_refl).
Defined.

(** X7.  For every descriptor without a [headers] field of its own, the
    request carries [Content-Type: application/json] and at most one
    credential, picked in this order: the device token when
    [useDeviceToken] is set and a device token is held, even if [auth] is
    false; otherwise the access token when [auth] is not false and an
    access token is held -- so a device endpoint called by a client without
    a device token is sent with the user's access token --; otherwise no
    [Authorization] header at all. *)
Theorem credential_priority c o :
  obj_has "headers" o = false ->
  (js_truthy (obj_get "useDeviceToken" o) = true ->
   js_truthy (deviceToken c) = true ->
   sent_authorization (request_config c o)
   = VStr ("Bearer " +:+ to_string (deviceToken c)))
  /\ (js_truthy (obj_get "useDeviceToken" o) && js_truthy (deviceToken c)
      = false ->
      is_false (obj_get "auth" o) = false ->
      js_truthy (token c) = true ->
      sent_authorization (request_config c o)
      = VStr ("Bearer " +:+ to_string (token c)))
  /\ (js_truthy (obj_get "useDeviceToken" o) && js_truthy (deviceToken c)
      = false ->
      is_false (obj_get "auth" o) = true \/ js_truthy (token c) = false ->
      sent_authorization (request_config c o) = VUndefined)
  /\ (exists headers,
         obj_get "headers" (request_config c o) = VObj headers
         /\ obj_get "Content-Type" headers = VStr "application/json"
         /\ forall k, k <> "Content-Type" -> k <> "Authorization" ->
                      obj_get k headers = VUndefined).
Proof.
  intros Hh. rewrite request_config_authorization by exact Hh.
  unfold credential_rule. split_and!.
  - intros -> ->. reflexivity.
  - intros -> -> ->. reflexivity.
  - intros -> [-> | ->]; cbn [negb andb]; rewrite ?andb_false_r; reflexivity.
  - exists (request_headers c o). split; [apply request_config_headers; exact Hh|].
    unfold request_headers. rewrite (obj_has_get _ _ Hh).
    cbn [own_props obj_assign fold_left].
    assert (Hbase : forall v k,
               (k = "Content-Type" ->
                obj_get k (obj_set "Authorization" v
                                   [("Content-Type", VStr "application/json")])
                = VStr "application/json")
               /\ (k <> "Content-Type" -> k <> "Authorization" ->
                   obj_get k (obj_set "Authorization" v
                                      [("Content-Type", VStr "application/json")])
                   = VUndefined)).
    { intros v k. split.
      - intros ->. reflexivity.
      - intros H1 H2. rewrite obj_get_set_ne by congruence.
        cbn [obj_get]. destruct (String.eqb_spec k "Content-Type");
          [contradiction|reflexivity]. }
    destruct (js_truthy (obj_get "useDeviceToken" o) && js_truthy (deviceToken c)).
    { split; [apply Hbase; reflexivity|intros k; apply Hbase]. }
    destruct (negb (is_false (obj_get "auth" o)) && js_truthy (token c)).
    { split; [apply Hbase; reflexivity|intros k; apply Hbase]. }
    split; [reflexivity|]. intros k H1 _. cbn [obj_get].
    destruct (String.eqb_spec k "Content-Type"); [contradiction|reflexivity].
Qed.

Lemma credential_priority_witness :
  obj_has "headers" getDeviceInfo_options = false
  /\ js_truthy (obj_get "useDeviceToken" getDeviceInfo_options)
     && js_truthy (deviceToken demo_client) = false
  /\ is_false (obj_get "auth" getDeviceInfo_options) = false
  /\ js_truthy (token demo_client) = true
  /\ sent_authorization (request_config demo_client getDeviceInfo_options)
     = VStr "Bearer T1".
Proof.
  split; [reflexivity|split; [reflexivity|split; [reflexivity|]]].
  split; [reflexivity|].
  exact (proj1 (proj2 (credential_priority demo_client getDeviceInfo_options
                         eq_refl)) eq_refl eq_refl eq_refl).
Defined.

(** X8.  The request [_refreshAccessToken] sends, for every client: a
    [POST] whose body is the JSON text of [{ refresh_token }] with the
    refresh token held at that moment, with [Content-Type:
    application/json] as its only header -- no [Authorization], whatever
    access or device token is held -- and marked [skipTokenRefresh]; and a
    caller that meets a 401 while no refresh is in progress sends exactly
    this request to [baseURL + '/auth/refresh'] and nothing else. *)
Theorem refresh_request_shape w t og e o ks data :
  tasks w !! t = Some (Task og (WFetch e o) ks) ->
  js_truthy (refreshToken (cl w)) = true ->
  js_truthy (obj_get "skipTokenRefresh" o) = false ->
  isRefreshing (cl w) = false ->
  let config := request_config (cl w) (refresh_options (cl w)) in
  obj_get "method" config = VStr "POST"
  /\ obj_get "body" config
     = JSON_stringify (VObj [("refresh_token", refreshToken (cl w))])
  /\ obj_get "headers" config = VObj [("Content-Type", VStr "application/json")]
  /\ sent_authorization config = VUndefined
  /\ js_truthy (obj_get "skipTokenRefresh" config) = true
  /\ exists w',
       step (Deliver t (Response 401 data)) w = Some w'
       /\ trace w'
          = trace w ++ [EvFetch (length (tasks w))
                                (baseURL (cl w) +:+ "/auth/refresh") config].
Proof.
  intros Ht Hrt Hskip Hidle config.
  split; [reflexivity|]. split; [reflexivity|]. split; [reflexivity|].
  split; [reflexivity|]. split; [reflexivity|].
  rewrite (step_deliver _ _ _ _ _ _ _ Ht). unfold deliver.
  rewrite request_try_401_refresh by assumption.
  destruct (refreshAccessToken_idle w Hidle)
    as (w1 & -> & _ & _ & _ & _ & _ & _ & _ & _ & Htr).
  eexists. split; [reflexivity|]. simpl. rewrite Htr. reflexivity.
Qed.

Lemma refresh_request_shape_witness :
  tasks (call (Request "/users/me" []) (init demo_client browser)) !! 0%nat
  = Some (Task (ByCaller (Request "/users/me" [])) (WFetch "/users/me" []) [])
  /\ sent_authorization
       (request_config demo_client (refresh_options demo_client))
     = VUndefined
  /\ obj_get "body" (request_config demo_client (refresh_options demo_client))
     = JSON_stringify (VObj [("refresh_token", VStr "R1")]).
Proof.
  split; [reflexivity|].
  destruct (refresh_request_shape
              (call (Request "/users/me" []) (init demo_client browser))
              0%nat (ByCaller (Request "/users/me" [])) "/users/me" [] []
              (VObj []) eq_refl eq_refl eq_refl eq_refl)
    as (_ & Hbody & _ & Hauth & _).
  split; [exact Hauth|exact Hbody].
Defined.

(** ** What a segment emits and what it leaves alone *)

Section Segments.
Implicit Types (w : world).

Lemma store_tokens_trace out w :
  trace (snd (store_tokens out w)) = trace w
  \/ (exists data ex,
         out = Ok data /\ fst (store_tokens out w) = Ok data
         /\ onTokenRefresh (cl w) = true
         /\ prop data "token" = Ok (token (cl (snd (store_tokens out w))))
         /\ prop data "refresh_token"
            = Ok (refreshToken (cl (snd (store_tokens out w))))
         /\ prop data "expires_at" = Ok ex
         /\ trace (snd (store_tokens out w))
            = trace w
              ++ [EvTokenRefresh
                    [("token", token (cl (snd (store_tokens out w))));
                     ("refreshToken",
                      refreshToken (cl (snd (store_tokens out w))));
                     ("expiresAt", ex)]]).
Proof.
  unfold store_tokens, adopt_tokens. destruct out as [data|e]; [|auto].
  destruct data; cbn [prop bind]; auto;
    cbn [with_client cl onTokenRefresh set_tokens];
    destruct (onTokenRefresh (cl w)) eqn:Hc; cbn [snd fst]; auto;
    right; eexists _, _; split_and!; reflexivity.
Qed.

Lemma request_catch_cases c err :
  request_catch c err = []
  \/ (status_is_401 err = true /\ onAuthError c = true
      /\ request_catch c err = [EvAuthError err (getTokens c)]).
Proof.
  unfold request_catch.
  destruct (status_is_401 err), (onAuthError c); auto.
Qed.

(** A segment adds at most one event to the trace, and only for a cause
    lines 62-110, 133-142 and 825-836 give. *)
Lemma step_emits l w w' :
  step l w = Some w' ->
  trace w' = trace w
  \/ exists ev, trace w' = trace w ++ [ev] /\ emitted l w w' ev.
Proof.
  intros Hs. destruct l as [op|t r|t]; simpl in Hs.
  - inversion Hs; subst w'; clear Hs.
    destruct op; cbn [call]; auto; right; eexists;
      (split; [reflexivity|]); cbn [emitted fetch_event request_url];
      eexists _, _; split; reflexivity.
  - destruct (tasks w !! t) as [[og [e o|p e o|out] ks]|] eqn:Ht;
      try discriminate.
    inversion Hs; subst w'; clear Hs. unfold deliver.
    destruct (request_try (cl w) o r) as [v|err|]; cbn [set_task trace emit cl].
    + auto.
    + destruct (request_catch_cases (cl w) err) as [->|(H4 & Hc & ->)].
      * left. apply app_nil_r.
      * right. eexists. split; [reflexivity|]. cbn [emitted]. auto.
    + destruct (isRefreshing (cl w)) eqn:Hb.
      * rewrite refreshAccessToken_busy by exact Hb. auto.
      * destruct (refreshAccessToken_idle w Hb)
          as (w1 & -> & _ & _ & _ & _ & _ & _ & _ & _ & Htr).
        right. eexists. cbn [set_task trace]. split; [exact Htr|].
        cbn [emitted fetch_event request_url]. eexists _, _.
        split; reflexivity.
  - destruct (tasks w !! t) as [[og [e o|p e o|out] ks]|] eqn:Ht;
      try discriminate.
    + destruct (awaited p w) as [out|]; [|discriminate].
      inversion Hs; subst w'; clear Hs. unfold after_refresh.
      destruct out as [v|err]; cbn [set_task trace emit cl].
      * right. eexists. split; [reflexivity|].
        cbn [emitted fetch_event request_url]. eexists _, _.
        split; reflexivity.
      * destruct (request_catch_cases (cl w) err) as [->|(H4 & Hc & ->)].
        -- left. apply app_nil_r.
        -- right. eexists. split; [reflexivity|]. cbn [emitted]. auto.
    + destruct ks as [|k ks]; [discriminate|].
      destruct (stores_tokens k) eqn:Hk.
      * destruct (run_frame_stores k out w Hk) as (Ho & Htk & Hrt & _ & _ & _).
        assert (Htr : trace (snd (run_frame k out w))
                      = trace (snd (store_tokens out w))).
        { destruct k; try discriminate; cbn [run_frame];
            destruct (store_tokens out w); reflexivity. }
        destruct (run_frame k out w) as [out' w1] eqn:Hrun.
        inversion Hs; subst w'; clear Hs. cbn [set_task trace cl].
        cbn [fst snd] in Ho, Htk, Hrt, Htr. rewrite Htr.
        destruct (store_tokens_trace out w)
          as [->|(data & ex & -> & _ & Hc & Hp1 & Hp2 & Hp3 & ->)]; [auto|].
        rewrite <- Htk, <- Hrt in *.
        right. eexists. split; [reflexivity|]. cbn [emitted].
        exists t, og, k, ks, data, ex. cbn [set_task cl]. split_and!; auto.
      * destruct k; try discriminate.
        -- cbn [run_frame] in Hs.
           destruct out; inversion Hs; subst w'; auto.
        -- cbn [run_frame] in Hs. destruct out as [data|err].
           ++ destruct (prop data "device_token") as [d|err];
                inversion Hs; subst w'; auto.
              destruct (js_truthy d); auto.
           ++ inversion Hs; subst w'; auto.
        -- destruct out as [v|err].
           { cbn [run_frame] in Hs. inversion Hs; subst w'; auto. }
           destruct (status_is_401 err) eqn:H4.
           ++ destruct (getDeviceInfo_catch_401 w t og err ks Ht H4)
                as (w2 & Hs2 & Htk & Hrt & Hdv & Htr & _).
              simpl in Hs2. rewrite Ht in Hs2. rewrite Hs2 in Hs.
              inversion Hs; subst w2; clear Hs.
              assert (Hnone : getTokens (cl w') = no_credentials).
              { unfold getTokens. rewrite Htk, Hrt, Hdv. reflexivity. }
              rewrite Htr.
              destruct (onDeviceSessionInvalid (cl w)) eqn:Hc.
              { right. eexists. split; [reflexivity|]. cbn [emitted]. auto. }
              destruct (window_location (env w)) eqn:Hw.
              { right. eexists. split; [reflexivity|]. cbn [emitted]. auto. }
              left. apply app_nil_r.
           ++ cbn [run_frame] in Hs. rewrite H4 in Hs.
              inversion Hs; subst w'; auto.
Qed.

Lemma clearTokens_configuration w :
  configuration (cl (clearTokens w)) = configuration (cl w)
  /\ window_location (env (clearTokens w)) = window_location (env w).
Proof.
  unfold clearTokens. split; [reflexivity|]. simpl.
  destruct (storage (cl w)) as [[]|]; reflexivity.
Qed.

(** No segment assigns the base URL, a callback, the storage or its key,
    and none makes [window] come or go. *)
Lemma step_configuration l w w' :
  step l w = Some w' ->
  configuration (cl w') = configuration (cl w)
  /\ window_location (env w') = window_location (env w).
Proof.
  intros Hs. destruct l as [op|t r|t]; simpl in Hs.
  - inversion Hs; subst w'; clear Hs.
    destruct op; cbn [call]; auto.
    apply clearTokens_configuration.
  - destruct (tasks w !! t) as [[og [e o|p e o|out] ks]|] eqn:Ht;
      try discriminate.
    inversion Hs; subst w'; clear Hs. unfold deliver.
    destruct (request_try (cl w) o r); auto.
    unfold refreshAccessToken. destruct (isRefreshing (cl w)); auto.
  - destruct (tasks w !! t) as [[og [e o|p e o|out] ks]|] eqn:Ht;
      try discriminate.
    + destruct (awaited p w) as [out|]; [|discriminate].
      inversion Hs; subst w'; clear Hs. destruct out; auto.
    + destruct ks as [|k ks]; [discriminate|].
      assert (Hf : configuration (cl (snd (run_frame k out w)))
                   = configuration (cl w)
                   /\ window_location (env (snd (run_frame k out w)))
                      = window_location (env w)).
      { assert (Hst : configuration (cl (snd (store_tokens out w)))
                      = configuration (cl w)
                      /\ window_location (env (snd (store_tokens out w)))
                         = window_location (env w)).
        { unfold store_tokens, adopt_tokens. destruct out as [data|err]; auto.
          destruct data; cbn [prop bind snd]; auto;
            cbn [with_client cl onTokenRefresh set_tokens];
            destruct (onTokenRefresh (cl w)); auto. }
        destruct k; cbn [run_frame].
        - destruct (store_tokens out w) as [o1 w1]. exact Hst.
        - exact Hst.
        - exact Hst.
        - destruct out; auto.
        - destruct out as [data|err]; auto.
          destruct (prop data "device_token") as [d|err]; auto.
          cbn [snd]. destruct (js_truthy d); auto.
        - destruct out as [v|err]; auto. cbn [snd].
          destruct (status_is_401 err); auto.
          unfold device_session_invalid.
          pose proof (clearTokens_configuration w) as Hcl.
          destruct (onDeviceSessionInvalid (cl (clearTokens w))); [exact Hcl|].
          destruct (window_location (env (clearTokens w))) eqn:Hw;
            cbn [emit cl env]; rewrite ?Hw; exact Hcl. }
      destruct (run_frame k out w) as [out' w1].
      inversion Hs; subst w'; clear Hs. exact Hf.
Qed.

Lemma reachable_configuration w0 w :
  reachable w0 w ->
  configuration (cl w) = configuration (cl w0)
  /\ window_location (env w) = window_location (env w0).
Proof.
  induction 1 as [|l w w' _ [IH1 IH2] Hs]; [auto|].
  destruct (step_configuration l w w' Hs) as [-> ->]. auto.
Qed.

Lemma emitted_sound c0 h0 l w w' ev :
  configuration (cl w) = configuration c0 ->
  window_location (env w) = window_location h0 ->
  emitted l w w' ev -> event_sound c0 h0 ev.
Proof.
  unfold configuration. intros [= Hb Htr Hae Hds _ _] Hw.
  destruct ev; cbn [emitted event_sound].
  - intros (e & o & -> & _). rewrite Hb. eauto.
  - intros (t & og & k & ks & data & ex & _ & _ & _ & Hc & _ & _ & _ & ->).
    split; [congruence|reflexivity].
  - intros (H4 & Hc & _). split; [exact H4|congruence].
  - intros (Hc & -> & _). split; [congruence|reflexivity].
  - intros (Hc & Hl & -> & _). split_and!; [congruence|congruence|reflexivity].
Qed.

Lemma reachable_events_sound c h w :
  reachable (init c h) w -> Forall (event_sound c h) (trace w).
Proof.
  induction 1 as [|l w w' Hr IH Hs]; [constructor|].
  destruct (reachable_configuration _ _ Hr) as [Hc Hw].
  destruct (step_emits l w w' Hs) as [->|(ev & -> & Hev)]; [exact IH|].
  apply Forall_app. split; [exact IH|]. constructor; [|constructor].
  eapply emitted_sound; eauto.
Qed.

Lemma store_tokens_ok data w :
  nullish data = false ->
  exists tk rt ex,
    prop data "token" = Ok tk /\ prop data "refresh_token" = Ok rt
    /\ prop data "expires_at" = Ok ex
    /\ fst (store_tokens (Ok data) w) = Ok data
    /\ token (cl (snd (store_tokens (Ok data) w))) = tk
    /\ refreshToken (cl (snd (store_tokens (Ok data) w))) = rt
    /\ trace (snd (store_tokens (Ok data) w))
       = trace w ++ (if onTokenRefresh (cl w)
                     then [EvTokenRefresh [("token", tk); ("refreshToken", rt);
                                           ("expiresAt", ex)]]
                     else []).
Proof.
  intros Hn. unfold store_tokens, adopt_tokens.
  destruct data; try discriminate; cbn [prop bind];
    cbn [with_client cl onTokenRefresh set_tokens];
    destruct (onTokenRefresh (cl w)); simpl;
    eexists _, _, _; rewrite ?app_nil_r; split_and!; reflexivity.
Qed.
End Segments.

(** X9.  Whatever the application calls and whatever the server answers,
    no method assigns the base URL, a callback, the storage or its key, and
    every URL handed to [fetch] is the configured base URL followed by the
    endpoint (line 62), the refresh request and the retries included. *)
Theorem requests_stay_on_base_url c h w t url config :
  reachable (init c h) w ->
  EvFetch t url config ∈ trace w ->
  configuration (cl w) = configuration c
  /\ exists endpoint, url = baseURL c +:+ endpoint.
Proof.
  intros Hr Hin. split; [apply (reachable_configuration _ _ Hr)|].
  pose proof (reachable_events_sound c h w Hr) as Hall.
  rewrite Forall_forall in Hall. exact (Hall _ Hin).
Qed.

Lemma requests_stay_on_base_url_witness :
  configuration (cl rejected_once)
  = configuration (client_with (VStr "T1") VNull VNull true false)
  /\ exists endpoint,
       "https://api.welcomesign.com/users/me"
       = baseURL (client_with (VStr "T1") VNull VNull true false) +:+ endpoint.
Proof.
  apply (requests_stay_on_base_url
           (client_with (VStr "T1") VNull VNull true false) browser
           rejected_once 0%nat "https://api.welcomesign.com/users/me"
           (request_config (client_with (VStr "T1") VNull VNull true false) [])).
  - apply (run_reachable
             [Call (Request "/users/me" []); Deliver 0 unauthorized]
             _ (init (client_with (VStr "T1") VNull VNull true false) browser));
      [constructor|reflexivity].
  - apply (list_elem_of_lookup_2 _ 0%nat). reflexivity.
Defined.

(** X10.  In every trace of the client each callback is called only for its
    cause: [onAuthError] only when registered and only with an error whose
    status is 401 (lines 106-108); [onTokenRefresh] only when registered, with
    an object of exactly the keys token, refreshToken and expiresAt;
    [onDeviceSessionInvalid] only when registered and the page reload only
    when it is not and the host has [window.location], both with every
    credential already null (lines 825-836). *)
Theorem callbacks_fire_only_for_their_cause c h w ev :
  reachable (init c h) w -> ev ∈ trace w -> callback_sound c h ev.
Proof.
  intros Hr Hin.
  pose proof (reachable_events_sound c h w Hr) as Hall.
  rewrite Forall_forall in Hall. specialize (Hall _ Hin).
  destruct ev; [exact I|exact Hall..].
Qed.

Lemma callbacks_fire_only_for_their_cause_witness :
  callback_sound (client_with (VStr "T1") VNull VNull true false) browser
    (EvAuthError (ApiError "Token expired" 401
                           (VObj [("message", VStr "Token expired")]))
                 [("token", VStr "T1"); ("refreshToken", VNull);
                  ("deviceToken", VNull)]).
Proof.
  apply (callbacks_fire_only_for_their_cause
           (client_with (VStr "T1") VNull VNull true false) browser
           rejected_once).
  - apply (run_reachable
             [Call (Request "/users/me" []); Deliver 0 unauthorized]
             _ (init (client_with (VStr "T1") VNull VNull true false) browser));
      [constructor|reflexivity].
  - apply (list_elem_of_lookup_2 _ 1%nat). reflexivity.
Defined.

(** X11.  [onTokenRefresh] and the stored pair go together (lines 133-142,
    176-185, 204-213).  A segment adds at most one call of [onTokenRefresh],
    and only the continuation of a register, login or refresh whose response
    [data] it has just stored does, with the stored values.  Conversely such
    a continuation, given a [data] that is not null, stores [data.token] and
    [data.refresh_token] and calls the registered callback exactly once with
    { token, refreshToken, expiresAt: data.expires_at }; without a callback
    the trace is unchanged. *)
Theorem token_refresh_notified_with_stored_pair l w w' :
  step l w = Some w' ->
  (token_refresh_events (trace w') = token_refresh_events (trace w)
   \/ exists payload,
        token_refresh_events (trace w')
        = token_refresh_events (trace w) ++ [EvTokenRefresh payload]
        /\ emitted l w w' (EvTokenRefresh payload))
  /\ (forall t og k ks data,
        l = Resume t ->
        tasks w !! t = Some (Task og (WSettled (Ok data)) (k :: ks)) ->
        stores_tokens k = true -> nullish data = false ->
        exists tk rt ex,
          prop data "token" = Ok tk /\ prop data "refresh_token" = Ok rt
          /\ prop data "expires_at" = Ok ex
          /\ token (cl w') = tk /\ refreshToken (cl w') = rt
          /\ trace w'
             = trace w ++ (if onTokenRefresh (cl w)
                           then [EvTokenRefresh [("token", tk);
                                                 ("refreshToken", rt);
                                                 ("expiresAt", ex)]]
                           else [])).
Proof.
  intros Hs. split.
  - destruct (step_emits l w w' Hs) as [->|(ev & -> & Hev)]; [auto|].
    unfold token_refresh_events. rewrite filter_app.
    destruct ev;
      try (left; rewrite filter_cons_False by (cbn; discriminate);
           rewrite filter_nil; apply app_nil_r).
    right. eexists. split; [|exact Hev].
    rewrite filter_cons_True by reflexivity. reflexivity.
  - intros t og k ks data -> Ht Hk Hn.
    rewrite (step_resume_frame w t og (Ok data) k ks Ht) in Hs.
    inversion Hs; subst w'; clear Hs. cbn [set_task cl trace].
    destruct (run_frame_stores k (Ok data) w Hk) as (_ & Htk & Hrt & _).
    assert (Htr : trace (snd (run_frame k (Ok data) w))
                  = trace (snd (store_tokens (Ok data) w))).
    { destruct k; try discriminate; cbn [run_frame];
        destruct (store_tokens (Ok data) w); reflexivity. }
    destruct (store_tokens_ok data w Hn)
      as (tk & rt & ex & H1 & H2 & H3 & _ & H5 & H6 & H7).
    exists tk, rt, ex. rewrite Htk, Hrt, Htr. auto 10.
Qed.

Lemma token_refresh_notified_with_stored_pair_witness :
  step (Resume 0) login_notified = Some login_stored
  /\ token (cl login_stored) = VStr "T2"
  /\ refreshToken (cl login_stored) = VStr "R2"
  /\ trace login_stored
     = trace login_notified
       ++ [EvTokenRefresh [("token", VStr "T2"); ("refreshToken", VStr "R2");
                           ("expiresAt", VNum 1767225600)]].
Proof.
  assert (Hs : step (Resume 0) login_notified = Some login_stored)
    by reflexivity.
  split; [exact Hs|].
  destruct (token_refresh_notified_with_stored_pair _ _ _ Hs) as [_ H].
  destruct (H 0%nat
              (ByCaller (Login (VStr "owner@example.com") (VStr "secret-1")))
              FLogin []
              (VObj [("token", VStr "T2"); ("refresh_token", VStr "R2");
                     ("expires_at", VNum 1767225600)])
              eq_refl eq_refl eq_refl eq_refl)
    as (tk & rt & ex & H1 & H2 & H3 & H4 & H5 & H6).
  injection H1 as <-. injection H2 as <-. injection H3 as <-.
  split; [exact H4|]. split; [exact H5|exact H6].
Defined.

(** X12.  Who writes the device token.  A segment leaves [deviceToken] as it
    was unless it is [setDeviceToken(d)] (line 865), [clearTokens()] (line
    307), the continuation of a [registerDevice] whose response carries a
    truthy [device_token] (lines 785-787), or the catch of a [getDeviceInfo]
    that failed with status 401 (lines 819-823).  So login, logout, register,
    the token refresh and [setTokens] never touch it, and a registration
    answered without [device_token] keeps the one held. *)
Theorem device_token_writers l w w' :
  step l w = Some w' ->
  deviceToken (cl w') = deviceToken (cl w)
  \/ (exists d, l = Call (SetDeviceToken d) /\ deviceToken (cl w') = d)
  \/ (l = Call ClearTokens /\ deviceToken (cl w') = VNull)
  \/ (exists t og ks data d,
        l = Resume t
        /\ tasks w !! t
           = Some (Task og (WSettled (Ok data)) (FRegisterDevice :: ks))
        /\ prop data "device_token" = Ok d /\ js_truthy d = true
        /\ deviceToken (cl w') = d)
  \/ (exists t og ks e,
        l = Resume t
        /\ tasks w !! t
           = Some (Task og (WSettled (Throw e)) (FGetDeviceInfo :: ks))
        /\ status_is_401 e = true /\ deviceToken (cl w') = VNull).
Proof.
  intros Hs. destruct l as [op|t r|t]; simpl in Hs.
  - inversion Hs; subst w'; clear Hs.
    destruct op; cbn [call]; auto.
    right. left. eauto.
  - destruct (tasks w !! t) as [[og [e o|p e o|out] ks]|] eqn:Ht;
      try discriminate.
    inversion Hs; subst w'; clear Hs.
    left. apply deliver_credentials.
  - destruct (tasks w !! t) as [[og [e o|p e o|out] ks]|] eqn:Ht;
      try discriminate.
    + destruct (awaited p w) as [out|]; [|discriminate].
      inversion Hs; subst w'; clear Hs. left.
      destruct (after_refresh_client t og e o ks out w) as [-> _]. reflexivity.
    + destruct ks as [|k ks]; [discriminate|].
      destruct (stores_tokens k) eqn:Hk.
      * destruct (run_frame_stores k out w Hk) as (_ & _ & _ & Hd & _).
        destruct (run_frame k out w) as [out' w1].
        inversion Hs; subst w'; clear Hs. cbn [set_task cl].
        cbn [snd] in Hd. left. rewrite Hd.
        destruct (store_tokens_spec out w)
          as [(data & _ & _ & _ & _ & _ & H & _)|(e & _ & -> & _)]; auto.
      * destruct k; try discriminate; cbn [run_frame] in Hs.
        -- destruct out; inversion Hs; subst w'; auto.
        -- destruct out as [data|err]; [|inversion Hs; subst w'; auto].
           destruct (prop data "device_token") as [d|err] eqn:Hp;
             [|inversion Hs; subst w'; auto].
           destruct (js_truthy d) eqn:Hd; inversion Hs; subst w'; auto.
           right. right. right. left.
           exists t, og, ks, data, d. auto.
        -- destruct out as [v|err]; [inversion Hs; subst w'; auto|].
           destruct (status_is_401 err) eqn:H4;
             inversion Hs; subst w'; auto.
           right. right. right. right. exists t, og, ks, err.
           split_and!; auto. cbn [set_task cl].
           apply device_session_invalid_credentials.
Qed.

Lemma device_token_writers_witness :
  deviceToken (cl (call (SetDeviceToken (VStr "D2"))
                        (init device_client browser)))
  = deviceToken (cl (init device_client browser))
  \/ (exists d,
        Call (SetDeviceToken (VStr "D2")) = Call (SetDeviceToken d)
        /\ deviceToken (cl (call (SetDeviceToken (VStr "D2"))
                                 (init device_client browser))) = d)
  \/ (Call (SetDeviceToken (VStr "D2")) = Call ClearTokens
      /\ deviceToken (cl (call (SetDeviceToken (VStr "D2"))
                               (init device_client browser))) = VNull)
  \/ (exists t og ks data d,
        Call (SetDeviceToken (VStr "D2")) = Resume t
        /\ tasks (init device_client browser) !! t
           = Some (Task og (WSettled (Ok data)) (FRegisterDevice :: ks))
        /\ prop data "device_token" = Ok d /\ js_truthy d = true
        /\ deviceToken (cl (call (SetDeviceToken (VStr "D2"))
                                 (init device_client browser))) = d)
  \/ (exists t og ks e,
        Call (SetDeviceToken (VStr "D2")) = Resume t
        /\ tasks (init device_client browser) !! t
           = Some (Task og (WSettled (Throw e)) (FGetDeviceInfo :: ks))
        /\ status_is_401 e = true
        /\ deviceToken (cl (call (SetDeviceToken (VStr "D2"))
                                 (init device_client browser))) = VNull).
Proof.
  exact (device_token_writers (Call (SetDeviceToken (VStr "D2")))
           (init device_client browser)
           (call (SetDeviceToken (VStr "D2")) (init device_client browser))
           eq_refl).
Defined.

(** X13.  A refresh in progress can always finish (lines 121-149).  In every
    world reached from an idle client, while [isRefreshing] is true the
    refresh promise is pending and there is exactly the refresh request to
    wait for: whatever the server answers to it -- success, 401, 500, a body
    that is null -- the answer and the arrow's [finally] reset [isRefreshing]
    and [refreshPromise] and settle the promise; the flag cannot stay set. *)
Theorem refresh_in_progress_always_completes c h w :
  isRefreshing c = false -> refreshPromise c = None ->
  reachable (init c h) w ->
  isRefreshing (cl w) = true ->
  exists t r,
    refreshPromise (cl w) = Some r /\ refreshes w !! r = Some None
    /\ ((exists e o,
           tasks w !! t = Some (Task (ByRefresh r) (WFetch e o) [FRefresh r])
           /\ forall rsp, exists w1 w2 out,
                step (Deliver t rsp) w = Some w1
                /\ step (Resume t) w1 = Some w2
                /\ isRefreshing (cl w2) = false
                /\ refreshPromise (cl w2) = None
                /\ refreshes w2 !! r = Some (Some out))
        \/ (exists out0,
              tasks w !! t
              = Some (Task (ByRefresh r) (WSettled out0) [FRefresh r])
              /\ exists w2 out,
                   step (Resume t) w = Some w2
                   /\ isRefreshing (cl w2) = false
                   /\ refreshPromise (cl w2) = None
                   /\ refreshes w2 !! r = Some (Some out))).
Proof.
  intros Hi Hp Hr Hb.
  assert (Hco : coordinated w)
    by (eapply reachable_coordinated; [apply coordinated_init|]; eauto).
  destruct (co_busy w Hco Hb) as (r & t & tk & Hpr & Hpend & Ht & Hrf).
  exists t, r. split; [exact Hpr|]. split; [exact Hpend|].
  destruct tk as [og wt ks]. destruct Hrf as (Hog & Hks & Hwt).
  cbn [origin_of callers waiting] in Hog, Hks, Hwt. subst og ks.
  destruct wt as [e o|p e o|out0]; [|contradiction|].
  - left. exists e, o. split; [exact Ht|]. intros rsp.
    assert (Hlt : (t < length (tasks w))%nat) by (eapply lookup_lt_Some; eauto).
    pose proof (step_deliver w t _ e o _ rsp Ht) as Hs1.
    pose proof (deliver_task t (ByRefresh r) e o [FRefresh r] rsp w Hlt) as Ht1.
    assert (Hco1 : coordinated (deliver t (ByRefresh r) e o [FRefresh r] rsp w))
      by (eapply step_coordinated; eauto).
    destruct (request_try (cl w) o rsp) as [v|err|] eqn:Htry.
    + destruct (coordinated_resets _ Hco1 t _ _ r [] Ht1)
        as (w2 & out & Hs2 & _ & _ & H1 & H2 & H3 & _).
      eexists _, w2, out. split; [exact Hs1|]. auto.
    + destruct (coordinated_resets _ Hco1 t _ _ r [] Ht1)
        as (w2 & out & Hs2 & _ & _ & H1 & H2 & H3 & _).
      eexists _, w2, out. split; [exact Hs1|]. auto.
    + apply request_try_MustRefresh in Htry as (_ & _ & Hskip). congruence.
  - right. exists out0. split; [exact Ht|].
    destruct (coordinated_resets _ Hco t _ _ r [] Ht)
      as (w2 & out & Hs2 & _ & _ & H1 & H2 & H3 & _).
    exists w2, out. auto.
Qed.

Lemma refresh_in_progress_always_completes_witness :
  exists t r,
    refreshPromise (cl one_waiting) = Some r
    /\ refreshes one_waiting !! r = Some None
    /\ ((exists e o,
           tasks one_waiting !! t
           = Some (Task (ByRefresh r) (WFetch e o) [FRefresh r])
           /\ forall rsp, exists w1 w2 out,
                step (Deliver t rsp) one_waiting = Some w1
                /\ step (Resume t) w1 = Some w2
                /\ isRefreshing (cl w2) = false
                /\ refreshPromise (cl w2) = None
                /\ refreshes w2 !! r = Some (Some out))
        \/ (exists out0,
              tasks one_waiting !! t
              = Some (Task (ByRefresh r) (WSettled out0) [FRefresh r])
              /\ exists w2 out,
                   step (Resume t) one_waiting = Some w2
                   /\ isRefreshing (cl w2) = false
                   /\ refreshPromise (cl w2) = None
                   /\ refreshes w2 !! r = Some (Some out))).
Proof.
  apply (refresh_in_progress_always_completes demo_client browser one_waiting).
  - reflexivity.
  - reflexivity.
  - apply (run_reachable one_of_two_unauthorized _ (init demo_client browser));
      [constructor|reflexivity].
  - reflexivity.
Defined.

(** ** The storages *)

Section Storage.
Implicit Types (w : world) (c : client) (h : host) (s : gmap string string).

Lemma remove_keys_lookup ks s k :
  remove_keys ks s !! k = if decide (k ∈ ks) then None else s !! k.
Proof.
  unfold remove_keys. revert s. induction ks as [|k' ks IH]; intros s.
  - cbn [fold_left]. destruct (decide (k ∈ [])) as [Hin|_]; [|reflexivity].
    inversion Hin.
  - cbn [fold_left]. rewrite IH.
    destruct (decide (k ∈ ks)) as [Hin|Hnin].
    + rewrite decide_True by (right; exact Hin). reflexivity.
    + destruct (decide (k = k')) as [->|Hne].
      * rewrite decide_True by left. apply lookup_delete_eq.
      * rewrite decide_False by (rewrite elem_of_cons; tauto).
        apply lookup_delete_ne. congruence.
Qed.

(** What [getItem] finds after [clearTokens]. *)
Lemma clearTokens_getItem w ref k :
  getItem ref k (env (clearTokens w)) = None
  \/ getItem ref k (env (clearTokens w)) = getItem ref k (env w).
Proof.
  unfold clearTokens, getItem. cbn [env cl storage set_deviceToken set_tokens
    storageKey].
  destruct (storage (cl w)) as [[]|], ref;
    cbn [storage_of storage_removeItem localStorage sessionStorage appStorage];
    try destruct (localStorage (env w)) as [L|];
    try destruct (sessionStorage (env w)) as [S|];
    cbn [fmap option_fmap option_map]; auto;
    rewrite ?remove_keys_lookup;
    try match goal with
        | |- context [decide (?a ∈ ?b)] => destruct (decide (a ∈ b)); auto
        end;
    match goal with
    | |- context [delete ?a ?m !! ?b] =>
        destruct (decide (a = b)) as [->|];
        [rewrite lookup_delete_eq|rewrite lookup_delete_ne by assumption];
        auto
    end.
Qed.

Lemma clearTokens_removes w ref k :
  is_cleared (cl w) ref k -> getItem ref k (env (clearTokens w)) = None.
Proof.
  unfold is_cleared, cleared_keys, clearTokens, getItem.
  cbn [env cl storage set_deviceToken set_tokens storageKey].
  intros [[Hst ->]|[Hne Hin]].
  - rewrite Hst.
    destruct ref;
      cbn [storage_of storage_removeItem localStorage sessionStorage appStorage];
      try destruct (localStorage (env w)) as [L|];
      try destruct (sessionStorage (env w)) as [S|];
      cbn [fmap option_fmap option_map]; auto;
      rewrite ?remove_keys_lookup;
      try match goal with
          | |- context [decide (?a ∈ ?b)] => destruct (decide (a ∈ b)); auto
          end;
      apply lookup_delete_eq.
  - destruct (storage (cl w)) as [[]|], ref; try congruence;
      cbn [storage_of storage_removeItem localStorage sessionStorage appStorage];
      try destruct (localStorage (env w)) as [L|];
      try destruct (sessionStorage (env w)) as [S|];
      cbn [fmap option_fmap option_map]; auto;
      rewrite remove_keys_lookup, decide_True by exact Hin; reflexivity.
Qed.

Lemma clearTokens_keeps w ref k :
  ~ is_cleared (cl w) ref k ->
  getItem ref k (env (clearTokens w)) = getItem ref k (env w).
Proof.
  unfold is_cleared, cleared_keys, clearTokens, getItem.
  cbn [env cl storage set_deviceToken set_tokens storageKey].
  intros Hn.
  destruct (storage (cl w)) as [[]|] eqn:Hst, ref;
    cbn [storage_of storage_removeItem localStorage sessionStorage appStorage];
    try destruct (localStorage (env w)) as [L|];
    try destruct (sessionStorage (env w)) as [S|];
    cbn [fmap option_fmap option_map]; auto;
    rewrite ?remove_keys_lookup;
    try match goal with
        | |- context [decide (?a ∈ ?b)] =>
            destruct (decide (a ∈ b)) as [Hin|_];
            [exfalso; apply Hn; right; split; [discriminate|exact Hin]|]
        end;
    try reflexivity;
    apply lookup_delete_ne; intros <-; apply Hn; left; auto.
Qed.

Lemma remove_keys_idemp ks s : remove_keys ks (remove_keys ks s) = remove_keys ks s.
Proof.
  apply map_eq. intros k. rewrite !remove_keys_lookup.
  destruct (decide (k ∈ ks)); reflexivity.
Qed.

Lemma remove_keys_delete ks k s :
  remove_keys ks (delete k (remove_keys ks (delete k s)))
  = remove_keys ks (delete k s).
Proof.
  apply map_eq. intros j. rewrite !remove_keys_lookup.
  destruct (decide (j ∈ ks)); [reflexivity|].
  destruct (decide (k = j)) as [->|Hne].
  - rewrite !lookup_delete_eq. reflexivity.
  - rewrite !lookup_delete_ne by exact Hne. rewrite remove_keys_lookup.
    rewrite decide_False by assumption. rewrite lookup_delete_ne by exact Hne.
    reflexivity.
Qed.

Lemma clearTokens_idemp w : clearTokens (clearTokens w) = clearTokens w.
Proof.
  unfold clearTokens.
  cbn [env cl storage set_deviceToken set_tokens storageKey tasks refreshes
       trace baseURL onTokenRefresh onAuthError onDeviceSessionInvalid
       isRefreshing refreshPromise token refreshToken deviceToken].
  f_equal.
  destruct (storage (cl w)) as [[]|];
    cbn [storage_removeItem localStorage sessionStorage appStorage
         window_location];
    try destruct (localStorage (env w)) as [L|];
    try destruct (sessionStorage (env w)) as [S|];
    cbn [fmap option_fmap option_map];
    rewrite ?remove_keys_delete, ?remove_keys_idemp, ?delete_delete_eq;
    reflexivity.
Qed.

(** A segment leaves the storages alone or does to them what [clearTokens]
    does. *)
Lemma step_env l w w' :
  step l w = Some w' ->
  env w' = env w
  \/ (env w' = env (clearTokens w)
      /\ (l = Call ClearTokens
          \/ exists t og ks e,
               l = Resume t
               /\ tasks w !! t
                  = Some (Task og (WSettled (Throw e)) (FGetDeviceInfo :: ks))
               /\ status_is_401 e = true)).
Proof.
  intros Hs. destruct l as [op|t r|t]; simpl in Hs.
  - inversion Hs; subst w'; clear Hs. destruct op; cbn [call]; auto.
  - destruct (tasks w !! t) as [[og [e o|p e o|out] ks]|] eqn:Ht;
      try discriminate.
    inversion Hs; subst w'; clear Hs. left. apply deliver_credentials.
  - destruct (tasks w !! t) as [[og [e o|p e o|out] ks]|] eqn:Ht;
      try discriminate.
    + destruct (awaited p w) as [out|]; [|discriminate].
      inversion Hs; subst w'; clear Hs. left. apply after_refresh_client.
    + destruct ks as [|k ks]; [discriminate|].
      destruct (stores_tokens k) eqn:Hk.
      * destruct (run_frame_stores k out w Hk) as (_ & _ & _ & _ & He & _).
        destruct (run_frame k out w) as [out' w1].
        inversion Hs; subst w'; clear Hs. cbn [set_task env].
        cbn [snd] in He. left. rewrite He.
        destruct (store_tokens_spec out w)
          as [(data & _ & _ & _ & _ & _ & _ & H & _)|(e & _ & -> & _)]; auto.
      * destruct k; try discriminate; cbn [run_frame] in Hs.
        -- destruct out; inversion Hs; subst w'; auto.
        -- destruct out as [data|err]; [|inversion Hs; subst w'; auto].
           destruct (prop data "device_token") as [d|err];
             [|inversion Hs; subst w'; auto].
           destruct (js_truthy d); inversion Hs; subst w'; auto.
        -- destruct out as [v|err]; [inversion Hs; subst w'; auto|].
           destruct (status_is_401 err) eqn:H4;
             inversion Hs; subst w'; auto.
           right. split; [|right; exists t, og, ks, err; auto].
           cbn [set_task env]. unfold device_session_invalid.
           destruct (onDeviceSessionInvalid (cl (clearTokens w)));
             [reflexivity|].
           destruct (window_location (env (clearTokens w))); reflexivity.
Qed.
End Storage.

(** X14.  [clearTokens()] forgets everywhere and nothing else (lines
    304-346).  Afterwards [getTokens()] is all null; the item of
    [storageKey] is gone from the configured storage, and the items of
    [storageKey || 'welcomesign_tokens'] and of the three device keys are gone
    from [localStorage] and [sessionStorage] where the host has them; every
    other item of every storage is as it was; the configuration, the
    coordinator's flags, the requests in flight and the trace are untouched
    (no request is cancelled, no callback is called); and clearing twice is
    clearing once. *)
Theorem clearTokens_forgets_everywhere w :
  getTokens (cl (clearTokens w)) = no_credentials
  /\ (forall ref k, is_cleared (cl w) ref k ->
        getItem ref k (env (clearTokens w)) = None)
  /\ (forall ref k, ~ is_cleared (cl w) ref k ->
        getItem ref k (env (clearTokens w)) = getItem ref k (env w))
  /\ configuration (cl (clearTokens w)) = configuration (cl w)
  /\ isRefreshing (cl (clearTokens w)) = isRefreshing (cl w)
  /\ refreshPromise (cl (clearTokens w)) = refreshPromise (cl w)
  /\ tasks (clearTokens w) = tasks w
  /\ refreshes (clearTokens w) = refreshes w
  /\ trace (clearTokens w) = trace w
  /\ clearTokens (clearTokens w) = clearTokens w.
Proof.
  split_and!; try reflexivity.
  - apply clearTokens_removes.
  - apply clearTokens_keeps.
  - apply clearTokens_idemp.
Qed.

(** X15.  The class never writes to a storage.  In every world reached from
    a client on a host [h], an item found in [localStorage], [sessionStorage]
    or the application's storage was there from the start with the same
    value: no method stores a token, not login, not the refresh, not
    [registerDevice] or [setDeviceToken].  And the next segment, whatever it
    is, leaves the storages as they are unless it is [clearTokens()], called
    by the application or by the catch of a [getDeviceInfo] that failed with
    status 401 (lines 310-341, 823); so logout removes nothing. *)
Theorem class_never_writes_storage c h w :
  reachable (init c h) w ->
  (forall ref k v,
      getItem ref k (env w) = Some v -> getItem ref k h = Some v)
  /\ (forall l w',
        step l w = Some w' ->
        env w' = env w
        \/ (env w' = env (clearTokens w)
            /\ (l = Call ClearTokens
                \/ exists t og ks e,
                     l = Resume t
                     /\ tasks w !! t
                        = Some (Task og (WSettled (Throw e))
                                     (FGetDeviceInfo :: ks))
                     /\ status_is_401 e = true))).
Proof.
  intros Hr. split; [|intros l w'; apply step_env].
  intros ref k. induction Hr as [|l w w' Hr IH Hs]; intros v Hv.
  - exact Hv.
  - apply IH. destruct (step_env l w w' Hs) as [He|[He _]];
      rewrite He in Hv; [exact Hv|].
    destruct (clearTokens_getItem w ref k) as [Hn|Heq]; congruence.
Qed.

Lemma class_never_writes_storage_witness :
  getItem LocalStorage "theme"
          (env (world_or (init stored_device_client stored_host)
                         (run [Call (SetDeviceToken (VStr "D2"));
                               Call ClearTokens]
                              (init stored_device_client stored_host))))
  = Some "dark"
  /\ getItem LocalStorage "theme" stored_host = Some "dark".
Proof.
  assert (H : getItem LocalStorage "theme"
                (env (world_or (init stored_device_client stored_host)
                               (run [Call (SetDeviceToken (VStr "D2"));
                                     Call ClearTokens]
                                    (init stored_device_client stored_host))))
              = Some "dark") by (vm_compute; reflexivity).
  split; [exact H|].
  refine (proj1 (class_never_writes_storage stored_device_client stored_host
                   (world_or (init stored_device_client stored_host)
                             (run [Call (SetDeviceToken (VStr "D2"));
                                   Call ClearTokens]
                                  (init stored_device_client stored_host)))
                   _)
                LocalStorage "theme" "dark" H).
  apply (run_reachable [Call (SetDeviceToken (VStr "D2")); Call ClearTokens]
           _ (init stored_device_client stored_host));
    [constructor|reflexivity].
Defined.

(** ** Limits *)

Section Doubles.

Lemma to_double_exact n : (Z.abs n <= 2 ^ 53)%Z -> to_double n = n.
Proof.
  intros H. unfold to_double.
  destruct (Z.leb_spec (Z.abs n) (2 ^ 53)); [reflexivity|lia].
Qed.

(** Rounding keeps the sign, and never rounds to zero. *)
Lemma to_double_sign n :
  ((1 <= n -> 1 <= to_double n) /\ (n <= 0 -> to_double n <= 0))%Z.
Proof.
  unfold to_double. destruct (Z.leb_spec (Z.abs n) (2 ^ 53)) as [|Hbig]; [lia|].
  set (e := (Z.log2 (Z.abs n) - 52)%Z).
  assert (Hlog : (53 <= Z.log2 (Z.abs n))%Z).
  { change 53%Z with (Z.log2 (2 ^ 53)). apply Z.log2_le_mono. lia. }
  assert (He : (1 <= e)%Z) by (unfold e; lia).
  assert (Hpos : (0 < 2 ^ e)%Z) by (apply Z.pow_pos_nonneg; lia).
  assert (Hle : (2 ^ e <= Z.abs n)%Z).
  { transitivity (2 ^ Z.log2 (Z.abs n))%Z.
    - apply Z.pow_le_mono_r; unfold e; lia.
    - apply Z.log2_spec. lia. }
  assert (Hm : (1 <= Z.abs n / 2 ^ e)%Z).
  { apply Z.div_le_lower_bound; lia. }
  set (m := (Z.abs n / 2 ^ e)%Z) in *.
  set (m' := if (Z.abs n mod 2 ^ e <? 2 ^ (e - 1))%Z then m
             else if (2 ^ (e - 1) <? Z.abs n mod 2 ^ e)%Z then (m + 1)%Z
                  else if Z.even m then m else (m + 1)%Z).
  assert (Hm' : (1 <= m')%Z).
  { unfold m'. destruct (_ <? _)%Z; [lia|]. destruct (_ <? _)%Z; [lia|].
    destruct (Z.even m); lia. }
  assert (Hprod : (1 <= m' * 2 ^ e)%Z) by nia.
  split; intros Hn.
  - rewrite Z.sgn_pos by lia. lia.
  - assert (n < 0)%Z by lia. rewrite Z.sgn_neg by lia. lia.
Qed.
End Doubles.

(** X16.  The limit helpers agree with each other on safe integers (lines
    1293-1373).  What [getRemainingCapacity] returns is coded like a limit:
    it is unlimited ([-1]) exactly when the limit is, not applicable
    ([null]) exactly when the limit is, and otherwise a number that is never
    negative: 0 or the floating-point difference [limit - usage], which is
    the exact difference whenever that is at most 2^53 in absolute value, as
    it is for counts; and [isWithinLimit] holds exactly when the limit is
    unlimited or the remaining capacity is at least 1, so a usage equal to
    the limit is not within it. *)
Theorem remaining_capacity_agrees_with_limit usage limit :
  safe_integer usage = true ->
  (forall l, limit = Some l -> safe_integer l = true) ->
  isUnlimited (getRemainingCapacity usage limit) = isUnlimited limit
  /\ isLimitNotApplicable (getRemainingCapacity usage limit)
     = isLimitNotApplicable limit
  /\ (isWithinLimit usage limit = true
      <-> isUnlimited limit = true
          \/ exists r, getRemainingCapacity usage limit = Some r /\ (1 <= r)%Z)
  /\ (forall l r, limit = Some l -> isUnlimited limit = false ->
        getRemainingCapacity usage limit = Some r ->
        (0 <= r)%Z
        /\ (r = to_double (l - usage) \/ r = 0)%Z
        /\ ((Z.abs (l - usage) <= 2 ^ 53)%Z -> (r = l - usage \/ r = 0)%Z)
        /\ ((0 <= usage)%Z -> (-1 <= l)%Z -> (r = l - usage \/ r = 0)%Z))
  /\ isWithinLimit usage (Some usage) = isUnlimited (Some usage).
Proof.
  intros Hu Hl.
  unfold isUnlimited, isLimitNotApplicable, isWithinLimit, getRemainingCapacity.
  split_and!.
  - destruct limit as [l|]; [|reflexivity].
    destruct (Z.eqb_spec l (-1)) as [->|Hne]; [reflexivity|].
    destruct (Z.eqb_spec (Z.max 0 (to_double (l - usage))) (-1));
      [lia|reflexivity].
  - destruct limit as [l|]; [|reflexivity].
    destruct (l =? -1)%Z; reflexivity.
  - destruct limit as [l|].
    + destruct (Z.eqb_spec l (-1)) as [->|Hne]; [tauto|].
      destruct (to_double_sign (l - usage)) as [Hpos Hnonpos].
      split.
      * intros Hlt%Z.ltb_lt. right. eexists. split; [reflexivity|]. lia.
      * intros [?|(r & [= <-] & Hr)]; [discriminate|]. apply Z.ltb_lt.
        destruct (Z.lt_ge_cases usage l) as [|Hge]; [assumption|].
        specialize (Hnonpos ltac:(lia)). lia.
    + split; [discriminate|]. intros [?|(r & ? & _)]; discriminate.
  - intros l r -> Hun. rewrite Hun. intros [= <-].
    specialize (Hl l eq_refl). unfold safe_integer in Hu, Hl.
    apply Z.leb_le in Hu, Hl.
    split_and!.
    + lia.
    + lia.
    + intros Hex. rewrite to_double_exact by exact Hex. lia.
    + intros H0 H1. rewrite to_double_exact by lia. lia.
  - destruct (usage =? -1)%Z; [reflexivity|]. apply Z.ltb_irrefl.
Qed.

Lemma remaining_capacity_agrees_with_limit_witness :
  safe_integer 3 = true
  /\ getRemainingCapacity 3 (Some 5%Z) = Some 2%Z
  /\ (isWithinLimit 3 (Some 5%Z) = true
      <-> isUnlimited (Some 5%Z) = true
          \/ exists r, getRemainingCapacity 3 (Some 5%Z) = Some r
                       /\ (1 <= r)%Z).
Proof.
  split; [reflexivity|]. split; [reflexivity|].
  assert (Hl : forall l, Some 5%Z = Some l -> safe_integer l = true)
    by (intros l [= <-]; reflexivity).
  exact (proj1 (proj2 (proj2 (remaining_capacity_agrees_with_limit
                                3 (Some 5%Z) eq_refl Hl)))).
Defined.

(** ** Clearing the tokens while a refresh is in flight *)

Lemma request_try_Returned c c' o r v :
  request_try c o r = Returned v -> request_try c' o r = Returned v.
Proof.
  unfold request_try. destruct r as [|status data]; [discriminate|].
  destruct (status_ok status); [auto|].
  destruct ((status =? 401)%Z && js_truthy (refreshToken c)
            && negb (js_truthy (obj_get "skipTokenRefresh" o)));
    [discriminate|].
  destruct (error_message data); discriminate.
Qed.

(** X17.  [clearTokens()] does not cancel a refresh in flight (lines
    304-307 against 124-142).  If the application clears the tokens while
    the refresh request is waiting for its answer, the credentials are null
    until the answer comes; a successful answer is then stored as if nothing
    had happened: the client holds the new access and refresh token again
    (the device token stays null) and [onTokenRefresh] is called with
    them. *)
Theorem clearTokens_does_not_cancel_refresh w t og e o r ks rsp v :
  tasks w !! t = Some (Task og (WFetch e o) (FRefresh r :: ks)) ->
  request_try (cl w) o rsp = Returned v ->
  nullish v = false ->
  exists w2 w3 tk rt ex,
    step (Call ClearTokens) w = Some (clearTokens w)
    /\ getTokens (cl (clearTokens w)) = no_credentials
    /\ step (Deliver t rsp) (clearTokens w) = Some w2
    /\ getTokens (cl w2) = no_credentials
    /\ step (Resume t) w2 = Some w3
    /\ prop v "token" = Ok tk /\ prop v "refresh_token" = Ok rt
    /\ prop v "expires_at" = Ok ex
    /\ getTokens (cl w3)
       = [("token", tk); ("refreshToken", rt); ("deviceToken", VNull)]
    /\ trace w3
       = trace w ++ (if onTokenRefresh (cl w)
                     then [EvTokenRefresh [("token", tk); ("refreshToken", rt);
                                           ("expiresAt", ex)]]
                     else []).
Proof.
  intros Ht Htry Hn.
  assert (Hlt : (t < length (tasks w))%nat) by (eapply lookup_lt_Some; eauto).
  assert (Ht1 : tasks (clearTokens w) !! t
                = Some (Task og (WFetch e o) (FRefresh r :: ks))) by exact Ht.
  pose proof (step_deliver _ _ _ _ _ _ rsp Ht1) as Hs2.
  assert (Hd : deliver t og e o (FRefresh r :: ks) rsp (clearTokens w)
               = set_task t (Task og (WSettled (Ok v)) (FRefresh r :: ks))
                          (clearTokens w)).
  { unfold deliver.
    rewrite (request_try_Returned _ (cl (clearTokens w)) _ _ _ Htry).
    reflexivity. }
  rewrite Hd in Hs2.
  set (w2 := set_task t (Task og (WSettled (Ok v)) (FRefresh r :: ks))
                      (clearTokens w)) in *.
  assert (Ht2 : tasks w2 !! t
                = Some (Task og (WSettled (Ok v)) (FRefresh r :: ks))).
  { apply list_lookup_insert_eq. exact Hlt. }
  pose proof (step_resume_frame _ _ _ _ _ _ Ht2) as Hs3.
  rewrite run_frame_refresh_eq in Hs3. cbn [fst snd] in Hs3.
  destruct (store_tokens_ok v w2 Hn)
    as (tk & rt & ex & H1 & H2 & H3 & Hf & H5 & H6 & H7).
  destruct (store_tokens_spec (Ok v) w2)
    as [(data & _ & _ & _ & _ & _ & Hdv & _)|(err & Hthrow & _)];
    [|rewrite Hf in Hthrow; discriminate].
  eexists w2, _, tk, rt, ex. split; [reflexivity|]. split; [reflexivity|].
  split; [exact Hs2|]. split; [reflexivity|]. split; [exact Hs3|].
  split; [exact H1|]. split; [exact H2|]. split; [exact H3|].
  cbn [set_task settle_refresh cl trace]. split; [|exact H7].
  unfold getTokens. cbn [set_refreshing token refreshToken deviceToken].
  rewrite H5, H6, Hdv. reflexivity.
Qed.

Lemma clearTokens_does_not_cancel_refresh_witness :
  tasks refresh_in_flight !! 1%nat
  = Some (Task (ByRefresh 0) (WFetch "/auth/refresh"
                                     (refresh_options notified_client))
               [FRefresh 0])
  /\ exists w2 w3,
       step (Deliver 1 new_pair) (clearTokens refresh_in_flight) = Some w2
       /\ getTokens (cl w2) = no_credentials
       /\ step (Resume 1) w2 = Some w3
       /\ getTokens (cl w3)
          = [("token", VStr "T2"); ("refreshToken", VStr "R2");
             ("deviceToken", VNull)].
Proof.
  split; [reflexivity|].
  destruct (clearTokens_does_not_cancel_refresh refresh_in_flight 1%nat
              (ByRefresh 0) "/auth/refresh" (refresh_options notified_client)
              0%nat [] new_pair
              (VObj [("token", VStr "T2"); ("refresh_token", VStr "R2");
                     ("expires_at", VNum 1767225600)])
              eq_refl eq_refl eq_refl)
    as (w2 & w3 & tk & rt & ex & _ & _ & Hs2 & Hc2 & Hs3 & H1 & H2 & _ & Hc3 & _).
  injection H1 as <-. injection H2 as <-.
  exists w2, w3. auto.
Defined.

(** ** The requests of login and register *)

(** X18.  What [login] and [register] send (lines 168-173, 196-201), for
    every client: one [POST] to [baseURL + '/auth/login'] (or
    ['/auth/register']) whose body is the JSON text of [{ email, password }]
    (or of the user data), and, by [auth: false], no [Authorization] header
    whatever access token is held; nothing of the client changes until the
    answer comes.  Neither descriptor is marked [skipTokenRefresh]: a 401
    answer to a login on a client that holds a refresh token starts a token
    refresh. *)
Theorem login_and_register_send_no_token w email password fields :
  let login := request_config (cl w) (login_options email password) in
  let register := request_config (cl w) (register_options (VObj fields)) in
  step (Call (Login email password)) w
  = Some (add_task (Task (ByCaller (Login email password))
                         (WFetch "/auth/login" (login_options email password))
                         [FLogin])
                   (emit [EvFetch (length (tasks w))
                                  (baseURL (cl w) +:+ "/auth/login") login] w))
  /\ step (Call (Register (VObj fields))) w
     = Some (add_task (Task (ByCaller (Register (VObj fields)))
                            (WFetch "/auth/register"
                                    (register_options (VObj fields)))
                            [FRegister])
                      (emit [EvFetch (length (tasks w))
                                     (baseURL (cl w) +:+ "/auth/register")
                                     register] w))
  /\ obj_get "method" login = VStr "POST"
  /\ obj_get "method" register = VStr "POST"
  /\ obj_get "body" login
     = JSON_stringify (VObj [("email", email); ("password", password)])
  /\ obj_get "body" register = JSON_stringify (VObj fields)
  /\ sent_authorization login = VUndefined
  /\ sent_authorization register = VUndefined
  /\ (forall data,
        js_truthy (refreshToken (cl w)) = true ->
        request_try (cl w) (login_options email password) (Response 401 data)
        = MustRefresh).
Proof.
  intros login register. split_and!; try reflexivity.
  intros data Hrt. apply request_try_401_refresh; [exact Hrt|reflexivity].
Qed.

(** ** No call sends more than two requests *)

Section Bounded.
Implicit Types (w : world) (ts : list task) (tr : list event).

Lemma bounded_add ts tr tk url cfg :
  bounded ts tr ->
  (exists e o, waiting tk = WFetch e o) ->
  bounded (ts ++ [tk]) (tr ++ [EvFetch (length ts) url cfg]).
Proof.
  intros Hb (e & o & Hw) t. specialize (Hb t).
  rewrite fetches_of_app. cbn [fetches_of].
  destruct (Nat.eqb_spec t (length ts)) as [->|Hne].
  - rewrite lookup_app_r, Nat.sub_diag by lia. cbn [lookup list_lookup].
    rewrite lookup_ge_None_2 in Hb by lia. rewrite Hb.
    unfold sent_by. rewrite Hw. left. reflexivity.
  - rewrite app_nil_r. destruct (decide (t < length ts)%nat) as [Hlt|Hge].
    + rewrite lookup_app_l by exact Hlt. exact Hb.
    + rewrite lookup_ge_None_2 by (rewrite length_app; simpl; lia).
      rewrite lookup_ge_None_2 in Hb by lia. exact Hb.
Qed.

Lemma bounded_set ts tr tr' t tk tk' :
  bounded ts tr ->
  ts !! t = Some tk ->
  (forall t0, fetches_of t0 tr' = fetches_of t0 tr) ->
  (forall n, sent_by tk n -> sent_by tk' n) ->
  bounded (<[t := tk']> ts) tr'.
Proof.
  intros Hb Ht Hf Hs t0. specialize (Hb t0). rewrite Hf.
  destruct (decide (t0 = t)) as [->|Hne].
  - rewrite list_lookup_insert_eq by (eapply lookup_lt_Some; eauto).
    rewrite Ht in Hb. auto.
  - rewrite list_lookup_insert_ne by congruence. exact Hb.
Qed.

Lemma bounded_retry ts tr t og p e o ks url cfg :
  bounded ts tr ->
  ts !! t = Some (Task og (WRefresh p e o) ks) ->
  bounded (<[t := Task og (WFetch e (retry_options o)) ks]> ts)
          (tr ++ [EvFetch t url cfg]).
Proof.
  intros Hb Ht t0. specialize (Hb t0).
  rewrite fetches_of_app. cbn [fetches_of].
  destruct (Nat.eqb_spec t0 t) as [->|Hne].
  - rewrite list_lookup_insert_eq by (eapply lookup_lt_Some; eauto).
    rewrite Ht in Hb. unfold sent_by in *. cbn [waiting] in *.
    rewrite length_app, Hb. right. split; [reflexivity|].
    apply retry_options_skip.
  - rewrite app_nil_r, list_lookup_insert_ne by congruence. exact Hb.
Qed.

Lemma fetches_of_catch t tr c err :
  fetches_of t (tr ++ request_catch c err) = fetches_of t tr.
Proof.
  rewrite fetches_of_app. unfold request_catch.
  destruct (status_is_401 err && onAuthError c); apply app_nil_r.
Qed.

Lemma run_frame_requests k out w :
  tasks (snd (run_frame k out w)) = tasks w
  /\ forall t, fetches_of t (trace (snd (run_frame k out w)))
               = fetches_of t (trace w).
Proof.
  assert (Hst : tasks (snd (store_tokens out w)) = tasks w
                /\ forall t, fetches_of t (trace (snd (store_tokens out w)))
                             = fetches_of t (trace w)).
  { destruct (store_tokens_refreshing out w _ _ (surjective_pairing _))
      as (_ & _ & Hts & _).
    split; [exact Hts|].
    destruct (store_tokens_spec out w)
      as [(data & _ & _ & _ & _ & _ & _ & _ & H)|(e & _ & -> & _)]; auto. }
  destruct k; cbn [run_frame].
  - destruct (store_tokens out w) as [o1 w1]. exact Hst.
  - exact Hst.
  - exact Hst.
  - destruct out; auto.
  - destruct out as [data|err]; auto.
    destruct (prop data "device_token") as [d|err]; auto.
    cbn [snd]. destruct (js_truthy d); auto.
  - destruct out as [v|err]; auto. cbn [snd].
    destruct (status_is_401 err); auto.
    unfold device_session_invalid.
    destruct (onDeviceSessionInvalid (cl (clearTokens w)));
      [split; [reflexivity|]; intros t; cbn [emit trace];
       rewrite fetches_of_app; apply app_nil_r|].
    destruct (window_location (env (clearTokens w)));
      [split; [reflexivity|]; intros t; cbn [emit trace];
       rewrite fetches_of_app; apply app_nil_r|auto].
Qed.

Lemma step_bounded l w w' :
  step l w = Some w' ->
  bounded (tasks w) (trace w) -> bounded (tasks w') (trace w').
Proof.
  intros Hs Hb. destruct l as [op|t r|t]; simpl in Hs.
  - inversion Hs; subst w'; clear Hs.
    destruct op; cbn [call]; try exact Hb;
      apply bounded_add; eauto.
  - destruct (tasks w !! t) as [[og [e o|p e o|out] ks]|] eqn:Ht;
      try discriminate.
    inversion Hs; subst w'; clear Hs. unfold deliver.
    destruct (request_try (cl w) o r) as [v|err|] eqn:Htry.
    + eapply bounded_set; [exact Hb|exact Ht|reflexivity|].
      unfold sent_by. cbn [waiting]. tauto.
    + eapply bounded_set; [exact Hb|exact Ht| |].
      * intros t0. apply fetches_of_catch.
      * unfold sent_by. cbn [waiting]. tauto.
    + apply request_try_MustRefresh in Htry as (_ & _ & Hskip).
      destruct (isRefreshing (cl w)) eqn:Hbusy.
      * rewrite refreshAccessToken_busy by exact Hbusy.
        eapply bounded_set; [exact Hb|exact Ht|reflexivity|].
        unfold sent_by. cbn [waiting]. intros n [?|[_ ?]]; congruence.
      * destruct (refreshAccessToken_idle w Hbusy)
          as (w1 & -> & Hts & _ & _ & _ & _ & _ & _ & _ & Htr).
        cbn [set_task tasks trace]. rewrite Hts, Htr.
        eapply bounded_set;
          [apply bounded_add; [exact Hb|unfold refresh_task; eauto]
          |rewrite lookup_app_l by (eapply lookup_lt_Some; eauto); exact Ht
          |reflexivity|].
        unfold sent_by. cbn [waiting]. intros n [?|[_ ?]]; congruence.
  - destruct (tasks w !! t) as [[og [e o|p e o|out] ks]|] eqn:Ht;
      try discriminate.
    + destruct (awaited p w) as [out|]; [|discriminate].
      inversion Hs; subst w'; clear Hs. unfold after_refresh.
      destruct out as [v|err].
      * eapply bounded_retry; [exact Hb|exact Ht].
      * eapply bounded_set; [exact Hb|exact Ht| |].
        -- intros t0. apply fetches_of_catch.
        -- unfold sent_by. cbn [waiting]. tauto.
    + destruct ks as [|k ks]; [discriminate|].
      destruct (run_frame_requests k out w) as [Hts Hf].
      destruct (run_frame k out w) as [out' w1].
      inversion Hs; subst w'; clear Hs. cbn [snd] in Hts, Hf.
      cbn [set_task tasks trace]. rewrite Hts.
      eapply bounded_set; [exact Hb|exact Ht|exact Hf|].
      unfold sent_by. cbn [waiting]. tauto.
Qed.
End Bounded.

(** X19.  No call ever sends more than two requests.  In every world
    reached from a client, whatever the application calls and however often
    the server answers 401: every call that goes to the network has sent one
    request or two; it has sent exactly one while it waits for a request
    that is not marked [skipTokenRefresh] or for the refresh coordinator; a
    second one only as the marked retry of line 97, which is never retried
    again. *)
Theorem no_call_sends_more_than_two_requests c h w t :
  reachable (init c h) w ->
  (length (fetches_of t (trace w)) <= 2)%nat
  /\ match tasks w !! t with
     | Some tk =>
         (1 <= length (fetches_of t (trace w)))%nat
         /\ sent_by tk (length (fetches_of t (trace w)))
     | None => fetches_of t (trace w) = []
     end.
Proof.
  intros Hr.
  assert (Hb : bounded (tasks w) (trace w)).
  { induction Hr as [|l w w' Hr IH Hs].
    - intros t0. reflexivity.
    - eapply step_bounded; eauto. }
  specialize (Hb t). destruct (tasks w !! t) as [tk|].
  - unfold sent_by in *. destruct (waiting tk); split; try split; try lia;
      try exact Hb; destruct Hb as [?|?]; try lia.
  - rewrite Hb. split; [simpl; lia|reflexivity].
Qed.

Lemma no_call_sends_more_than_two_requests_witness :
  (length (fetches_of 0 (trace retry_fails_401)) <= 2)%nat
  /\ match tasks retry_fails_401 !! 0%nat with
     | Some tk =>
         (1 <= length (fetches_of 0 (trace retry_fails_401)))%nat
         /\ sent_by tk (length (fetches_of 0 (trace retry_fails_401)))
     | None => fetches_of 0 (trace retry_fails_401) = []
     end.
Proof.
  apply (no_call_sends_more_than_two_requests demo_client browser
           retry_fails_401 0%nat).
  apply (run_reachable
           (one_call_unauthorized
            ++ [Deliver 1 new_pair; Resume 1; Resume 0; Deliver 0 unauthorized])
           _ (init demo_client browser)); [constructor|reflexivity].
Defined.

(** ** The heartbeat timer *)

Section Heartbeat.
Implicit Types (w : world).

Lemma start_request_lookup og e o ks w :
  tasks (start_request og e o ks w) !! length (tasks w)
  = Some (Task og (WFetch e o) ks).
Proof.
  cbn [start_request add_task emit tasks].
  rewrite lookup_app_r, Nat.sub_diag by lia. reflexivity.
Qed.

End Heartbeat.



(** ** [createClient] *)

Section CreateClient.
Variable JSON_parse : string -> result value.
Implicit Types (w : world) (h : host) (options : client_options).

Lemma nothing_saved_empty options h :
  nothing_saved JSON_parse options h ->
  saved_tokens JSON_parse options h = VObj [].
Proof.
  unfold nothing_saved, saved_tokens.
  destruct (chosen_storage options h) as [ref|]; [|reflexivity].
  destruct (getItem ref _ h) as [saved|]; [|reflexivity].
  intros [->|[e ->]]; [reflexivity|].
  destruct (String.eqb saved EmptyString); reflexivity.
Qed.

Lemma new_client_baseURL options options' :
  opt_baseURL options' = opt_baseURL options ->
  match new_client options' with
  | Ok c =>
      token c = js_or (opt_token options') VNull
      /\ refreshToken c = js_or (opt_refreshToken options') VNull
      /\ deviceToken c = js_or (opt_deviceToken options') VNull
      /\ onTokenRefresh c = opt_onTokenRefresh options'
      /\ storage c = opt_storage options'
      /\ storageKey c = storageKey_or_default (opt_storageKey options')
  | Throw e => new_client options = Throw e
  end.
Proof.
  intros Hb. unfold new_client. rewrite Hb.
  destruct (js_truthy (opt_baseURL options)); [|reflexivity].
  destruct (opt_baseURL options); try reflexivity.
  cbn [token refreshToken deviceToken onTokenRefresh storage storageKey].
  auto 10.
Qed.

Lemma storageKey_or_default_idemp k :
  storageKey_or_default (storageKey_or_default k) = storageKey_or_default k.
Proof.
  unfold storageKey_or_default.
  destruct (String.eqb_spec k EmptyString) as [->|Hne]; [reflexivity|].
  destruct (String.eqb_spec k EmptyString); [contradiction|reflexivity].
Qed.
End CreateClient.

(** X21.  [createClient] takes the credentials from the storage and from
    nowhere else (lines 1384-1426).  The [token], [refreshToken] and
    [deviceToken] of its options never reach the instance: they are
    overwritten by the saved ones, present or not.  The instance uses
    [options.storage], else [localStorage] when the host has it, else no
    storage, under the key [options.storageKey || 'welcomesign_tokens'], and
    always has an [onTokenRefresh].  Its three credentials are
    [saved.token || null], [saved.refreshToken || null] and
    [saved.deviceToken || null] of what [JSON.parse] made of the stored item;
    with no storage, no item, an empty item or an item that does not parse
    they are all null.  It throws when [baseURL] is refused by the
    constructor, and a [TypeError] when the stored item parses to [null]. *)
Theorem createClient_takes_tokens_from_storage_only JSON_parse options h :
  (forall tk rt dt,
      createClient JSON_parse (with_opt_tokens tk rt dt options) h
      = createClient JSON_parse options h)
  /\ match createClient JSON_parse options h with
     | Ok c =>
         storage c = chosen_storage options h
         /\ storageKey c = storageKey_or_default (opt_storageKey options)
         /\ onTokenRefresh c = true
         /\ (exists tk rt dt,
               prop (saved_tokens JSON_parse options h) "token" = Ok tk
               /\ prop (saved_tokens JSON_parse options h) "refreshToken"
                  = Ok rt
               /\ prop (saved_tokens JSON_parse options h) "deviceToken"
                  = Ok dt
               /\ getTokens c = [("token", js_or tk VNull);
                                 ("refreshToken", js_or rt VNull);
                                 ("deviceToken", js_or dt VNull)])
         /\ (nothing_saved JSON_parse options h ->
             getTokens c = no_credentials)
     | Throw e =>
         (nullish (saved_tokens JSON_parse options h) = true
          /\ e = TypeError "token")
         \/ new_client options = Throw e
     end.
Proof.
  split; [reflexivity|].
  unfold createClient.
  pose proof (nothing_saved_empty JSON_parse options h) as Hnone.
  destruct (saved_tokens JSON_parse options h) as [| |b|n|s|l|o] eqn:Hsaved;
    cbn [prop bind nullish]; auto;
    match goal with
    | |- context [new_client ?o'] =>
        pose proof (new_client_baseURL options o' eq_refl) as Hnew;
        destruct (new_client o') as [c|e]; [|auto]
    end;
    cbn [opt_token opt_refreshToken opt_deviceToken opt_onTokenRefresh
         opt_storage opt_storageKey] in Hnew;
    destruct Hnew as (Htk & Hrt & Hdt & Hcb & Hst & Hkey);
    rewrite storageKey_or_default_idemp in Hkey;
    (split_and!; [exact Hst|exact Hkey|exact Hcb| |]);
    try (eexists _, _, _; split_and!; [reflexivity..|];
         unfold getTokens; rewrite Htk, Hrt, Hdt; reflexivity);
    intros Hn; specialize (Hnone Hn); try discriminate.
  injection Hnone as ->. unfold getTokens. rewrite Htk, Hrt, Hdt. reflexivity.
Qed.

Section Wrappers.
Implicit Types (w : world) (h : host) (s : gmap string string).

Lemma delete_remove_keys ks k s :
  delete k (remove_keys ks (delete k s)) = remove_keys ks (delete k s).
Proof.
  apply map_eq. intros j. destruct (decide (k = j)) as [->|Hne].
  - rewrite lookup_delete_eq, remove_keys_lookup.
    destruct (decide (j ∈ ks)); [reflexivity|].
    rewrite lookup_delete_eq. reflexivity.
  - rewrite lookup_delete_ne by exact Hne. reflexivity.
Qed.

Lemma json_text_object o : exists text, json_text (VObj o) = Some text.
Proof. cbn [json_text]. eauto. Qed.

Lemma getItem_setItem ref k v h :
  has_storage ref h -> getItem ref k (storage_setItem ref k v h) = Some v.
Proof.
  unfold has_storage, getItem.
  destruct ref; cbn [storage_of storage_setItem localStorage sessionStorage
                     appStorage].
  - destruct (localStorage h); [intros _|congruence].
    cbn [fmap option_fmap option_map]. apply lookup_insert_eq.
  - destruct (sessionStorage h); [intros _|congruence].
    cbn [fmap option_fmap option_map]. apply lookup_insert_eq.
  - intros _. apply lookup_insert_eq.
Qed.

Lemma save_tokens_getItem tokens w ref :
  storage (cl w) = Some ref -> has_storage ref (env w) ->
  getItem ref (storageKey (cl w)) (env (save_tokens tokens w))
  = json_text (VObj tokens).
Proof.
  intros Hst Hh. unfold save_tokens. rewrite Hst.
  destruct (json_text_object tokens) as [text ->]. cbn [env].
  apply getItem_setItem. exact Hh.
Qed.
End Wrappers.

Lemma clearTokens_on_working w : clearTokens_on (fun _ => false) w = clearTokens w.
Proof. reflexivity. Qed.

(** X22.  The [clearTokens] that [createClient] installs (lines 1465-1470)
    against the class's own (lines 304-346), on storages whose [removeItem]
    may throw.  The two leave the same credentials and the same storages in
    every case: the item the installed one removes is already removed at
    line 312.  They differ in one thing: the call of line 312 is inside
    [try]/[catch] and the call of line 1468 is not, so the installed function
    throws what [removeItem] throws exactly when [removeItem] of the
    configured storage throws, the credentials being cleared by then, where
    the class's [clearTokens] returns. *)
Theorem created_clearTokens_differs_by_throwing broken e w :
  snd (created_clearTokens broken e w) = clearTokens_on broken w
  /\ fst (created_clearTokens broken e w)
     = match storage (cl w) with
       | Some ref => if broken ref then Some e else None
       | None => None
       end
  /\ getTokens (cl (snd (created_clearTokens broken e w))) = no_credentials
  /\ clearTokens_on (fun _ => false) w = clearTokens w.
Proof.
  unfold created_clearTokens.
  change (storage (cl (clearTokens_on broken w))) with (storage (cl w)).
  change (storageKey (cl (clearTokens_on broken w))) with (storageKey (cl w)).
  split_and!; [| | |reflexivity].
  - destruct (storage (cl w)) as [ref|] eqn:Hst; [|reflexivity].
    destruct (broken ref) eqn:Hb; [reflexivity|]. cbn [snd].
    unfold clearTokens_on.
    cbn [env cl storage set_deviceToken set_tokens storageKey tasks refreshes
         trace].
    rewrite Hst, Hb. f_equal.
    destruct ref; rewrite ?Hb;
      cbn [storage_removeItem localStorage sessionStorage appStorage
           window_location];
      try destruct (broken LocalStorage);
      try destruct (broken SessionStorage);
      try destruct (localStorage (env w)) as [L|];
      try destruct (sessionStorage (env w)) as [S|];
      cbn [fmap option_fmap option_map];
      rewrite ?delete_remove_keys, ?delete_delete_eq; reflexivity.
  - destruct (storage (cl w)) as [ref|]; [|reflexivity].
    destruct (broken ref); reflexivity.
  - destruct (storage (cl w)) as [ref|]; [|reflexivity].
    destruct (broken ref); reflexivity.
Qed.

(** X23.  What a client made by [createClient] has in its storage after a
    token refresh, a login or a register (lines 1408-1416 with 133-142,
    176-185, 204-213).  When the continuation stores the pair of a response
    [data] that is not null, [onTokenRefresh] -- here the function of
    [createClient] -- is called with { token, refreshToken, expiresAt } and
    replaces the stored item by the JSON text of exactly that object: the
    stored item then has no [deviceToken] member, whatever device token the
    client holds, and the client still holds it.  The wrappers of
    [setTokens], [setDeviceToken], [login] and [register] store the JSON text
    of [getTokens()] instead, device token included. *)
Theorem created_client_refresh_saves_pair_only w ref t og k ks data :
  storage (cl w) = Some ref -> has_storage ref (env w) ->
  onTokenRefresh (cl w) = true ->
  tasks w !! t = Some (Task og (WSettled (Ok data)) (k :: ks)) ->
  stores_tokens k = true -> nullish data = false ->
  exists w' ex,
    step (Resume t) w = Some w'
    /\ prop data "expires_at" = Ok ex
    /\ trace w'
       = trace w ++ [EvTokenRefresh [("token", token (cl w'));
                                     ("refreshToken", refreshToken (cl w'));
                                     ("expiresAt", ex)]]
    /\ getItem ref (storageKey (cl w))
               (env (created_onTokenRefresh
                       [("token", token (cl w'));
                        ("refreshToken", refreshToken (cl w'));
                        ("expiresAt", ex)] w'))
       = json_text (VObj [("token", token (cl w'));
                          ("refreshToken", refreshToken (cl w'));
                          ("expiresAt", ex)])
    /\ deviceToken (cl w') = deviceToken (cl w)
    /\ (forall v,
          getItem ref (storageKey (cl w))
                  (env (created_after_login (Ok v) w'))
          = json_text (VObj [("token", token (cl w'));
                             ("refreshToken", refreshToken (cl w'));
                             ("deviceToken", deviceToken (cl w))])).
Proof.
  intros Hst Hh Hcb Ht Hk Hn.
  pose proof (step_resume_frame w t og (Ok data) k ks Ht) as Hs.
  destruct (step_configuration _ _ _ Hs) as [Hcfg _].
  destruct (step_env _ _ _ Hs) as [He|[_ [?|(t' & og' & ks' & e & [= <-] & Ht' & _)]]];
    [|discriminate|congruence].
  destruct (run_frame_stores k (Ok data) w Hk) as (_ & Htk & Hrt & Hdv & _).
  assert (Htr : trace (snd (run_frame k (Ok data) w))
                = trace (snd (store_tokens (Ok data) w))).
  { destruct k; try discriminate; cbn [run_frame];
      destruct (store_tokens (Ok data) w); reflexivity. }
  destruct (store_tokens_ok data w Hn)
    as (tk & rt & ex & H1 & H2 & H3 & _ & H5 & H6 & H7).
  destruct (store_tokens_spec (Ok data) w)
    as [(d & _ & _ & _ & _ & _ & Hd & _)|(err & Hthrow & _)];
    [|destruct (store_tokens_ok data w Hn) as (? & ? & ? & _ & _ & _ & Hf & _);
      rewrite Hf in Hthrow; discriminate].
  set (w' := set_task t (Task og (WSettled (fst (run_frame k (Ok data) w))) ks)
                      (snd (run_frame k (Ok data) w))) in *.
  assert (Hst' : storage (cl w') = Some ref).
  { unfold configuration in Hcfg. injection Hcfg as _ _ _ _ Hs' _.
    exact (eq_trans Hs' Hst). }
  assert (Hkey : storageKey (cl w') = storageKey (cl w)).
  { unfold configuration in Hcfg. injection Hcfg as _ _ _ _ _ Hk'.
    exact Hk'. }
  assert (Hh' : has_storage ref (env w')) by (rewrite He; exact Hh).
  exists w', ex. split; [exact Hs|]. split; [exact H3|].
  assert (Htk' : token (cl w') = tk) by (subst w'; cbn [set_task cl]; congruence).
  assert (Hrt' : refreshToken (cl w') = rt)
    by (subst w'; cbn [set_task cl]; congruence).
  assert (Hdv' : deviceToken (cl w') = deviceToken (cl w))
    by (subst w'; cbn [set_task cl]; congruence).
  split_and!.
  - subst w'. cbn [set_task trace cl]. cbn [set_task cl] in Htk', Hrt'.
    rewrite Htk', Hrt', Htr, H7, Hcb. reflexivity.
  - unfold created_onTokenRefresh. rewrite <- Hkey.
    apply save_tokens_getItem; assumption.
  - exact Hdv'.
  - intros v. unfold created_after_login. rewrite <- Hkey, <- Hdv'.
    apply save_tokens_getItem; assumption.
Qed.

Lemma created_client_refresh_saves_pair_only_witness :
  exists w',
    step (Resume 1) created_refresh_answered = Some w'
    /\ getItem LocalStorage "welcomesign_tokens"
               (env (created_onTokenRefresh
                       [("token", token (cl w'));
                        ("refreshToken", refreshToken (cl w'));
                        ("expiresAt", VNum 1767225600)] w'))
       = json_text (VObj [("token", token (cl w'));
                          ("refreshToken", refreshToken (cl w'));
                          ("expiresAt", VNum 1767225600)])
    /\ deviceToken (cl w') = VStr "D1".
Proof.
  assert (Hh : has_storage LocalStorage (env created_refresh_answered))
    by discriminate.
  destruct (created_client_refresh_saves_pair_only created_refresh_answered
              LocalStorage 1%nat (ByRefresh 0) (FRefresh 0) []
              (VObj [("token", VStr "T2"); ("refresh_token", VStr "R2");
                     ("expires_at", VNum 1767225600)])
              eq_refl Hh eq_refl eq_refl eq_refl eq_refl)
    as (w' & ex & Hs & Hex & _ & Hitem & Hdv & _).
  injection Hex as <-. exists w'. auto.
Defined.

(** ** What the callers of [_request] hand on *)

(** X24.  The methods built on [_request] hand its outcome on unchanged
    (lines 168-188, 196-216, 222-232, 124-149, 778-790, 812-841).  When the
    request of a register, login, logout, registerDevice, getDeviceInfo or of
    the refresh has thrown, the method throws the very same error, status and
    data included, and -- unless it is getDeviceInfo with status 401 -- holds
    the same credentials and storages as before.  When the request has
    returned a value that is not null the method returns that value.  When
    it has returned null (a 2xx body { data: null }) logout and getDeviceInfo
    return null, while register, login and the refresh throw a TypeError for
    reading [token] of null and registerDevice one for [device_token]. *)
Theorem callers_pass_outcome_through w t og out k ks :
  tasks w !! t = Some (Task og (WSettled out) (k :: ks)) ->
  exists w' out',
    step (Resume t) w = Some w'
    /\ tasks w' !! t = Some (Task og (WSettled out') ks)
    /\ match out with
       | Throw e =>
           out' = Throw e
           /\ (k <> FGetDeviceInfo \/ status_is_401 e = false ->
               credentials_of (cl w') = credentials_of (cl w)
               /\ env w' = env w)
       | Ok v =>
           if nullish v
           then match k with
                | FLogout | FGetDeviceInfo => out' = Ok v
                | FRegisterDevice => out' = Throw (TypeError "device_token")
                | FRefresh _ | FRegister | FLogin =>
                    out' = Throw (TypeError "token")
                end
           else out' = Ok v
       end.
Proof.
  intros Ht.
  assert (Hlt : (t < length (tasks w))%nat) by (eapply lookup_lt_Some; eauto).
  rewrite (step_resume_frame w t og out k ks Ht).
  destruct (run_frame_requests k out w) as [Hts _].
  eexists _, _. split; [reflexivity|]. split.
  { cbn [set_task tasks]. rewrite Hts. apply list_lookup_insert_eq.
    exact Hlt. }
  cbn [set_task cl env].
  destruct out as [v|e].
  - destruct (nullish v) eqn:Hn.
    + destruct v; try discriminate; destruct k; reflexivity.
    + destruct k; try (destruct v; try discriminate; reflexivity);
        try (rewrite ?run_frame_refresh_eq; cbn [run_frame fst];
             destruct (store_tokens_ok v w Hn)
               as (_ & _ & _ & _ & _ & _ & Hf & _); exact Hf).
  - split; [destruct k; reflexivity|].
    intros Hk. destruct k; try (split; reflexivity).
    destruct Hk as [Hk|Hk]; [congruence|].
    cbn [run_frame snd]. rewrite Hk. split; reflexivity.
Qed.

Lemma callers_pass_outcome_through_witness :
  exists w',
    step (Resume 0) login_notified = Some w'
    /\ tasks w' !! 0%nat
       = Some (Task (ByCaller (Login (VStr "owner@example.com")
                                     (VStr "secret-1")))
                    (WSettled (Ok (VObj [("token", VStr "T2");
                                         ("refresh_token", VStr "R2");
                                         ("expires_at", VNum 1767225600)])))
                    []).
Proof.
  destruct (callers_pass_outcome_through login_notified 0%nat
              (ByCaller (Login (VStr "owner@example.com") (VStr "secret-1")))
              (Ok (VObj [("token", VStr "T2"); ("refresh_token", VStr "R2");
                         ("expires_at", VNum 1767225600)]))
              FLogin [] eq_refl)
    as (w' & out' & Hs & Ht & Hout).
  cbn [nullish] in Hout. subst out'. exists w'. auto.
Defined.

(** * The claims that span several segments *)

Section EndToEnd.
Implicit Types (w : world).

Lemma run_app ls ls' w :
  run (ls ++ ls') w
  = match run ls w with Some w' => run ls' w' | None => None end.
Proof.
  revert w. induction ls as [|l ls IH]; intros w; [reflexivity|].
  cbn [app run]. destruct (step l w); [apply IH|reflexivity].
Qed.

Lemma request_try_skip c c' o r :
  js_truthy (obj_get "skipTokenRefresh" o) = true ->
  request_try c o r = request_try c' o r.
Proof.
  intros Hs. unfold request_try. destruct r as [|status data]; [reflexivity|].
  rewrite Hs. cbn [negb]. rewrite !andb_false_r. reflexivity.
Qed.

Lemma store_tokens_null data w :
  nullish data = true ->
  store_tokens (Ok data) w = (Throw (TypeError "token"), w).
Proof. destruct data; try discriminate; reflexivity. Qed.

Lemma store_tokens_keeps_device out w :
  deviceToken (cl (snd (store_tokens out w))) = deviceToken (cl w).
Proof.
  destruct (store_tokens_spec out w)
    as [(d & _ & _ & _ & _ & _ & H & _)|(e & _ & -> & _)]; auto.
Qed.

(** The arrow of line 124 goes on after its request: what it stores and
    what it settles its promise with, provided the promise exists. *)
Lemma resume_refresh_explicit w t og out r ks :
  (r < length (refreshes w))%nat ->
  tasks w !! t = Some (Task og (WSettled out) (FRefresh r :: ks)) ->
  step (Resume t) w
  = Some (set_task t (Task og (WSettled (fst (store_tokens out w))) ks)
                   (settle_refresh r (fst (store_tokens out w))
                                   (snd (store_tokens out w))))
  /\ refreshes (settle_refresh r (fst (store_tokens out w))
                               (snd (store_tokens out w))) !! r
     = Some (Some (fst (store_tokens out w)))
  /\ tasks (snd (store_tokens out w)) = tasks w.
Proof.
  intros Hr Ht.
  rewrite (step_resume_frame _ _ _ _ _ _ Ht), run_frame_refresh_eq.
  cbn [fst snd]. split; [reflexivity|].
  pose proof (store_tokens_refreshing out w _ _ (surjective_pairing _))
    as (_ & _ & Hts & Hrs).
  cbn [settle_refresh refreshes]. rewrite Hrs. split; [|exact Hts].
  apply list_lookup_insert_eq. exact Hr.
Qed.

Lemma coordinated_pending_lt w t og out r ks :
  coordinated w ->
  tasks w !! t = Some (Task og (WSettled out) (FRefresh r :: ks)) ->
  (r < length (refreshes w))%nat.
Proof.
  intros Hco Ht.
  destruct (coordinated_resets w Hco t og out r ks Ht)
    as (_ & _ & _ & _ & Hpend & _).
  eapply lookup_lt_Some; eauto.
Qed.

Lemma coordinated_settles w :
  coordinated w -> completion_settles_with_credentials w.
Proof.
  intros Hco t og out r ks Ht.
  destruct (resume_refresh_explicit w t og out r ks
              (coordinated_pending_lt _ _ _ _ _ _ Hco Ht) Ht)
    as (Hs & Hr & _).
  eexists. split; [exact Hs|]. cbn [set_task cl refreshes].
  destruct out as [data|err].
  - destruct (nullish data) eqn:Hn.
    + rewrite (store_tokens_null data w Hn) in *. cbn [fst snd] in *.
      split_and!; [exact Hr|reflexivity..].
    + destruct (store_tokens_ok data w Hn)
        as (tk & rt & ex & H1 & H2 & _ & Hf & H5 & H6 & _).
      rewrite Hf in Hr |- *. cbn [settle_refresh cl set_refreshing token
                                 refreshToken deviceToken].
      split_and!; [exact Hr|congruence|congruence|].
      apply store_tokens_keeps_device.
  - cbn [store_tokens fst snd] in *. split_and!; [exact Hr|reflexivity..].
Qed.

Lemma coordinated_observes w : coordinated w -> waiters_observe_outcome w.
Proof.
  intros Hco t rt og og' e o ks ks' r out Ht Hrt.
  assert (Hlt : (t < length (tasks w))%nat) by (eapply lookup_lt_Some; eauto).
  assert (Hne : rt <> t) by (intros ->; rewrite Ht in Hrt; discriminate).
  destruct (resume_refresh_explicit w rt og' out r ks'
              (coordinated_pending_lt _ _ _ _ _ _ Hco Hrt) Hrt)
    as (Hs1 & Hr1 & Hts).
  match type of Hs1 with _ = Some ?x => set (w1 := x) in * end.
  assert (Ht1 : tasks w1 !! t = Some (Task og (WRefresh (Some r) e o) ks)).
  { subst w1. cbn [set_task tasks settle_refresh].
    rewrite list_lookup_insert_ne by exact Hne. rewrite Hts. exact Ht. }
  assert (Hr1' : refreshes w1 !! r = Some (Some (fst (store_tokens out w))))
    by exact Hr1.
  assert (Hlt1 : (t < length (tasks w1))%nat) by (eapply lookup_lt_Some; eauto).
  assert (Hrej : forall err,
             fst (store_tokens out w) = Throw err ->
             exists w2,
               step (Resume t) w1 = Some w2 /\ cl w2 = cl w1
               /\ tasks w2 !! t = Some (Task og (WSettled (Throw err)) ks)).
  { intros err Hout. rewrite Hout in Hr1'.
    destruct (resume_waiter_rejected w1 t og r e o ks err Ht1 Hr1')
      as (w2 & Hs2 & Ht2 & Hc2 & _).
    exists w2. auto. }
  destruct out as [data|err].
  - destruct (nullish data) eqn:Hn.
    + destruct (Hrej (TypeError "token")) as (w2 & Hs2 & Hc2 & _).
      { rewrite (store_tokens_null data w Hn). reflexivity. }
      exists w1, w2. split_and!; auto. intros Hn'. congruence.
    + destruct (store_tokens_ok data w Hn)
        as (tk & rt' & ex & H1 & H2 & _ & Hf & H5 & H6 & _).
      rewrite Hf in Hr1'.
      pose proof (resume_waiter_fulfilled w1 t og r e o ks data Ht1 Hr1')
        as Hs2.
      eexists w1, _. split; [exact Hs1|]. split; [exact Hs2|].
      split; [reflexivity|]. intros _. cbn [set_task emit cl tasks trace].
      split_and!.
      * subst w1. cbn [set_task settle_refresh cl set_refreshing token].
        congruence.
      * subst w1. cbn [set_task settle_refresh cl set_refreshing refreshToken].
        congruence.
      * apply list_lookup_insert_eq. exact Hlt1.
      * reflexivity.
  - destruct (Hrej err eq_refl) as (w2 & Hs2 & Hc2 & Ht2).
    exists w1, w2. split_and!; auto; rewrite Hc2; reflexivity.
Qed.

Lemma coordinated_single_flight w : coordinated w -> single_flight w.
Proof.
  intros Hco. split.
  - apply at_most_one_in_flight; auto.
  - apply coordinated_joins; auto.
  - apply coordinated_starts; auto.
  - apply coordinated_shares; auto.
  - intros ls w' r out. apply run_outcome_final; auto.
  - apply coordinated_resets; auto.
  - intros ls w' r. apply run_pending_calls; auto.
  - apply coordinated_settles; auto.
  - apply coordinated_observes; auto.
Qed.

(** A 401 met while no refresh is in progress, and the answer to the refresh
    request it starts. *)
Lemma refresh_chain w t og e o ks d rsp out :
  tasks w !! t = Some (Task og (WFetch e o) ks) ->
  js_truthy (refreshToken (cl w)) = true ->
  js_truthy (obj_get "skipTokenRefresh" o) = false ->
  isRefreshing (cl w) = false ->
  match request_try (cl w) (refresh_options (cl w)) rsp with
  | Returned v => out = Ok v
  | Thrown err => out = Throw err
  | MustRefresh => False
  end ->
  exists w2,
    run [Deliver t (Response 401 d); Deliver (length (tasks w)) rsp] w = Some w2
    /\ tasks w2 !! t
       = Some (Task og (WRefresh (Some (length (refreshes w))) e o) ks)
    /\ tasks w2 !! length (tasks w)
       = Some (Task (ByRefresh (length (refreshes w))) (WSettled out)
                    [FRefresh (length (refreshes w))])
    /\ refreshes w2 = refreshes w ++ [None]
    /\ isRefreshing (cl w2) = true
    /\ credentials_of (cl w2) = credentials_of (cl w)
    /\ env w2 = env w.
Proof.
  intros Ht Hrt Hskip Hidle Hout.
  assert (Hlt : (t < length (tasks w))%nat) by (eapply lookup_lt_Some; eauto).
  destruct (refreshAccessToken_idle w Hidle)
    as (w0 & Hra & Hts & Hrs & Hb & _ & Htk & Hrf & Hdv & He & _).
  cbn [run]. rewrite (step_deliver _ _ _ _ _ _ _ Ht). unfold deliver at 1.
  rewrite request_try_401_refresh by assumption. rewrite Hra.
  set (r := length (refreshes w)) in *.
  set (w1 := set_task t (Task og (WRefresh (Some r) e o) ks) w0).
  assert (Hrtk : tasks w1 !! length (tasks w)
                 = Some (Task (ByRefresh r)
                              (WFetch "/auth/refresh" (refresh_options (cl w)))
                              [FRefresh r])).
  { subst w1. cbn [set_task tasks]. rewrite Hts.
    rewrite list_lookup_insert_ne by lia.
    rewrite lookup_app_r, Nat.sub_diag by lia. reflexivity. }
  assert (Hlen1 : length (tasks w1) = S (length (tasks w))).
  { subst w1. cbn [set_task tasks]. rewrite length_insert, Hts, length_app.
    simpl. lia. }
  assert (Ht1 : tasks w1 !! t = Some (Task og (WRefresh (Some r) e o) ks)).
  { subst w1. cbn [set_task tasks]. apply list_lookup_insert_eq.
    rewrite Hts, length_app. lia. }
  rewrite (step_deliver _ _ _ _ _ _ rsp Hrtk).
  pose proof (deliver_task (length (tasks w)) (ByRefresh r) "/auth/refresh"
                (refresh_options (cl w)) [FRefresh r] rsp w1
                ltac:(rewrite Hlen1; lia)) as Ht2.
  assert (Htry : request_try (cl w1) (refresh_options (cl w)) rsp
                 = request_try (cl w) (refresh_options (cl w)) rsp)
    by (apply request_try_skip; reflexivity).
  rewrite Htry in Ht2.
  destruct (deliver_credentials (length (tasks w)) (ByRefresh r)
              "/auth/refresh" (refresh_options (cl w)) [FRefresh r] rsp w1)
    as (Htk2 & Hrt2 & Hdv2 & He2).
  eexists. split; [reflexivity|].
  assert (Hrest : tasks (deliver (length (tasks w)) (ByRefresh r)
                           "/auth/refresh" (refresh_options (cl w))
                           [FRefresh r] rsp w1) !! t
                  = tasks w1 !! t
                  /\ refreshes (deliver (length (tasks w)) (ByRefresh r)
                           "/auth/refresh" (refresh_options (cl w))
                           [FRefresh r] rsp w1)
                     = refreshes w1
                  /\ isRefreshing (cl (deliver (length (tasks w)) (ByRefresh r)
                           "/auth/refresh" (refresh_options (cl w))
                           [FRefresh r] rsp w1))
                     = isRefreshing (cl w1)).
  { unfold deliver. rewrite Htry.
    destruct (request_try (cl w) (refresh_options (cl w)) rsp);
      [| |contradiction];
      cbn [set_task emit tasks refreshes cl];
      (split_and!; [|reflexivity..]);
      apply list_lookup_insert_ne; lia. }
  destruct Hrest as (Ht' & Hrs' & Hb').
  split_and!.
  - rewrite Ht'. exact Ht1.
  - rewrite Ht2.
    destruct (request_try (cl w) (refresh_options (cl w)) rsp);
      [subst out; reflexivity..|contradiction].
  - rewrite Hrs'. exact Hrs.
  - rewrite Hb'. exact Hb.
  - apply credentials_of_eq; [rewrite Htk2|rewrite Hrt2|rewrite Hdv2];
      assumption.
  - rewrite He2. exact He.
Qed.
End EndToEnd.

(** ** C1: single-flight refresh *)

(** C1.  For every client the constructor returns and every world the client
    can reach, the refresh is single-flight while it is in progress: at most
    one refresh network call is in flight; a caller that meets a 401 (refresh
    token held, not marked [skipTokenRefresh]) while [isRefreshing] is true
    is handed the pending [refreshPromise] and nothing is started; while no
    refresh is in progress such a caller starts exactly one; as long as a
    refresh promise is pending no further refresh call goes out.  All callers
    that wait for a promise observe its one outcome: when the refresh request
    returned [data], the arrow stores [data.token] and [data.refresh_token]
    and fulfils the promise with [data] in one segment, and a waiter that
    resumes finds these credentials held and sends its retry built from
    them; when it threw, the promise is rejected with that error, the
    credentials are as before and every waiter throws the same error on.
    When the refresh finishes, with a value or an error, [isRefreshing] is
    false and [refreshPromise] is null again. *)
Theorem refresh_single_flight options c h w :
  new_client options = Ok c ->
  reachable (init c h) w ->
  single_flight w.
Proof.
  intros Hnew Hreach. apply coordinated_single_flight.
  apply new_client_idle in Hnew as [Hi Hp].
  eapply reachable_coordinated; [|exact Hreach].
  apply coordinated_init; assumption.
Qed.

Lemma refresh_single_flight_witness :
  new_client demo_options = Ok demo_client
  /\ reachable (init demo_client browser) one_waiting
  /\ single_flight one_waiting
  /\ step (Deliver 1 unauthorized) one_waiting
     = Some (set_task 1 (Task (ByCaller (Request "/properties" []))
                             (WRefresh (Some 0%nat) "/properties" []) [])
                      one_waiting)
  /\ reachable (init demo_client browser) refresh_answered_ok
  /\ exists w1 w2,
       step (Resume 1) refresh_answered_ok = Some w1
       /\ step (Resume 0) w1 = Some w2
       /\ token (cl w2) = VStr "T2" /\ refreshToken (cl w2) = VStr "R2"
       /\ map (fun f => sent_authorization (snd f)) (fetches_of 0 (trace w2))
          = [VStr "Bearer T1"; VStr "Bearer T2"].
Proof.
  assert (H1 : new_client demo_options = Ok demo_client) by reflexivity.
  assert (H2 : reachable (init demo_client browser) one_waiting).
  { apply (run_reachable one_of_two_unauthorized _ (init demo_client browser));
      [apply reach_init|vm_compute; reflexivity]. }
  assert (H3 : reachable (init demo_client browser) refresh_answered_ok).
  { apply (run_reachable (one_call_unauthorized ++ [Deliver 1 new_pair])
                         _ (init demo_client browser));
      [apply reach_init|vm_compute; reflexivity]. }
  pose proof (refresh_single_flight demo_options demo_client browser
                                    one_waiting H1 H2) as SF.
  pose proof (refresh_single_flight demo_options demo_client browser
                                    refresh_answered_ok H1 H3) as SF'.
  split; [exact H1|split; [exact H2|split; [exact SF|]]].
  split.
  { destruct (sf_join _ SF 1%nat (ByCaller (Request "/properties" []))
                      "/properties" [] []
                      (VObj [("message", VStr "Token expired")])
                      eq_refl eq_refl eq_refl eq_refl)
      as (r & Hp & _ & Hs).
    assert (r = 0%nat) as -> by (vm_compute in Hp; congruence).
    exact Hs. }
  split; [exact H3|].
  destruct (sf_observe _ SF' 0%nat 1%nat (ByCaller (Request "/users/me" []))
                       (ByRefresh 0) "/users/me" [] [] [] 0%nat
                       (Ok (VObj [("token", VStr "T2");
                                  ("refresh_token", VStr "R2");
                                  ("expires_at", VNum 1767225600)]))
                       eq_refl eq_refl)
    as (w1 & w2 & Hs1 & Hs2 & _ & Hout).
  destruct (Hout eq_refl) as (Htk & Hrt & _ & Htr).
  exists w1, w2. split; [exact Hs1|]. split; [exact Hs2|].
  split; [injection Htk as <-; reflexivity|].
  split; [injection Hrt as <-; reflexivity|].
  assert (Hw1 : Some w1
                = Some (world_or refresh_answered_ok
                                 (step (Resume 1) refresh_answered_ok)))
    by (rewrite <- Hs1; reflexivity).
  injection Hw1 as ->.
  assert (Hw2 : Some w2
                = Some (world_or refresh_answered_ok
                          (run [Resume 1; Resume 0] refresh_answered_ok)))
    by (rewrite <- Hs2; reflexivity).
  injection Hw2 as ->. reflexivity.
Defined.

(** Two calls are suspended together and both are answered 401, but the 401
    of the second arrives after the refresh the first one started has
    finished: the second one starts a refresh of its own, so two refresh
    calls go out for the two calls. *)
Lemma late_401_starts_second_refresh :
  new_client demo_options = Ok demo_client
  /\ run [Call (Request "/users/me" []); Call (Request "/properties" [])]
         (init demo_client browser) = Some two_in_flight
  /\ tasks two_in_flight
     = [Task (ByCaller (Request "/users/me" [])) (WFetch "/users/me" []) [];
        Task (ByCaller (Request "/properties" []))
             (WFetch "/properties" []) []]
  /\ run refresh_done_then_late_401 two_in_flight = Some late_401
  /\ refresh_calls late_401 = 2%nat
  /\ map fst (fetches_of 2 (trace late_401) ++ fetches_of 3 (trace late_401))
     = ["https://api.welcomesign.com/auth/refresh";
        "https://api.welcomesign.com/auth/refresh"]
  /\ map (fun f => obj_get "body" (snd f))
         (fetches_of 2 (trace late_401) ++ fetches_of 3 (trace late_401))
     = [JSON_stringify (VObj [("refresh_token", VStr "R1")]);
        JSON_stringify (VObj [("refresh_token", VStr "R2")])].
Proof. vm_compute. repeat split. Qed.

(** ** C5: a refresh that fails *)

Section FailedRefreshEndToEnd.
Implicit Types (w : world).

Lemma coordinated_start_keeps w :
  coordinated w -> refresh_start_keeps_tokens w.
Proof.
  intros Hco t og e o ks data Ht Hrt Hskip.
  assert (Hlt : (t < length (tasks w))%nat) by (eapply lookup_lt_Some; eauto).
  destruct (deliver_credentials t og e o ks (Response 401 data) w)
    as (Htk & Hrf & Hdv & _).
  destruct (isRefreshing (cl w)) eqn:Hb.
  - destruct (coordinated_joins w Hco t og e o ks data Ht Hrt Hskip Hb)
      as (r & Hp & Hpend & Hs).
    destruct (co_busy w Hco Hb) as (r' & i & tk & Hp' & _ & Hi & Hrefr).
    assert (r' = r) as -> by congruence.
    assert (Hne : t <> i).
    { intros <-. rewrite Ht in Hi. injection Hi as <-.
      destruct Hrefr as (_ & _ & Hw). cbn [waiting] in Hw. congruence. }
    eexists _, r, i, tk. split; [exact Hs|].
    cbn [set_task tasks cl refreshes].
    split_and!; auto.
    + apply list_lookup_insert_eq. exact Hlt.
    + rewrite list_lookup_insert_ne by exact Hne. exact Hi.
  - destruct (coordinated_starts w Hco t og e o ks data Ht Hrt Hskip Hb)
      as (w' & Hs & _ & _ & _ & Hp & Hpend & Ht' & Hrtk & _).
    exists w', (length (refreshes w)), (length (tasks w)), (refresh_task w).
    split; [exact Hs|]. split_and!; auto.
    + apply refresh_task_refresher.
    + rewrite (step_deliver _ _ _ _ _ _ _ Ht) in Hs. injection Hs as <-.
      apply credentials_of_eq; assumption.
Qed.

Lemma coordinated_propagates w : coordinated w -> failure_propagates w.
Proof.
  intros Hco t rt og og' e o ks ks' r err Ht Hrt.
  assert (Hne : rt <> t) by (intros ->; rewrite Ht in Hrt; discriminate).
  destruct (resume_refresh_explicit w rt og' (Throw err) r ks'
              (coordinated_pending_lt _ _ _ _ _ _ Hco Hrt) Hrt)
    as (Hs1 & Hr1 & Hts).
  cbn [store_tokens fst snd] in Hs1, Hr1, Hts.
  match type of Hs1 with _ = Some ?x => set (w1 := x) in * end.
  assert (Ht1 : tasks w1 !! t = Some (Task og (WRefresh (Some r) e o) ks)).
  { subst w1. cbn [set_task tasks settle_refresh].
    rewrite list_lookup_insert_ne by exact Hne. exact Ht. }
  assert (Hr1' : refreshes w1 !! r = Some (Some (Throw err))) by exact Hr1.
  destruct (resume_waiter_rejected w1 t og r e o ks err Ht1 Hr1')
    as (w2 & Hs2 & Ht2 & Hc2 & _ & Hrs2 & _ & Htr2).
  exists w1, w2. split; [exact Hs1|]. split; [exact Hs2|].
  split_and!.
  - rewrite Hrs2. exact Hr1'.
  - exact Ht2.
  - rewrite Hc2. reflexivity.
  - rewrite Htr2, fetch_count_app, request_catch_no_fetch.
    subst w1. cbn [set_task settle_refresh trace]. lia.
Qed.

Lemma coordinated_trigger w : coordinated w -> failure_reaches_trigger w.
Proof.
  intros Hco t og e o ks data rsp err Ht Hrt Hskip Hidle Htry.
  destruct (refresh_chain w t og e o ks data rsp (Throw err)
              Ht Hrt Hskip Hidle)
    as (w2 & Hrun & Ht2 & Hrt2 & Hrs2 & Hb2 & Hc2 & _).
  { rewrite Htry. reflexivity. }
  assert (Hco2 : coordinated w2).
  { eapply reachable_coordinated; [exact Hco|].
    eapply run_reachable; [apply reach_init|exact Hrun]. }
  destruct (coordinated_propagates w2 Hco2 _ _ _ _ _ _ _ _ _ _ Ht2 Hrt2)
    as (w3 & w4 & Hs3 & Hs4 & Hr4 & Ht4 & Hc4 & _).
  destruct (coordinated_resets w2 Hco2 _ _ _ _ _ Hrt2)
    as (w3' & out' & Hs3' & _ & _ & Hidle3 & _).
  rewrite Hs3 in Hs3'. injection Hs3' as <-.
  destruct (resume_waiter_rejected w3 t og (length (refreshes w)) e o ks err)
    as (w4' & Hs4' & _ & Hcl4 & _).
  { destruct (resume_refresh_explicit w2 _ _ (Throw err) _ []
                (coordinated_pending_lt _ _ _ _ _ _ Hco2 Hrt2) Hrt2)
      as (Hs3'' & _ & _).
    rewrite Hs3 in Hs3''. injection Hs3'' as ->.
    cbn [store_tokens fst snd set_task settle_refresh tasks].
    rewrite list_lookup_insert_ne; [exact Ht2|].
    intros Heq. rewrite Heq in Hrt2. rewrite Ht2 in Hrt2. discriminate. }
  { destruct (resume_refresh_explicit w2 _ _ (Throw err) _ []
                (coordinated_pending_lt _ _ _ _ _ _ Hco2 Hrt2) Hrt2)
      as (Hs3'' & Hr3 & _).
    rewrite Hs3 in Hs3''. injection Hs3'' as ->. exact Hr3. }
  rewrite Hs4 in Hs4'. injection Hs4' as <-.
  exists w4. split.
  { change [Deliver t (Response 401 data); Deliver (length (tasks w)) rsp;
            Resume (length (tasks w)); Resume t]
      with ([Deliver t (Response 401 data); Deliver (length (tasks w)) rsp]
            ++ [Resume (length (tasks w)); Resume t]).
    rewrite run_app, Hrun. cbn [run]. rewrite Hs3, Hs4. reflexivity. }
  split_and!; auto.
  - rewrite Hcl4. exact Hidle3.
  - rewrite Hc4. exact Hc2.
Qed.

Lemma coordinated_failed_refresh_atomic w :
  coordinated w -> failed_refresh_atomic w.
Proof.
  intros Hco. split.
  - apply coordinated_start_keeps. exact Hco.
  - intros t og e o ks rsp Ht.
    assert (Hlt : (t < length (tasks w))%nat) by (eapply lookup_lt_Some; eauto).
    rewrite (step_deliver _ _ _ _ _ _ _ Ht).
    eexists. split; [reflexivity|]. split.
    + destruct (deliver_credentials t og e o ks rsp w) as (? & ? & ? & _).
      apply credentials_of_eq; assumption.
    + intros err Herr. rewrite deliver_task by exact Hlt.
      rewrite Herr. reflexivity.
  - intros rt og out r ks Ht.
    destruct (resume_refresh_frame w rt og out r ks Hco Ht)
      as (w' & out' & Hs & Hp & Hr & _ & Hthrow & Hkeep & _).
    exists w', out'. split_and!; auto.
  - intros t og r e o ks err Ht Hr.
    destruct (resume_waiter_rejected w t og r e o ks err Ht Hr)
      as (w' & Hs & Ht' & Hc & _ & _ & _ & Htr).
    exists w'. split_and!; auto.
    + rewrite Hc. reflexivity.
    + rewrite Htr, fetch_count_app, request_catch_no_fetch. lia.
  - intros ls w' r err. apply run_outcome_final. exact Hco.
  - apply coordinated_propagates. exact Hco.
  - apply coordinated_trigger. exact Hco.
Qed.
End FailedRefreshEndToEnd.

(** C5.  For every client and every world it can reach: a caller whose 401
    is handed to the coordinator then waits for the one pending promise of
    the refresh request in flight, and handing it over writes no credential;
    the answer to the refresh request writes no credential, and when that
    request throws (a 500, a 401, a network failure) the refresh arrow
    resumes with the error; the arrow then rejects the pending promise with
    that same error and leaves token, refreshToken and deviceToken exactly
    as they were (no partial and no null replacement); every caller waiting
    for that promise resumes with the same error and throws it on without
    retrying, and so does the caller that triggered the refresh: from its
    401 to its rejection with the error of the refresh request the
    credentials do not change; and a rejected promise stays rejected with
    that error for callers that resume later. *)
Theorem failed_refresh_is_atomic options c h w :
  new_client options = Ok c ->
  reachable (init c h) w ->
  failed_refresh_atomic w.
Proof.
  intros Hnew Hreach. apply coordinated_failed_refresh_atomic.
  apply new_client_idle in Hnew as [Hi Hp].
  eapply reachable_coordinated; [|exact Hreach].
  apply coordinated_init; assumption.
Qed.

Lemma failed_refresh_is_atomic_witness :
  new_client demo_options = Ok demo_client
  /\ reachable (init demo_client browser) one_in_flight
  /\ failed_refresh_atomic one_in_flight
  /\ (exists w4,
        run [Deliver 0 unauthorized; Deliver 1 server_error; Resume 1;
             Resume 0] one_in_flight = Some w4
        /\ tasks w4 !! 0%nat
           = Some (Task (ByCaller (Request "/users/me" []))
                        (WSettled (Throw (ApiError "Internal Server Error" 500
                                            (VObj [("message",
                                                    VStr "Internal Server Error")]))))
                        [])
        /\ credentials_of (cl w4) = (VStr "T1", VStr "R1", VNull))
  /\ reachable (init demo_client browser) refresh_answered_500
  /\ exists w1 w2,
       step (Resume 2) refresh_answered_500 = Some w1
       /\ step (Resume 1) w1 = Some w2
       /\ tasks w2 !! 1%nat
          = Some (Task (ByCaller (Request "/properties" []))
                       (WSettled (Throw (ApiError "Internal Server Error" 500
                                           (VObj [("message",
                                                   VStr "Internal Server Error")]))))
                       [])
       /\ credentials_of (cl w2) = (VStr "T1", VStr "R1", VNull).
Proof.
  assert (H1 : new_client demo_options = Ok demo_client) by reflexivity.
  assert (H2 : reachable (init demo_client browser) one_in_flight).
  { apply (run_reachable [Call (Request "/users/me" [])]
                         _ (init demo_client browser));
      [apply reach_init|vm_compute; reflexivity]. }
  assert (H3 : reachable (init demo_client browser) refresh_answered_500).
  { apply (run_reachable (two_calls_unauthorized ++ [Deliver 2 server_error])
                         _ (init demo_client browser));
      [apply reach_init|vm_compute; reflexivity]. }
  pose proof (failed_refresh_is_atomic demo_options demo_client browser
                                       one_in_flight H1 H2) as FR.
  pose proof (failed_refresh_is_atomic demo_options demo_client browser
                                       refresh_answered_500 H1 H3) as FR'.
  split; [exact H1|split; [exact H2|split; [exact FR|]]].
  split.
  { destruct (fr_trigger _ FR 0%nat (ByCaller (Request "/users/me" []))
                         "/users/me" [] []
                         (VObj [("message", VStr "Token expired")])
                         server_error
                         (ApiError "Internal Server Error" 500
                                   (VObj [("message",
                                           VStr "Internal Server Error")]))
                         eq_refl eq_refl eq_refl eq_refl eq_refl)
      as (w4 & Hrun & Ht & _ & _ & Hc).
    exists w4. split; [exact Hrun|]. split; [exact Ht|]. exact Hc. }
  split; [exact H3|].
  destruct (fr_propagates _ FR' 1%nat 2%nat
                          (ByCaller (Request "/properties" [])) (ByRefresh 0)
                          "/properties" [] [] [] 0%nat
                          (ApiError "Internal Server Error" 500
                                    (VObj [("message",
                                            VStr "Internal Server Error")]))
                          eq_refl eq_refl)
    as (w1 & w2 & Hs1 & Hs2 & _ & Ht & Hc & _).
  exists w1, w2. split; [exact Hs1|]. split; [exact Hs2|].
  split; [exact Ht|exact Hc].
Defined.

(** ** C9: the token pair is written as a pair *)

Section TokenPairEndToEnd.
Implicit Types (w : world).

(** A register or a login, from the call to the continuation that stores
    the pair. *)
Lemma stored_call og e o k w rsp data :
  k = FRegister \/ k = FLogin ->
  request_try (cl w) o rsp = Returned data ->
  nullish data = false ->
  exists w3,
    run [Deliver (length (tasks w)) rsp; Resume (length (tasks w))]
        (start_request og e o [k] w) = Some w3
    /\ settled_with (length (tasks w)) w3 = Some (Ok data)
    /\ prop data "token" = Ok (token (cl w3))
    /\ prop data "refresh_token" = Ok (refreshToken (cl w3))
    /\ deviceToken (cl w3) = deviceToken (cl w).
Proof.
  intros Hk Htry Hn.
  pose proof (start_request_lookup og e o [k] w) as Ht1.
  cbn [run]. rewrite (step_deliver _ _ _ _ _ _ rsp Ht1). unfold deliver.
  change (cl (start_request og e o [k] w)) with (cl w). rewrite Htry.
  set (w2 := set_task (length (tasks w)) (Task og (WSettled (Ok data)) [k])
                      (start_request og e o [k] w)).
  assert (Hlt : (length (tasks w) < length (tasks w2))%nat).
  { subst w2. cbn [set_task start_request add_task emit tasks].
    rewrite length_insert, length_app. simpl. lia. }
  assert (Ht2 : tasks w2 !! length (tasks w)
                = Some (Task og (WSettled (Ok data)) [k])).
  { subst w2. cbn [set_task tasks]. apply list_lookup_insert_eq.
    cbn [start_request add_task emit tasks]. rewrite length_app. simpl. lia. }
  rewrite (step_resume_frame _ _ _ _ _ _ Ht2).
  assert (Hrun : run_frame k (Ok data) w2 = store_tokens (Ok data) w2)
    by (destruct Hk as [->| ->]; reflexivity).
  rewrite Hrun.
  destruct (store_tokens_ok data w2 Hn)
    as (tk & rt & ex & H1 & H2 & _ & Hf & H5 & H6 & _).
  pose proof (store_tokens_refreshing (Ok data) w2 _ _ (surjective_pairing _))
    as (_ & _ & Hts & _).
  eexists. split; [reflexivity|]. cbn [set_task cl].
  split_and!.
  - unfold settled_with. cbn [set_task tasks]. rewrite Hts.
    rewrite list_lookup_insert_eq by exact Hlt. rewrite Hf. reflexivity.
  - congruence.
  - congruence.
  - rewrite store_tokens_keeps_device. reflexivity.
Qed.

(** A refresh, from the 401 that starts it to the arrow that stores the
    pair. *)
Lemma stored_refresh w t og e o ks d rsp data :
  tasks w !! t = Some (Task og (WFetch e o) ks) ->
  js_truthy (refreshToken (cl w)) = true ->
  js_truthy (obj_get "skipTokenRefresh" o) = false ->
  isRefreshing (cl w) = false ->
  request_try (cl w) (refresh_options (cl w)) rsp = Returned data ->
  nullish data = false ->
  exists w3,
    run [Deliver t (Response 401 d); Deliver (length (tasks w)) rsp;
         Resume (length (tasks w))] w = Some w3
    /\ refreshes w3 !! length (refreshes w) = Some (Some (Ok data))
    /\ prop data "token" = Ok (token (cl w3))
    /\ prop data "refresh_token" = Ok (refreshToken (cl w3))
    /\ deviceToken (cl w3) = deviceToken (cl w).
Proof.
  intros Ht Hrt Hskip Hidle Htry Hn.
  destruct (refresh_chain w t og e o ks d rsp (Ok data) Ht Hrt Hskip Hidle)
    as (w2 & Hrun & _ & Hrt2 & Hrs2 & _ & Hc2 & _).
  { rewrite Htry. reflexivity. }
  assert (Hlt : (length (refreshes w) < length (refreshes w2))%nat)
    by (rewrite Hrs2, length_app; simpl; lia).
  destruct (resume_refresh_explicit w2 _ _ (Ok data) _ [] Hlt Hrt2)
    as (Hs3 & Hr3 & _).
  destruct (store_tokens_ok data w2 Hn)
    as (tk & rt & ex & H1 & H2 & _ & Hf & H5 & H6 & _).
  rewrite Hf in Hs3, Hr3.
  eexists. split.
  { change [Deliver t (Response 401 d); Deliver (length (tasks w)) rsp;
            Resume (length (tasks w))]
      with ([Deliver t (Response 401 d); Deliver (length (tasks w)) rsp]
            ++ [Resume (length (tasks w))]).
    rewrite run_app, Hrun. cbn [run]. rewrite Hs3. reflexivity. }
  cbn [set_task settle_refresh cl refreshes set_refreshing token refreshToken
       deviceToken].
  split_and!.
  - exact Hr3.
  - congruence.
  - congruence.
  - rewrite store_tokens_keeps_device.
    unfold credentials_of in Hc2. congruence.
Qed.
End TokenPairEndToEnd.

(** What one segment does to the pair. *)
Lemma segment_writes_pair l w w' :
  step l w = Some w' ->
  (forall t og k ks data,
      l = Resume t ->
      tasks w !! t = Some (Task og (WSettled (Ok data)) (k :: ks)) ->
      stores_tokens k = true ->
      nullish data = false ->
      tasks w' !! t = Some (Task og (WSettled (Ok data)) ks)
      /\ prop data "token" = Ok (token (cl w'))
      /\ prop data "refresh_token" = Ok (refreshToken (cl w')))
  /\ ((token (cl w') = token (cl w)
       /\ refreshToken (cl w') = refreshToken (cl w))
      \/ (exists t og k ks data,
             l = Resume t
             /\ tasks w !! t = Some (Task og (WSettled (Ok data)) (k :: ks))
             /\ stores_tokens k = true
             /\ prop data "token" = Ok (token (cl w'))
             /\ prop data "refresh_token" = Ok (refreshToken (cl w')))
      \/ (token (cl w') = VNull /\ refreshToken (cl w') = VNull)
      \/ (exists tk rt,
             l = Call (SetTokens tk rt)
             /\ token (cl w') = tk /\ refreshToken (cl w') = rt)).
Proof.
  intros Hs. split.
  - intros t og k ks data -> Ht Hk Hn.
    assert (Hlt : (t < length (tasks w))%nat) by (eapply lookup_lt_Some; eauto).
    rewrite (step_resume_frame _ _ _ _ _ _ Ht) in Hs.
    inversion Hs; subst w'; clear Hs. simpl.
    destruct (run_frame_stores k (Ok data) w Hk) as (Ho & Htk & Hrt & _ & _ & Hts).
    rewrite Ho, Htk, Hrt, Hts.
    destruct (store_tokens_spec (Ok data) w)
      as [(d & [= <-] & _ & -> & Htk' & Hrt' & _)
         |(e & _ & _ & [[=]|(d & [= <-] & Hd)])];
      [|congruence].
    split_and!; auto.
    apply list_lookup_insert_eq. auto.
  - destruct l as [op|t r|t]; simpl in Hs.
    + inversion Hs; subst w'; clear Hs.
      destruct op; simpl; auto.
      right. right. right. eauto.
    + destruct (tasks w !! t) as [[og [e o|p e o|out] ks]|] eqn:Ht;
        try discriminate.
      inversion Hs; subst w'; clear Hs. left.
      destruct (deliver_credentials t og e o ks r w) as (? & ? & _). auto.
    + destruct (tasks w !! t) as [[og [e o|p e o|out] ks]|] eqn:Ht;
        try discriminate.
      * destruct (awaited p w) as [out|]; [|discriminate].
        inversion Hs; subst w'; clear Hs. left.
        destruct (after_refresh_client t og e o ks out w) as [-> _]. auto.
      * destruct ks as [|k ks]; [discriminate|].
        destruct (run_frame k out w) as [out' w1] eqn:Hrun.
        inversion Hs; subst w'; clear Hs. simpl.
        assert (Hst : stores_tokens k = true ->
                      (token (cl w1) = token (cl w)
                       /\ refreshToken (cl w1) = refreshToken (cl w))
                      \/ exists data, out = Ok data
                           /\ prop data "token" = Ok (token (cl w1))
                           /\ prop data "refresh_token"
                              = Ok (refreshToken (cl w1))).
        { intros Hk.
          destruct (run_frame_stores k out w Hk) as (_ & Htk & Hrt & _).
          rewrite Hrun in Htk, Hrt. simpl in Htk, Hrt. rewrite Htk, Hrt.
          destruct (store_tokens_spec out w)
            as [(d & -> & _ & _ & Htk' & Hrt' & _)|(e & _ & -> & _)]; eauto. }
        destruct k; simpl in Hst.
        1-3: destruct (Hst eq_refl) as [?|(data & -> & ? & ?)]; auto;
             right; left; do 5 eexists; split_and!; eauto.
        -- destruct out; inversion Hrun; subst; simpl; auto.
        -- destruct out as [data|e]; [|inversion Hrun; subst; auto].
           simpl in Hrun. destruct (prop data "device_token") as [d|e];
             inversion Hrun; subst; auto.
           destruct (js_truthy d); auto.
        -- destruct out as [v|e]; inversion Hrun; subst; auto.
           destruct (status_is_401 e); auto.
           destruct (device_session_invalid_credentials w) as (? & ? & _).
           auto.
Qed.

(** C9.  The token pair is written as a pair.  A register and a login, from
    the call through the 2xx answer to the continuation of the method, and a
    refresh, from the 401 that starts it through the 2xx answer of the
    refresh request to the arrow of line 124, each end with [data.token] and
    [data.refresh_token] of that one response [data] (not null) held as
    token and refreshToken, both written in the one last segment.  And in
    every segment of the client: the continuation of a register, login or
    refresh that resumes with the decoded response [data] stores both fields
    of that response and returns it; and whatever the segment is, the pair
    (token, refreshToken) is either left as it was, or both fields are taken
    from one response, or both are set to [null] (logout, clearTokens), or
    both are the arguments of one [setTokens] call.  No segment writes one
    field of the pair alone. *)
Theorem token_pair_replaced_together w :
  (forall userData rsp data,
      request_try (cl w) (register_options userData) rsp = Returned data ->
      nullish data = false ->
      exists w3,
        run [Call (Register userData); Deliver (length (tasks w)) rsp;
             Resume (length (tasks w))] w = Some w3
        /\ settled_with (length (tasks w)) w3 = Some (Ok data)
        /\ prop data "token" = Ok (token (cl w3))
        /\ prop data "refresh_token" = Ok (refreshToken (cl w3)))
  /\ (forall email password rsp data,
        request_try (cl w) (login_options email password) rsp = Returned data ->
        nullish data = false ->
        exists w3,
          run [Call (Login email password); Deliver (length (tasks w)) rsp;
               Resume (length (tasks w))] w = Some w3
          /\ settled_with (length (tasks w)) w3 = Some (Ok data)
          /\ prop data "token" = Ok (token (cl w3))
          /\ prop data "refresh_token" = Ok (refreshToken (cl w3)))
  /\ (forall t og e o ks d rsp data,
        tasks w !! t = Some (Task og (WFetch e o) ks) ->
        js_truthy (refreshToken (cl w)) = true ->
        js_truthy (obj_get "skipTokenRefresh" o) = false ->
        isRefreshing (cl w) = false ->
        request_try (cl w) (refresh_options (cl w)) rsp = Returned data ->
        nullish data = false ->
        exists w3,
          run [Deliver t (Response 401 d); Deliver (length (tasks w)) rsp;
               Resume (length (tasks w))] w = Some w3
          /\ refreshes w3 !! length (refreshes w) = Some (Some (Ok data))
          /\ prop data "token" = Ok (token (cl w3))
          /\ prop data "refresh_token" = Ok (refreshToken (cl w3)))
  /\ (forall l w',
        step l w = Some w' ->
        (forall t og k ks data,
            l = Resume t ->
            tasks w !! t = Some (Task og (WSettled (Ok data)) (k :: ks)) ->
            stores_tokens k = true ->
            nullish data = false ->
            tasks w' !! t = Some (Task og (WSettled (Ok data)) ks)
            /\ prop data "token" = Ok (token (cl w'))
            /\ prop data "refresh_token" = Ok (refreshToken (cl w')))
        /\ ((token (cl w') = token (cl w)
             /\ refreshToken (cl w') = refreshToken (cl w))
            \/ (exists t og k ks data,
                   l = Resume t
                   /\ tasks w !! t = Some (Task og (WSettled (Ok data)) (k :: ks))
                   /\ stores_tokens k = true
                   /\ prop data "token" = Ok (token (cl w'))
                   /\ prop data "refresh_token" = Ok (refreshToken (cl w')))
            \/ (token (cl w') = VNull /\ refreshToken (cl w') = VNull)
            \/ (exists tk rt,
                   l = Call (SetTokens tk rt)
                   /\ token (cl w') = tk /\ refreshToken (cl w') = rt))).
Proof.
  split_and!.
  - intros userData rsp data Htry Hn.
    destruct (stored_call (ByCaller (Register userData)) "/auth/register"
                (register_options userData) FRegister w rsp data
                (or_introl eq_refl) Htry Hn)
      as (w3 & Hrun & Hset & Htk & Hrt & _).
    exists w3. split_and!; auto.
  - intros email password rsp data Htry Hn.
    destruct (stored_call (ByCaller (Login email password)) "/auth/login"
                (login_options email password) FLogin w rsp data
                (or_intror eq_refl) Htry Hn)
      as (w3 & Hrun & Hset & Htk & Hrt & _).
    exists w3. split_and!; auto.
  - intros t og e o ks d rsp data Ht Hrt Hskip Hidle Htry Hn.
    destruct (stored_refresh w t og e o ks d rsp data Ht Hrt Hskip Hidle
                Htry Hn)
      as (w3 & Hrun & Hr & Htk & Hrf & _).
    exists w3. split_and!; auto.
  - intros l w'. apply segment_writes_pair.
Qed.

Lemma token_pair_replaced_together_witness :
  (exists w3,
      run [Call (Register (VObj [("email", VStr "owner@example.com");
                                 ("password", VStr "secret-1")]));
           Deliver 0 new_pair; Resume 0] (init demo_client browser) = Some w3
      /\ token (cl w3) = VStr "T2" /\ refreshToken (cl w3) = VStr "R2")
  /\ (exists w3,
        run [Call (Login (VStr "owner@example.com") (VStr "secret-1"));
             Deliver 0 new_pair; Resume 0] (init demo_client browser) = Some w3
        /\ token (cl w3) = VStr "T2" /\ refreshToken (cl w3) = VStr "R2")
  /\ (exists w3,
        run [Deliver 0 unauthorized; Deliver 1 new_pair; Resume 1]
            one_in_flight = Some w3
        /\ token (cl w3) = VStr "T2" /\ refreshToken (cl w3) = VStr "R2").
Proof.
  destruct (token_pair_replaced_together (init demo_client browser))
    as (Hreg & Hlog & _ & _).
  destruct (token_pair_replaced_together one_in_flight)
    as (_ & _ & Hrefresh & _).
  split_and!.
  - destruct (Hreg (VObj [("email", VStr "owner@example.com");
                          ("password", VStr "secret-1")])
                   new_pair
                   (VObj [("token", VStr "T2"); ("refresh_token", VStr "R2");
                          ("expires_at", VNum 1767225600)])
                   eq_refl eq_refl)
      as (w3 & Hrun & _ & Htk & Hrt).
    exists w3. split; [exact Hrun|].
    split; [injection Htk as <-|injection Hrt as <-]; reflexivity.
  - destruct (Hlog (VStr "owner@example.com") (VStr "secret-1") new_pair
                   (VObj [("token", VStr "T2"); ("refresh_token", VStr "R2");
                          ("expires_at", VNum 1767225600)])
                   eq_refl eq_refl)
      as (w3 & Hrun & _ & Htk & Hrt).
    exists w3. split; [exact Hrun|].
    split; [injection Htk as <-|injection Hrt as <-]; reflexivity.
  - destruct (Hrefresh 0%nat (ByCaller (Request "/users/me" [])) "/users/me"
                       [] [] (VObj [("message", VStr "Token expired")])
                       new_pair
                       (VObj [("token", VStr "T2");
                              ("refresh_token", VStr "R2");
                              ("expires_at", VNum 1767225600)])
                       eq_refl eq_refl eq_refl eq_refl eq_refl eq_refl)
      as (w3 & Hrun & _ & Htk & Hrt).
    exists w3. split; [exact Hrun|].
    split; [injection Htk as <-|injection Hrt as <-]; reflexivity.
Defined.
